(** * move_n_shoot: the physics core of [main.py]

    A shallow embedding of the classes [Bullet], [Player] and [Game] of
    [main.py], and the properties of the physics and collision code.

    The Python program computes on numbers that are [int] at first (the
    literals, the sprite and screen sizes, the mouse position) and [float]
    as soon as they meet [delta_t].  The embedding is written once, over an
    interface [Number] holding the operations the program uses, and read at
    two instances:
    - [float_Number]: IEEE 754 binary64, what CPython executes;
    - [real_Number]: exact real arithmetic, the reading under which the
      magnitude statements of the physics are exact.

    Python raises on a division by zero and on an overflowing power; the
    embedding returns a [result].

    The integer a [Rect] stores for a coordinate depends on the release of
    pygame; the two instances truncate, and the containment of a player by
    the walls is proved for every conversion of [Stored.regular]. *)

From Stdlib Require Import ZArith List Bool Lia.
From Stdlib Require Import Reals Lra.
From Stdlib Require PrimFloat FloatOps SpecFloat FloatAxioms.
Import ListNotations.

Local Open Scope Z_scope.

(** ** Exceptions *)

Inductive exn : Set :=
| ZeroDivisionError
| OverflowError
| TypeError
| IndexError.

Inductive result (A : Type) : Type :=
| Ok (a : A)
| Raise (e : exn).

Arguments Ok {A} a.
Arguments Raise {A} e.

Definition bind {A B : Type} (c : result A) (k : A -> result B) : result B :=
  match c with
  | Ok a => k a
  | Raise e => Raise e
  end.

Declare Scope py_scope.
Delimit Scope py_scope with py.

Notation "x <- c ;; k" := (bind c (fun x => k))
  (at level 61, c at next level, right associativity) : py_scope.
Notation "' pat <- c ;; k" := (bind c (fun pat => k))
  (at level 61, pat pattern, c at next level, right associativity) : py_scope.

(** ** Numbers *)

(** The arithmetic of the program.  [of_int] is the promotion of a Python
    [int] that meets a [float]; [div] is [/], which raises
    [ZeroDivisionError] on a zero divisor; [pow2] is [x ** 2], which raises
    [OverflowError] when a finite [x] has a square out of range; [pow_half]
    is [x ** 0.5], only ever applied to a sum of squares; [lt] is [<];
    [lit_0_8] and [lit_0_1] are the literals [0.8] and [0.1]; [to_int] is the
    conversion pygame applies to a coordinate assigned to a [Rect].  The
    releases of pygame differ in it: [float_Number] and [real_Number]
    truncate toward zero, as pygame does up to 2.1.3 for a finite value in
    the range of a C [int]; [Stored] below has the rounding of the later
    releases and what all of them share.  For a value that is not finite the
    conversion is undefined in C, and pygame stores whatever the cast
    yields; the embedding raises [TypeError] there. *)
Class Number (T : Type) : Type := {
  of_int : Z -> T;
  plus : T -> T -> T;
  minus : T -> T -> T;
  times : T -> T -> T;
  negate : T -> T;
  absolute : T -> T;
  div : T -> T -> result T;
  pow2 : T -> result T;
  pow_half : T -> T;
  lt : T -> T -> bool;
  lit_0_8 : T;
  lit_0_1 : T;
  to_int : T -> result Z
}.

(** [float('inf')], which only binary64 has. *)
Class Infinity (T : Type) : Type := {
  inf : T
}.

Infix "+" := plus : py_scope.
Infix "-" := minus : py_scope.
Infix "*" := times : py_scope.
Notation "- x" := (negate x) : py_scope.
Infix "<?" := lt : py_scope.
Notation "x >? y" := (lt y x) (only parsing) : py_scope.

(** Python's [min(a, b)]: the first argument unless the second is smaller. *)
Definition py_min {T : Type} `{Number T} (a b : T) : T :=
  if lt b a then b else a.

(** [True] and [False] in arithmetic. *)
Definition int_of_bool (b : bool) : Z := if b then 1 else 0.

(** *** binary64 *)

(** CPython computes [x ** 2] and [x ** 0.5] with the [pow] of the C library;
    they are taken correctly rounded here, as [x * x] and [sqrt x].  An
    [int] is promoted with round-to-nearest-even. *)
Module F64.
Import PrimFloat SpecFloat FloatOps.

Definition of_int (z : Z) : float :=
  SF2Prim (binary_normalize prec emax z 0 false).

Definition is_finite (x : float) : bool :=
  negb (is_nan x || is_infinity x).

Definition div (x y : float) : result float :=
  if PrimFloat.eqb y PrimFloat.zero then Raise ZeroDivisionError
  else Ok (PrimFloat.div x y).

Definition pow2 (x : float) : result float :=
  let r := PrimFloat.mul x x in
  if is_finite x && is_infinity r then Raise OverflowError else Ok r.

Definition to_int (x : float) : result Z :=
  match Prim2SF x with
  | S754_zero _ => Ok 0
  | S754_finite s m e => Ok (cond_Zopp s (Z.shiftl (Z.pos m) e))
  | S754_infinity _ => Raise TypeError
  | S754_nan => Raise TypeError
  end.

Definition lit_0_8 : float :=
  Eval vm_compute in PrimFloat.div (of_int 8) (of_int 10).
Definition lit_0_1 : float :=
  Eval vm_compute in PrimFloat.div (of_int 1) (of_int 10).
End F64.

#[export] Instance float_Number : Number PrimFloat.float := {|
  of_int := F64.of_int;
  plus := PrimFloat.add;
  minus := PrimFloat.sub;
  times := PrimFloat.mul;
  negate := PrimFloat.opp;
  absolute := PrimFloat.abs;
  div := F64.div;
  pow2 := F64.pow2;
  pow_half := PrimFloat.sqrt;
  lt := PrimFloat.ltb;
  lit_0_8 := F64.lit_0_8;
  lit_0_1 := F64.lit_0_1;
  to_int := F64.to_int
|}.

#[export] Instance float_Infinity : Infinity PrimFloat.float := {|
  inf := PrimFloat.infinity
|}.

(** *** Exact reals *)

Module Exact.
Definition div (x y : R) : result R :=
  if Req_dec_T y 0%R then Raise ZeroDivisionError else Ok (x / y)%R.

Definition lt (x y : R) : bool :=
  if Rlt_dec x y then true else false.

Definition trunc (x : R) : Z :=
  if Rle_dec 0%R x then Int_part x else - Int_part (- x)%R.
End Exact.

#[export] Instance real_Number : Number R := {|
  of_int := IZR;
  plus := Rplus;
  minus := Rminus;
  times := Rmult;
  negate := Ropp;
  absolute := Rabs;
  div := Exact.div;
  pow2 := fun x => Ok (x * x)%R;
  pow_half := sqrt;
  lt := Exact.lt;
  lit_0_8 := (8 / 10)%R;
  lit_0_1 := (1 / 10)%R;
  to_int := fun x => Ok (Exact.trunc x)
|}.

(** *** The coordinate a [Rect] stores, by release of pygame *)

(** The releases of pygame differ in the conversion [to_int].  Up to 2.1.3
    a coordinate is truncated toward zero, as in [float_Number] and
    [real_Number]; later releases round it half away from zero and refuse a
    value out of the range of a C [int].  [number conv] is the exact-real
    instance with the conversion [conv].  [regular conv] holds what the
    releases share between 0 and [INT_MAX]: a whole number is stored as it
    is, every value is stored, and the conversion is monotone. *)
Module Stored.
Definition INT_MAX : Z := 2147483647.
Definition INT_MIN : Z := -2147483648.

Definition truncating (x : R) : result Z := Ok (Exact.trunc x).

(** C's [round]: to the nearest whole number, a half away from zero. *)
Definition round_half_away (x : R) : Z :=
  if Rle_dec 0%R x then Int_part (x + 1 / 2)%R
  else - Int_part (- x + 1 / 2)%R.

Definition rounding (x : R) : result Z :=
  if Rle_dec (IZR INT_MIN) x then
    if Rle_dec x (IZR INT_MAX) then Ok (round_half_away x)
    else Raise TypeError
  else Raise TypeError.

Definition number (conv : R -> result Z) : Number R := {|
  of_int := IZR;
  plus := Rplus;
  minus := Rminus;
  times := Rmult;
  negate := Ropp;
  absolute := Rabs;
  div := Exact.div;
  pow2 := fun x => Ok (x * x)%R;
  pow_half := sqrt;
  lt := Exact.lt;
  lit_0_8 := (8 / 10)%R;
  lit_0_1 := (1 / 10)%R;
  to_int := conv
|}.

Definition regular (conv : R -> result Z) : Prop :=
  (forall z : Z, 0 <= z <= INT_MAX -> conv (IZR z) = Ok z)
  /\ (forall x : R, (0 <= x <= IZR INT_MAX)%R -> exists z : Z, conv x = Ok z)
  /\ (forall (x y : R) (a b : Z),
        (0 <= x <= y)%R -> conv x = Ok a -> conv y = Ok b -> a <= b).
End Stored.

(** ** pygame's [Rect] *)

(** A [Rect] holds four integers.  [get_rect] of a surface is the rectangle
    of its size at the origin; assigning [center] moves the rectangle so that
    [x + (w >> 1)] and [y + (h >> 1)] are the given point as [to_int] stores
    it; [colliderect] is the strict overlap test (for rectangles of
    positive size, which the images have). *)
Module Rect.
Record t : Set := mk { x : Z; y : Z; w : Z; h : Z }.

Definition left (r : t) : Z := x r.
Definition top (r : t) : Z := y r.
Definition right (r : t) : Z := x r + w r.
Definition bottom (r : t) : Z := y r + h r.
Definition width (r : t) : Z := w r.
Definition height (r : t) : Z := h r.

Definition of_size (size : Z * Z) : t :=
  {| x := 0; y := 0; w := fst size; h := snd size |}.

Definition set_center {T : Type} `{Number T} (r : t) (c : T * T) : result t :=
  (cx <- to_int (fst c) ;;
   cy <- to_int (snd c) ;;
   Ok {| x := cx - Z.shiftr (w r) 1; y := cy - Z.shiftr (h r) 1;
         w := w r; h := h r |})%py.

Definition colliderect (a b : t) : bool :=
  (left a <? right b) && (top a <? bottom b)
  && (left b <? right a) && (top b <? bottom a).
End Rect.

(** ** [class Bullet] *)

Module Bullet.
Record t (T : Type) : Type := mk {
  position : T * T;
  velocity : T * T;
  was_shot : bool
}.
Arguments mk {T}.
Arguments position {T}.
Arguments velocity {T}.
Arguments was_shot {T}.

Section Methods.
Context {T : Type} `{Number T}.
Local Open Scope py_scope.

(** [__init__]: the image is scaled to 20 x 20. *)
Definition init : t T :=
  {| position := (of_int (-100), of_int (-100));
     velocity := (of_int 0, of_int 0);
     was_shot := false |}.

Definition img : Z * Z := (20, 20)%Z.

Definition reset_bullet (self : t T) : t T :=
  {| position := (of_int (-100), of_int 100);
     velocity := (of_int 0, of_int 0);
     was_shot := false |}.

Definition update (self : t T) (delta_t : T) : t T :=
  if was_shot self then
    {| position := (fst (position self) + fst (velocity self) * delta_t,
                    snd (position self) + snd (velocity self) * delta_t);
       velocity := velocity self;
       was_shot := was_shot self |}
  else self.

Definition get_rect (self : t T) : result Rect.t :=
  Rect.set_center (Rect.of_size img) (position self).
End Methods.
End Bullet.

(** ** The action dictionary *)

(** The ten keys [Player.update] reads, as a record of flags; a dictionary
    that lacks a key [update] reads is outside the embedding. *)
Module Actions.
Record t : Set := mk {
  up : bool; down : bool; left : bool; right : bool; shoot : bool;
  ch_up : bool; ch_down : bool; ch_left : bool; ch_right : bool;
  ch_mouse : bool
}.

(** The dictionary of [no_action]: every key [False]. *)
Definition none : t :=
  mk false false false false false false false false false false.
End Actions.

(** ** [class Player] *)

Module Player.
(** The crosshair starts as the list [[200, 200]] and becomes the tuple
    [pygame.mouse.get_pos()] returns once [ch_mouse] is chosen; a tuple
    refuses item assignment. *)
Inductive Crosshair (T : Type) : Type :=
| AsList (c : T * T)
| AsTuple (c : T * T).
Arguments AsList {T}.
Arguments AsTuple {T}.

Definition coords {T : Type} (c : Crosshair T) : T * T :=
  match c with AsList v => v | AsTuple v => v end.

Record t (T : Type) : Type := mk {
  position : T * T;
  velocity : T * T;
  acceleration : T * T;
  crosshair : Crosshair T;
  img : Z * Z;
  bullet : Bullet.t T;
  score : Z
}.
Arguments mk {T}.
Arguments position {T}.
Arguments velocity {T}.
Arguments acceleration {T}.
Arguments crosshair {T}.
Arguments img {T}.
Arguments bullet {T}.
Arguments score {T}.

Definition MAX_SPEED : Z := 1500.
Definition SHOOTING_SPEED : Z := 3000.

Section Methods.
Context {T : Type} `{Number T}.
Local Open Scope py_scope.

Definition set_position (self : t T) (v : T * T) : t T :=
  mk v (velocity self) (acceleration self) (crosshair self) (img self)
     (bullet self) (score self).
Definition set_velocity (self : t T) (v : T * T) : t T :=
  mk (position self) v (acceleration self) (crosshair self) (img self)
     (bullet self) (score self).
Definition set_acceleration (self : t T) (v : T * T) : t T :=
  mk (position self) (velocity self) v (crosshair self) (img self)
     (bullet self) (score self).
Definition set_crosshair (self : t T) (c : Crosshair T) : t T :=
  mk (position self) (velocity self) (acceleration self) c (img self)
     (bullet self) (score self).
Definition set_bullet (self : t T) (b : Bullet.t T) : t T :=
  mk (position self) (velocity self) (acceleration self) (crosshair self)
     (img self) b (score self).
Definition set_score (self : t T) (s : Z) : t T :=
  mk (position self) (velocity self) (acceleration self) (crosshair self)
     (img self) (bullet self) s.

(** [__init__]: [size] is the size of the loaded image. *)
Definition init (position : option (T * T)) (size : Z * Z) : t T :=
  {| position := match position with
                 | Some p => p
                 | None => (of_int 0, of_int 0)
                 end;
     velocity := (of_int 0, of_int 0);
     acceleration := (of_int 0, of_int 0);
     crosshair := AsList (of_int 200, of_int 200);
     img := size;
     bullet := Bullet.init;
     score := 0 |}.

Definition get_rect (self : t T) : result Rect.t :=
  Rect.set_center (Rect.of_size (img self)) (position self).

(** *** [update], block by block *)

(** [# Update position (CA model)] *)
Definition update_position (self : t T) (delta_t : T) : result (t T) :=
  d0 <- pow2 delta_t ;;
  h0 <- div (fst (acceleration self) * d0) (of_int 2) ;;
  let x := fst (position self) + (fst (velocity self) * delta_t + h0) in
  d1 <- pow2 delta_t ;;
  h1 <- div (snd (acceleration self) * d1) (of_int 2) ;;
  let y := snd (position self) + (snd (velocity self) * delta_t + h1) in
  Ok (set_position self (x, y)).

(** [# Update velocity (CA model)] *)
Definition update_velocity (self : t T) (delta_t : T) : t T :=
  set_velocity self
    (fst (velocity self) + fst (acceleration self) * delta_t,
     snd (velocity self) + snd (acceleration self) * delta_t).

(** [# Update acceleration] *)
Definition update_acceleration (self : t T) (actions : Actions.t)
  : result (t T) :=
  let alpha := 20000%Z in
  let thrust :=
    ((int_of_bool (Actions.right actions)
      - int_of_bool (Actions.left actions))%Z,
     (int_of_bool (Actions.down actions)
      - int_of_bool (Actions.up actions))%Z) in
  let thrust_mag :=
    pow_half (of_int (fst thrust ^ 2 + snd thrust ^ 2)%Z) in
  if thrust_mag >? of_int 0 then
    a0 <- div (of_int (alpha * fst thrust)%Z) thrust_mag ;;
    a1 <- div (of_int (alpha * snd thrust)%Z) thrust_mag ;;
    Ok (set_acceleration self (a0, a1))
  else
    Ok (set_acceleration self (of_int 0, of_int 0)).

(** [speed = (velocity[0] ** 2 + velocity[1] ** 2) ** 0.5] *)
Definition magnitude (v : T * T) : result T :=
  s0 <- pow2 (fst v) ;;
  s1 <- pow2 (snd v) ;;
  Ok (pow_half (s0 + s1)).

(** [# Limit maximum speed], after [speed] is computed *)
Definition limit_speed (self : t T) (speed : T) : result (t T) :=
  if speed >? of_int MAX_SPEED then
    limiting_factor <- div (of_int MAX_SPEED) speed ;;
    Ok (set_velocity self
          (fst (velocity self) * limiting_factor,
           snd (velocity self) * limiting_factor))
  else Ok self.

(** [# Threshold the velocities to zero] *)
Definition threshold (self : t T) (speed : T) : t T :=
  if speed <? of_int 30 then set_velocity self (of_int 0, of_int 0)
  else self.

(** [# Add friction-like component] *)
Definition friction (self : t T) (speed : T) : result (t T) :=
  let k := 3000%Z in
  if speed >? lit_0_1 then
    u0 <- div (fst (velocity self)) speed ;;
    let a0 := fst (acceleration self) - u0 * of_int k in
    u1 <- div (snd (velocity self)) speed ;;
    let a1 := snd (acceleration self) - u1 * of_int k in
    Ok (set_acceleration self (a0, a1))
  else Ok self.

(** [# Update crosshair position]; [mouse] is what
    [pygame.mouse.get_pos()] returns. *)
Definition update_crosshair (self : t T) (actions : Actions.t)
  (mouse : T * T) : result (t T) :=
  if Actions.ch_mouse actions then
    Ok (set_crosshair self (AsTuple mouse))
  else
    let beta := 30%Z in
    match crosshair self with
    | AsList c =>
        let right_left := (int_of_bool (Actions.ch_right actions)
                           - int_of_bool (Actions.ch_left actions))%Z in
        let down_up := (int_of_bool (Actions.ch_down actions)
                        - int_of_bool (Actions.ch_up actions))%Z in
        let c0 := fst c + of_int (beta * right_left)%Z in
        let c1 := snd c + of_int (beta * down_up)%Z in
        Ok (set_crosshair self (AsList (c0, c1)))
    | AsTuple _ => Raise TypeError
    end.

(** [# Shoot, if player chose this action] *)
Definition shoot (self : t T) (actions : Actions.t) : result (t T) :=
  if Actions.shoot actions && negb (Bullet.was_shot (bullet self)) then
    let bullet_vel :=
      (fst (coords (crosshair self)) - fst (position self),
       snd (coords (crosshair self)) - snd (position self)) in
    bullet_speed <- magnitude bullet_vel ;;
    f0 <- div (of_int SHOOTING_SPEED) bullet_speed ;;
    let v0 := fst bullet_vel * f0 in
    f1 <- div (of_int SHOOTING_SPEED) bullet_speed ;;
    let v1 := snd bullet_vel * f1 in
    Ok (set_bullet self
          {| Bullet.position := position self;
             Bullet.velocity := (v0, v1);
             Bullet.was_shot := true |})
  else Ok self.

(** [update(self, actions, delta_t)]; [mouse] is the position pygame's
    mouse has during the call. *)
Definition update (self : t T) (actions : Actions.t) (delta_t : T)
  (mouse : T * T) : result (t T) :=
  self <- update_position self delta_t ;;
  let self := update_velocity self delta_t in
  self <- update_acceleration self actions ;;
  speed <- magnitude (velocity self) ;;
  self <- limit_speed self speed ;;
  let self := threshold self speed in
  self <- friction self speed ;;
  self <- update_crosshair self actions mouse ;;
  self <- shoot self actions ;;
  Ok (set_bullet self (Bullet.update (bullet self) delta_t)).
End Methods.
End Player.

(** ** Python lists *)

(** [l[i]], with negative indices counted from the end. *)
Definition py_index {A : Type} (l : list A) (i : Z) : result A :=
  let n := Z.of_nat (length l) in
  let j := if i <? 0 then i + n else i in
  if (j <? 0) || (n <=? j) then Raise IndexError
  else match nth_error l (Z.to_nat j) with
       | Some a => Ok a
       | None => Raise IndexError
       end.

(** The list after the object at index [i] went through an in-place
    update to [v]. *)
Fixpoint list_set {A : Type} (l : list A) (i : nat) (v : A) : list A :=
  match l, i with
  | [], _ => []
  | _ :: rest, O => v :: rest
  | a :: rest, S i' => a :: list_set rest i' v
  end.

(** ** [class Game] *)

Module Game.
Record t (T : Type) : Type := mk {
  screen_width : Z;
  screen_height : Z;
  players : list (Player.t T)
}.
Arguments mk {T}.
Arguments screen_width {T}.
Arguments screen_height {T}.
Arguments players {T}.

Section Methods.
Context {T : Type} `{Number T} `{Infinity T}.

(** The size of the image in [player.bmp]. *)
Variable player_bmp : Z * Z.

(** [decide_action i] is the [decide_action] function of the player at index
    [i]; [mouse] is what [pygame.mouse.get_pos()] returns during the tick. *)
Variable decide_action : nat -> t T -> Actions.t.
Variable mouse : T * T.

Local Open Scope py_scope.

Definition store (self : t T) (i : nat) (player : Player.t T) : t T :=
  mk (screen_width self) (screen_height self)
     (list_set (players self) i player).

Definition init (screen_sz : option (Z * Z)) : t T :=
  let screen_sz := match screen_sz with
                   | Some sz => sz
                   | None => (1600, 800)%Z
                   end in
  {| screen_width := fst screen_sz;
     screen_height := snd screen_sz;
     players := [] |}.

Definition add_player (self : t T) (position : option (T * T)) : t T :=
  if (length (players self) <? 2)%nat then
    mk (screen_width self) (screen_height self)
       (players self ++ [Player.init position player_bmp])
  else self.

(** [player.crosshair[0] = v] and [player.crosshair[1] = v] *)
Definition crosshair_setitem (c : Player.Crosshair T) (i : bool) (v : T)
  : result (Player.Crosshair T) :=
  match c with
  | Player.AsList (c0, c1) =>
      Ok (Player.AsList (if i then (c0, v) else (v, c1)))
  | Player.AsTuple _ => Raise TypeError
  end.

(** [# Limit crosshair position] *)
Definition limit_crosshair (self : t T) (player : Player.t T)
  : result (Player.t T) :=
  let c := Player.crosshair player in
  c <- (if fst (Player.coords c) <? of_int 0
        then crosshair_setitem c false (of_int 0) else Ok c) ;;
  c <- (if fst (Player.coords c) >? of_int (screen_width self)
        then crosshair_setitem c false (of_int (screen_width self))
        else Ok c) ;;
  c <- (if snd (Player.coords c) <? of_int 0
        then crosshair_setitem c true (of_int 0) else Ok c) ;;
  c <- (if snd (Player.coords c) >? of_int (screen_height self)
        then crosshair_setitem c true (of_int (screen_height self))
        else Ok c) ;;
  Ok (Player.set_crosshair player c).

(** The two assignments of one wall: the position component is set to
    [center] and the velocity component is inverted and damped. *)
Definition bounce (player : Player.t T) (vertical : bool) (center : T)
  : Player.t T :=
  let p := Player.position player in
  let v := Player.velocity player in
  if vertical then
    Player.set_velocity (Player.set_position player (fst p, center))
                        (fst v, - snd v * lit_0_8)
  else
    Player.set_velocity (Player.set_position player (center, snd p))
                        (- fst v * lit_0_8, snd v).

(** [# Check collisions with walls] *)
Definition wall_collisions (self : t T) (player : Player.t T)
  : result (Player.t T) :=
  r <- Player.get_rect player ;;
  player <- (if (Rect.left r <? 0)%Z then
               c <- div (of_int (Rect.width r)) (of_int 2) ;;
               Ok (bounce player false c)
             else Ok player) ;;
  player <- (if (Rect.top r <? 0)%Z then
               c <- div (of_int (Rect.height r)) (of_int 2) ;;
               Ok (bounce player true c)
             else Ok player) ;;
  player <- (if (Rect.right r >? screen_width self)%Z then
               c <- div (of_int (Rect.width r)) (of_int 2) ;;
               Ok (bounce player false (of_int (screen_width self) - c))
             else Ok player) ;;
  player <- (if (Rect.bottom r >? screen_height self)%Z then
               c <- div (of_int (Rect.height r)) (of_int 2) ;;
               Ok (bounce player true (of_int (screen_height self) - c))
             else Ok player) ;;
  Ok player.

(** The test of [# Check bullet collision with walls] *)
Definition outside (self : t T) (r : Rect.t) : bool :=
  (Rect.right r <? 0)%Z || (Rect.bottom r <? 0)%Z
  || (Rect.left r >? screen_width self)%Z
  || (Rect.top r >? screen_height self)%Z.

(** [# Check bullet collision with walls] and
    [# Check bullet collision with the other player], for the player at
    index [i], whose current state is [player]. *)
Definition bullet_collisions (self : t T) (i : nat) (player : Player.t T)
  : result (Player.t T) :=
  r <- Bullet.get_rect (Player.bullet player) ;;
  let player :=
    if outside self r
    then Player.set_bullet player (Bullet.reset_bullet (Player.bullet player))
    else player in
  other <- py_index (players self) (1 - Z.of_nat i)%Z ;;
  r_other <- Player.get_rect other ;;
  if Rect.colliderect r r_other then
    let player := Player.set_score player (Player.score player + 1)%Z in
    Ok (Player.set_bullet player (Bullet.reset_bullet (Player.bullet player)))
  else Ok player.

(** The body of [for i, player in enumerate(self.players)].  The player is
    an object of the list: what the body does to it is seen through the
    list at once. *)
Definition step_player (self : t T) (delta_t : T) (i : nat) : result (t T) :=
  player <- py_index (players self) (Z.of_nat i) ;;
  let actions := decide_action i self in
  player <- Player.update player actions delta_t mouse ;;
  player <- limit_crosshair self player ;;
  player <- wall_collisions self player ;;
  let self := store self i player in
  player <- bullet_collisions self i player ;;
  Ok (store self i player).

Fixpoint for_players (self : t T) (delta_t : T) (indices : list nat)
  : result (t T) :=
  match indices with
  | [] => Ok self
  | i :: rest =>
      self <- step_player self delta_t i ;;
      for_players self delta_t rest
  end.

(** The three-way test of [# The collision likely happened in the direction
    with the smallest delta_t]: the pair [(is_collision_x, is_collision_y)]. *)
Definition collision_axes (delta_tx delta_ty : T) : bool * bool :=
  if delta_tx <? delta_ty then (true, false)
  else if delta_ty <? delta_tx then (false, true)
  else (true, true).

(** [delta / v if v > 0 else float('inf')] *)
Definition time_since_contact (delta v : T) : result T :=
  if v >? of_int 0 then div delta v else Ok inf.

(** [(player1.velocity[i], player2.velocity[i]) =
     (player2.velocity[i], player1.velocity[i])] *)
Definition switch_velocities (i : bool) (player1 player2 : Player.t T)
  : Player.t T * Player.t T :=
  let v1 := Player.velocity player1 in
  let v2 := Player.velocity player2 in
  if i then
    (Player.set_velocity player1 (fst v1, snd v2),
     Player.set_velocity player2 (fst v2, snd v1))
  else
    (Player.set_velocity player1 (fst v2, snd v1),
     Player.set_velocity player2 (fst v1, snd v2)).

(** [# Change players' positions to where they were right before impact] *)
Definition roll_back (player : Player.t T) (delta_t : T) : Player.t T :=
  Player.set_position player
    (fst (Player.position player) - fst (Player.velocity player) * delta_t,
     snd (Player.position player) - snd (Player.velocity player) * delta_t).

(** [# Use the players' position to determine the length of the
    intersection] and [# Use the players' velocities to determine how long
    ago would a collision have happened]: the pair [(delta_tx, delta_ty)],
    [l] being the side of the first player's rectangle. *)
Definition collision_times (l : Z) (player1 player2 : Player.t T)
  : result (T * T) :=
  let delta_x :=
    of_int l - absolute (fst (Player.position player1)
                         - fst (Player.position player2)) in
  let delta_y :=
    of_int l - absolute (snd (Player.position player1)
                         - snd (Player.position player2)) in
  let v_x := absolute (fst (Player.velocity player1)
                       - fst (Player.velocity player2)) in
  let v_y := absolute (snd (Player.velocity player1)
                       - snd (Player.velocity player2)) in
  delta_tx <- time_since_contact delta_x v_x ;;
  delta_ty <- time_since_contact delta_y v_y ;;
  Ok (delta_tx, delta_ty).

Definition parse_player_collision (player1 player2 : Player.t T)
  : result (Player.t T * Player.t T) :=
  r1 <- Player.get_rect player1 ;;
  r2 <- Player.get_rect player2 ;;
  r <- Player.get_rect player1 ;;
  let l := Rect.width r in
  if Rect.colliderect r1 r2 then
    '(delta_tx, delta_ty) <- collision_times l player1 player2 ;;
    let collision := collision_axes delta_tx delta_ty in
    let delta_t := py_min delta_tx delta_ty in
    let player1 := roll_back player1 delta_t in
    let player2 := roll_back player2 delta_t in
    let '(player1, player2) :=
      if fst collision then switch_velocities false player1 player2
      else (player1, player2) in
    let '(player1, player2) :=
      if snd collision then switch_velocities true player1 player2
      else (player1, player2) in
    Ok (player1, player2)
  else Ok (player1, player2).

Definition update_physics (self : t T) : result (t T) :=
  delta_t <- div (of_int 1) (of_int 60) ;;
  self <- for_players self delta_t (seq 0 (length (players self))) ;;
  if (length (players self) =? 2)%nat then
    player1 <- py_index (players self) 0 ;;
    player2 <- py_index (players self) 1 ;;
    '(player1, player2) <- parse_player_collision player1 player2 ;;
    Ok (store (store self 0 player1) 1 player2)
  else Ok self.
End Methods.
End Game.

(** ** Reachable game states *)

(** The states a program can bring a [Game] into: [Game(screen_sz)], then
    [add_player] and [update_physics] in any order ([handle_events] and
    [draw_frame] do not touch [players]). *)
Inductive reachable {T : Type} `{Number T} `{Infinity T} (player_bmp : Z * Z)
  : Game.t T -> Prop :=
| reach_init (screen_sz : option (Z * Z)) :
    reachable player_bmp (Game.init screen_sz)
| reach_add_player (g : Game.t T) (position : option (T * T)) :
    reachable player_bmp g ->
    reachable player_bmp (Game.add_player player_bmp g position)
| reach_update_physics (g g' : Game.t T)
    (decide_action : nat -> Game.t T -> Actions.t) (mouse : T * T) :
    reachable player_bmp g ->
    Game.update_physics decide_action mouse g = Ok g' ->
    reachable player_bmp g'.

(** ** Sample states *)

(** States over binary64, and at the end over the exact reals, on which
    the properties below are run. *)
Module Sample.
Definition num : Type := PrimFloat.float.

Definition vec (x y : Z) : num * num := (of_int x, of_int y).

(** [delta_t = 1/60] *)
Definition delta_t : num := PrimFloat.div (of_int 1) (of_int 60).

(** A player with a 50 x 50 image, an unfired bullet and no score. *)
Definition player (position velocity acceleration crosshair : num * num)
  : Player.t num :=
  Player.mk position velocity acceleration (Player.AsList crosshair)
            (50, 50) Bullet.init 0.

Definition pressing (right shoot ch_mouse : bool) : Actions.t :=
  Actions.mk false false false right shoot false false false false ch_mouse.

(** The game of the script: 1600 x 800, players added at [[100, 100]] and
    at [[screen_width, screen_height]]. *)
Definition script_game : Game.t num :=
  let g := Game.init None in
  let g := Game.add_player (50, 50) g (Some (vec 100 100)) in
  Game.add_player (50, 50) g
    (Some (vec (Game.screen_width g) (Game.screen_height g))).

Definition idle (i : nat) (g : Game.t num) : Actions.t := Actions.none.

(** [n] calls of [update] under the same actions, a tick apart. *)
Fixpoint hold (n : nat) (actions : Actions.t) (player : Player.t num)
  : result (Player.t num) :=
  match n with
  | O => Ok player
  | S n' =>
      bind (hold n' actions player)
           (fun q => Player.update q actions delta_t (vec 0 0))
  end.

(** The same over the exact reals. *)
Definition exact_vec (x y : Z) : R * R := (IZR x, IZR y).

Definition exact_player (position velocity acceleration crosshair : R * R)
  : Player.t R :=
  Player.mk position velocity acceleration (Player.AsList crosshair)
            (50, 50) Bullet.init 0.
End Sample.

(** ** Events and [key_pressed] *)

Module Events.
(** The keys of pygame the program names; [K_other] is any other key. *)
Inductive pygame_key : Set :=
| K_LEFT | K_RIGHT | K_DOWN | K_UP | K_w | K_a | K_s | K_d | K_SPACE
| K_other (code : Z).

(** The keys of the dictionary [key_pressed]: a key of pygame or the string
    ['mouse_click']. *)
Inductive name : Set :=
| Key (k : pygame_key)
| mouse_click.

Definition pygame_key_eq_dec (a b : pygame_key) : {a = b} + {a <> b}.
Proof. decide equality. apply Z.eq_dec. Defined.

Definition name_eq_dec (a b : name) : {a = b} + {a <> b}.
Proof. decide equality. apply pygame_key_eq_dec. Defined.

(** A dictionary from names to booleans, in insertion order. *)
Definition dict : Set := list (name * bool).

(** [d[k]]; [None] is [KeyError]. *)
Fixpoint get (d : dict) (k : name) : option bool :=
  match d with
  | [] => None
  | (k', v) :: rest => if name_eq_dec k k' then Some v else get rest k
  end.

(** [k in d] *)
Definition mem (d : dict) (k : name) : bool :=
  match get d k with Some _ => true | None => false end.

(** [d[k] = v] *)
Fixpoint set (d : dict) (k : name) (v : bool) : dict :=
  match d with
  | [] => [(k, v)]
  | (k', v') :: rest =>
      if name_eq_dec k k' then (k, v) :: rest else (k', v') :: set rest k v
  end.

(** [list(d)]: the keys, in insertion order. *)
Definition keys (d : dict) : list name := map fst d.

(** The dictionary [Game.__init__] builds. *)
Definition init : dict :=
  fold_left (fun d k => set d k false)
    [Key K_LEFT; Key K_RIGHT; Key K_DOWN; Key K_UP; Key K_w; Key K_a;
     Key K_s; Key K_d; Key K_SPACE; mouse_click]
    [].

(** What [pygame.event.get()] yields, by [event.type]. *)
Inductive event : Set :=
| QUIT
| KEYDOWN (key : pygame_key)
| KEYUP (key : pygame_key)
| MOUSEBUTTONDOWN (button : Z)
| MOUSEBUTTONUP (button : Z)
| OTHER.

(** [sys.exit()] ends the program. *)
Inductive handled : Set :=
| Continue (key_pressed : dict)
| SystemExit.

(** The body of [for event in pygame.event.get()]. *)
Definition handle_event (key_pressed : dict) (e : event) : handled :=
  match e with
  | QUIT => SystemExit
  | KEYDOWN key =>
      Continue (if mem key_pressed (Key key)
                then set key_pressed (Key key) true else key_pressed)
  | KEYUP key =>
      Continue (if mem key_pressed (Key key)
                then set key_pressed (Key key) false else key_pressed)
  | MOUSEBUTTONDOWN button =>
      Continue (if (button =? 1)%Z
                then set key_pressed mouse_click true else key_pressed)
  | MOUSEBUTTONUP button =>
      Continue (if (button =? 1)%Z
                then set key_pressed mouse_click false else key_pressed)
  | OTHER => Continue key_pressed
  end.

Fixpoint handle_events (key_pressed : dict) (events : list event) : handled :=
  match events with
  | [] => Continue key_pressed
  | e :: rest =>
      match handle_event key_pressed e with
      | Continue key_pressed' => handle_events key_pressed' rest
      | SystemExit => SystemExit
      end
  end.
End Events.

(** ** The bindings *)

(** The functions the three [create_*_binding] return.  The state a
    function keeps in its attribute [old_actions] goes in and out as an
    argument ([None]: no attribute yet); [rand k] is what the [k]-th call of
    [np.random.rand()] in the call returns. *)
Module Binding.
(** [game_instance.key_pressed] is passed by itself.  The dictionary
    returned has no [ch_up], [ch_down], [ch_left], [ch_right]: with
    [ch_mouse] set [update] does not read them, and the record holds [false]
    there.  [None] is [KeyError]. *)
Definition create_human_player_binding (key_pressed : Events.dict)
  : option Actions.t :=
  match Events.get key_pressed (Events.Key Events.K_UP) with
  | None => None
  | Some up =>
  match Events.get key_pressed (Events.Key Events.K_DOWN) with
  | None => None
  | Some down =>
  match Events.get key_pressed (Events.Key Events.K_LEFT) with
  | None => None
  | Some go_left =>
  match Events.get key_pressed (Events.Key Events.K_RIGHT) with
  | None => None
  | Some go_right =>
  match Events.get key_pressed Events.mouse_click with
  | None => None
  | Some shoot =>
      Some (Actions.mk up down go_left go_right shoot
                       false false false false true)
  end end end end end.

Section Random.
Context {T : Type} `{Number T}.
Local Open Scope py_scope.

(** [not old if r < prob_action else old] *)
Definition flip (prob_action r : T) (old : bool) : bool :=
  if r <? prob_action then negb old else old.

Definition old_or_false (old_actions : option Actions.t) : Actions.t :=
  match old_actions with
  | Some old => old
  | None => Actions.none
  end.

(** The actions and the new [old_actions]. *)
Definition create_random_player_binding (prob_action : T)
  (old_actions : option Actions.t) (rand : nat -> T)
  : Actions.t * option Actions.t :=
  let old := old_or_false old_actions in
  let actions :=
    Actions.mk (flip prob_action (rand 0%nat) (Actions.up old))
               (flip prob_action (rand 1%nat) (Actions.down old))
               (flip prob_action (rand 2%nat) (Actions.left old))
               (flip prob_action (rand 3%nat) (Actions.right old))
               (flip prob_action (rand 4%nat) (Actions.shoot old))
               (flip prob_action (rand 5%nat) (Actions.ch_up old))
               (flip prob_action (rand 6%nat) (Actions.ch_down old))
               (flip prob_action (rand 7%nat) (Actions.ch_left old))
               (flip prob_action (rand 8%nat) (Actions.ch_right old))
               false in
  (actions, Some actions).

Definition create_simple_ai_binding (prob_action : T)
  (old_actions : option Actions.t) (rand : nat -> T)
  (game_instance : Game.t T) : result (Actions.t * option Actions.t) :=
  let old := old_or_false old_actions in
  let up := flip prob_action (rand 0%nat) (Actions.up old) in
  let down := flip prob_action (rand 1%nat) (Actions.down old) in
  let go_left := flip prob_action (rand 2%nat) (Actions.left old) in
  let go_right := flip prob_action (rand 3%nat) (Actions.right old) in
  let shoot := flip prob_action (rand 4%nat) (Actions.shoot old) in
  opponent <- py_index (Game.players game_instance) 0 ;;
  me <- py_index (Game.players game_instance) 1 ;;
  let position := Player.position opponent in
  let crosshair := Player.coords (Player.crosshair me) in
  let ch_left := fst position <? fst crosshair in
  let ch_right := fst position >? fst crosshair in
  let ch_up := snd position <? snd crosshair in
  let ch_down := snd position >? snd crosshair in
  let actions :=
    Actions.mk up down go_left go_right shoot
               ch_up ch_down ch_left ch_right false in
  Ok (actions, Some actions).
End Random.
End Binding.

(** ** Drawing and the loop of the script *)

Module Script.
Definition max_score : Z := 10.

Section Loop.
Context {T : Type} `{Number T} `{Infinity T}.
Local Open Scope py_scope.

(** [Player.draw]: the rectangles of the player, of its 70 x 70 crosshair
    and of its bullet are computed and blitted. *)
Definition draw (player : Player.t T) : result unit :=
  _ <- Player.get_rect player ;;
  _ <- Rect.set_center (Rect.of_size (70, 70))
         (Player.coords (Player.crosshair player)) ;;
  _ <- Bullet.get_rect (Player.bullet player) ;;
  Ok tt.

Fixpoint draw_all (players : list (Player.t T)) : result unit :=
  match players with
  | [] => Ok tt
  | player :: rest => _ <- draw player ;; draw_all rest
  end.

(** [Game.draw_frame]: it reads the scores of [players[0]] and
    [players[1]]. *)
Definition draw_frame (self : Game.t T) : result unit :=
  _ <- draw_all (Game.players self) ;;
  _ <- py_index (Game.players self) 0 ;;
  _ <- py_index (Game.players self) 1 ;;
  Ok tt.

(** What one turn of the loop takes from outside: the event queue, the
    actions the bindings decide (from [key_pressed] and the game), the
    mouse. *)
Record turn : Type := {
  events : list Events.event;
  decide_action : Events.dict -> nat -> Game.t T -> Actions.t;
  mouse : T * T
}.

(** How the loop stands when the turns given are used up: the game is
    over, the program has exited on [QUIT], or the loop is still running. *)
Inductive ending : Type :=
| GameOver (key_pressed : Events.dict) (game : Game.t T)
| Exited (game : Game.t T)
| Running (key_pressed : Events.dict) (game : Game.t T).

(** [while (players[0].score < max_score) and (players[1].score < max_score)] *)
Fixpoint main_loop (turns : list turn) (key_pressed : Events.dict)
  (game : Game.t T) : result ending :=
  player0 <- py_index (Game.players game) 0 ;;
  if (Player.score player0 <? max_score)%Z then
    player1 <- py_index (Game.players game) 1 ;;
    if (Player.score player1 <? max_score)%Z then
      match turns with
      | [] => Ok (Running key_pressed game)
      | t :: rest =>
          match Events.handle_events key_pressed (events t) with
          | Events.SystemExit => Ok (Exited game)
          | Events.Continue key_pressed =>
              game <- Game.update_physics (decide_action t key_pressed)
                        (mouse t) game ;;
              _ <- draw_frame game ;;
              main_loop rest key_pressed game
          end
      end
    else Ok (GameOver key_pressed game)
  else Ok (GameOver key_pressed game).
(** The game an ending holds. *)
Definition final (e : ending) : Game.t T :=
  match e with
  | GameOver _ game => game
  | Exited game => game
  | Running _ game => game
  end.
End Loop.
End Script.

(** ** Invariants *)

(** A bullet that is not shot is where [__init__] or [reset_bullet] put
    it. *)
Definition parked_unless_shot {T : Type} `{Number T} (player : Player.t T)
  : Prop :=
  Bullet.was_shot (Player.bullet player) = false ->
  Player.bullet player = Bullet.init
  \/ Player.bullet player = Bullet.reset_bullet (Player.bullet player).

(** * Properties *)

(** ** The error monad *)

Lemma bind_Ok {A B : Type} (c : result A) (k : A -> result B) (b : B) :
  bind c k = Ok b -> exists a, c = Ok a /\ k a = Ok b.
Proof.
  destruct c as [a | e]; simpl; intros E.
  - exists a. split; [reflexivity | exact E].
  - discriminate E.
Qed.

Lemma Ok_inj {A : Type} (a b : A) : Ok a = Ok b -> a = b.
Proof. intros E. injection E. trivial. Qed.

Ltac bind_inv E :=
  let a := fresh "q" in
  let Ea := fresh "E" a in
  apply bind_Ok in E; destruct E as (a & Ea & E).

Ltac ok_inv E := apply Ok_inj in E; subst.

(** ** [Player.update] *)

Section PlayerUpdate.
Context {T : Type} `{Number T}.
Local Open Scope py_scope.

(** [update] returns exactly when its blocks all do, and then the blocks
    are chained in the order of the source. *)
Lemma update_blocks (self self' : Player.t T) (actions : Actions.t)
  (delta_t : T) (mouse : T * T) :
  Player.update self actions delta_t mouse = Ok self' ->
  exists moved thrusted speed limited slowed aimed fired,
    Player.update_position self delta_t = Ok moved
    /\ Player.update_acceleration (Player.update_velocity moved delta_t) actions
       = Ok thrusted
    /\ Player.magnitude (Player.velocity thrusted) = Ok speed
    /\ Player.limit_speed thrusted speed = Ok limited
    /\ Player.friction (Player.threshold limited speed) speed = Ok slowed
    /\ Player.update_crosshair slowed actions mouse = Ok aimed
    /\ Player.shoot aimed actions = Ok fired
    /\ self' = Player.set_bullet fired
                 (Bullet.update (Player.bullet fired) delta_t).
Proof.
  unfold Player.update. intros E.
  bind_inv E. bind_inv E. bind_inv E. bind_inv E. bind_inv E. bind_inv E.
  bind_inv E. ok_inv E.
  repeat eexists; eassumption.
Qed.

Lemma update_position_spec (self moved : Player.t T) (delta_t : T) :
  Player.update_position self delta_t = Ok moved ->
  exists d h0 h1,
    pow2 delta_t = Ok d
    /\ div (fst (Player.acceleration self) * d) (of_int 2) = Ok h0
    /\ div (snd (Player.acceleration self) * d) (of_int 2) = Ok h1
    /\ moved = Player.set_position self
         (fst (Player.position self) + (fst (Player.velocity self) * delta_t + h0),
          snd (Player.position self) + (snd (Player.velocity self) * delta_t + h1)).
Proof.
  unfold Player.update_position. intros E.
  bind_inv E. bind_inv E. bind_inv E. bind_inv E. ok_inv E.
  rewrite Eq in Eq1. ok_inv Eq1.
  repeat eexists; eassumption.
Qed.

(** The acceleration [update_acceleration] leaves is a function of the
    actions alone. *)
Lemma update_acceleration_replaces (self thrusted : Player.t T)
  (actions : Actions.t) :
  Player.update_acceleration self actions = Ok thrusted ->
  forall other : Player.t T,
    Player.update_acceleration other actions
    = Ok (Player.set_acceleration other (Player.acceleration thrusted)).
Proof.
  unfold Player.update_acceleration. intros E other.
  destruct (lt (of_int 0) _).
  - bind_inv E. bind_inv E. ok_inv E. rewrite Eq, Eq0. reflexivity.
  - ok_inv E. reflexivity.
Qed.

Lemma update_acceleration_keeps (self thrusted : Player.t T)
  (actions : Actions.t) :
  Player.update_acceleration self actions = Ok thrusted ->
  Player.position thrusted = Player.position self
  /\ Player.velocity thrusted = Player.velocity self.
Proof.
  unfold Player.update_acceleration. intros E.
  destruct (lt (of_int 0) _).
  - bind_inv E. bind_inv E. ok_inv E. split; reflexivity.
  - ok_inv E. split; reflexivity.
Qed.

Lemma limit_speed_keeps (self limited : Player.t T) (speed : T) :
  Player.limit_speed self speed = Ok limited ->
  Player.position limited = Player.position self
  /\ Player.acceleration limited = Player.acceleration self.
Proof.
  unfold Player.limit_speed. intros E.
  destruct (lt (of_int Player.MAX_SPEED) speed).
  - bind_inv E. ok_inv E. split; reflexivity.
  - ok_inv E. split; reflexivity.
Qed.

Lemma threshold_keeps (self : Player.t T) (speed : T) :
  Player.position (Player.threshold self speed) = Player.position self
  /\ Player.acceleration (Player.threshold self speed)
     = Player.acceleration self.
Proof.
  unfold Player.threshold. destruct (lt speed (of_int 30)); split; reflexivity.
Qed.

Lemma friction_keeps (self slowed : Player.t T) (speed : T) :
  Player.friction self speed = Ok slowed ->
  Player.position slowed = Player.position self
  /\ Player.velocity slowed = Player.velocity self.
Proof.
  unfold Player.friction. intros E.
  destruct (lt lit_0_1 speed).
  - bind_inv E. bind_inv E. ok_inv E. split; reflexivity.
  - ok_inv E. split; reflexivity.
Qed.

Lemma update_crosshair_keeps (self aimed : Player.t T) (actions : Actions.t)
  (mouse : T * T) :
  Player.update_crosshair self actions mouse = Ok aimed ->
  Player.position aimed = Player.position self
  /\ Player.velocity aimed = Player.velocity self
  /\ Player.acceleration aimed = Player.acceleration self.
Proof.
  unfold Player.update_crosshair. intros E.
  destruct (Actions.ch_mouse actions).
  - ok_inv E. repeat split.
  - destruct (Player.crosshair self); [ok_inv E; repeat split | discriminate E].
Qed.

Lemma shoot_keeps (self fired : Player.t T) (actions : Actions.t) :
  Player.shoot self actions = Ok fired ->
  Player.position fired = Player.position self
  /\ Player.velocity fired = Player.velocity self
  /\ Player.acceleration fired = Player.acceleration self.
Proof.
  unfold Player.shoot. intros E.
  destruct (Actions.shoot actions && _).
  - bind_inv E. bind_inv E. bind_inv E. ok_inv E. repeat split.
  - ok_inv E. repeat split.
Qed.
End PlayerUpdate.

Section Kinematics.
Context {T : Type} `{Number T}.
Local Open Scope py_scope.

Lemma limit_speed_velocity (a b la lb : Player.t T) (speed : T) :
  Player.velocity a = Player.velocity b ->
  Player.limit_speed a speed = Ok la ->
  Player.limit_speed b speed = Ok lb ->
  Player.velocity la = Player.velocity lb.
Proof.
  unfold Player.limit_speed. intros V Ea Eb.
  destruct (lt (of_int Player.MAX_SPEED) speed).
  - bind_inv Ea. bind_inv Eb. ok_inv Ea. ok_inv Eb.
    rewrite Eq in Eq0. ok_inv Eq0. simpl. rewrite V. reflexivity.
  - ok_inv Ea. ok_inv Eb. exact V.
Qed.

Lemma threshold_velocity (a b : Player.t T) (speed : T) :
  Player.velocity a = Player.velocity b ->
  Player.velocity (Player.threshold a speed)
  = Player.velocity (Player.threshold b speed).
Proof.
  unfold Player.threshold. intros V.
  destruct (lt speed (of_int 30)); [reflexivity | exact V].
Qed.

(** What [update] leaves in [position] and [velocity], read off the
    blocks. *)
Lemma update_motion (self self' : Player.t T) (actions : Actions.t)
  (delta_t : T) (mouse : T * T) :
  Player.update self actions delta_t mouse = Ok self' ->
  exists moved thrusted speed limited slowed,
    Player.update_position self delta_t = Ok moved
    /\ Player.update_acceleration (Player.update_velocity moved delta_t) actions
       = Ok thrusted
    /\ Player.magnitude (Player.velocity thrusted) = Ok speed
    /\ Player.limit_speed thrusted speed = Ok limited
    /\ Player.friction (Player.threshold limited speed) speed = Ok slowed
    /\ Player.position self' = Player.position moved
    /\ Player.velocity self' = Player.velocity (Player.threshold limited speed)
    /\ Player.acceleration self' = Player.acceleration slowed.
Proof.
  intros E.
  destruct (update_blocks _ _ _ _ _ E)
    as (moved & thrusted & speed & limited & slowed & aimed & fired
        & Em & Et & Es & El & Ef & Ea & Eb & ->).
  exists moved, thrusted, speed, limited, slowed.
  destruct (update_acceleration_keeps _ _ _ Et) as [Pt _].
  destruct (limit_speed_keeps _ _ _ El) as [Pl _].
  destruct (threshold_keeps limited speed) as [Ph _].
  destruct (friction_keeps _ _ _ Ef) as [Pf Vf].
  destruct (update_crosshair_keeps _ _ _ _ Ea) as (Pa & Va & Aa).
  destruct (shoot_keeps _ _ _ Eb) as (Pb & Vb & Ab).
  repeat split; try assumption; simpl.
  - rewrite Pb, Pa, Pf, Ph, Pl, Pt. reflexivity.
  - rewrite Vb, Va, Vf. reflexivity.
  - rewrite Ab, Aa. reflexivity.
Qed.

(** C7: [update] integrates the position and the velocity with the
    acceleration the player held before the call: the new position is
    [pos + (vel*dt + acc*dt**2/2)], the velocity that enters the speed limit
    is [vel + acc*dt]; neither depends on the actions of this tick, whose
    thrust only goes into the acceleration [update] leaves behind, an
    acceleration [update_acceleration] computes from the actions alone
    before friction is subtracted. *)
Theorem update_integrates_previous_acceleration
  (self self' : Player.t T) (actions : Actions.t) (delta_t : T)
  (mouse : T * T) :
  Player.update self actions delta_t mouse = Ok self' ->
  let integrated :=
    (fst (Player.velocity self) + fst (Player.acceleration self) * delta_t,
     snd (Player.velocity self) + snd (Player.acceleration self) * delta_t) in
  exists d h0 h1 thrusted speed limited slowed,
    pow2 delta_t = Ok d
    /\ div (fst (Player.acceleration self) * d) (of_int 2) = Ok h0
    /\ div (snd (Player.acceleration self) * d) (of_int 2) = Ok h1
    /\ Player.position self'
       = (fst (Player.position self) + (fst (Player.velocity self) * delta_t + h0),
          snd (Player.position self) + (snd (Player.velocity self) * delta_t + h1))
    /\ Player.velocity thrusted = integrated
    /\ (forall other : Player.t T,
          Player.update_acceleration other actions
          = Ok (Player.set_acceleration other (Player.acceleration thrusted)))
    /\ Player.magnitude integrated = Ok speed
    /\ Player.limit_speed thrusted speed = Ok limited
    /\ Player.velocity self' = Player.velocity (Player.threshold limited speed)
    /\ Player.friction (Player.threshold limited speed) speed = Ok slowed
    /\ Player.acceleration self' = Player.acceleration slowed
    /\ (forall (actions' : Actions.t) (mouse' : T * T) (other' : Player.t T),
          Player.update self actions' delta_t mouse' = Ok other' ->
          Player.position other' = Player.position self'
          /\ Player.velocity other' = Player.velocity self').
Proof.
  intros E integrated.
  destruct (update_motion _ _ _ _ _ E)
    as (moved & thrusted & speed & limited & slowed
        & Em & Et & Es & El & Ef & Pos & Vel & Acc).
  destruct (update_position_spec _ _ _ Em) as (d & h0 & h1 & Ed & E0 & E1 & Mv).
  destruct (update_acceleration_keeps _ _ _ Et) as [_ Vt].
  assert (Vi : Player.velocity thrusted = integrated).
  { rewrite Vt, Mv. reflexivity. }
  exists d, h0, h1, thrusted, speed, limited, slowed.
  repeat match goal with |- _ /\ _ => split end; try assumption.
  - rewrite Pos, Mv. reflexivity.
  - exact (update_acceleration_replaces _ _ _ Et).
  - rewrite <- Vi. exact Es.
  - intros actions' mouse' other' E'.
    destruct (update_motion _ _ _ _ _ E')
      as (moved' & thrusted' & speed' & limited' & slowed'
          & Em' & Et' & Es' & El' & _ & Pos' & Vel' & _).
    rewrite Em in Em'. ok_inv Em'.
    destruct (update_acceleration_keeps _ _ _ Et') as [_ Vt'].
    assert (Vtt : Player.velocity thrusted' = Player.velocity thrusted).
    { rewrite Vt', Vt. reflexivity. }
    rewrite Vtt, Es in Es'. ok_inv Es'.
    split.
    + rewrite Pos', Pos. reflexivity.
    + rewrite Vel', Vel. apply threshold_velocity.
      exact (limit_speed_velocity _ _ _ _ _ Vtt El' El).
Qed.
End Kinematics.

(** The property at a player moving right at [MAX_SPEED] who was thrusting
    right and now releases the key. *)
Lemma update_integrates_previous_acceleration_witness :
  exists self' : Player.t Sample.num,
    Player.update
      (Sample.player (Sample.vec 100 100) (Sample.vec 1000 0)
                     (Sample.vec 17000 0) (Sample.vec 200 200))
      Actions.none Sample.delta_t (Sample.vec 0 0) = Ok self'
    /\ Player.position self'
       = (PrimFloat.add (of_int 100)
            (PrimFloat.add (PrimFloat.mul (of_int 1000) Sample.delta_t)
               (PrimFloat.div
                  (PrimFloat.mul (of_int 17000)
                     (PrimFloat.mul Sample.delta_t Sample.delta_t))
                  (of_int 2))),
          of_int 100).
Proof.
  assert (E : exists self' : Player.t Sample.num,
             Player.update
               (Sample.player (Sample.vec 100 100) (Sample.vec 1000 0)
                              (Sample.vec 17000 0) (Sample.vec 200 200))
               Actions.none Sample.delta_t (Sample.vec 0 0) = Ok self').
  { eexists. vm_compute. reflexivity. }
  destruct E as [self' E]. exists self'. split; [exact E |].
  destruct (update_integrates_previous_acceleration _ _ _ _ _ E)
    as (d & h0 & h1 & thrusted & speed & limited & slowed
        & Ed & E0 & E1 & Pos & _).
  rewrite Pos. vm_compute in Ed. apply Ok_inj in Ed. subst d.
  vm_compute in E0, E1. apply Ok_inj in E0, E1. subst h0 h1.
  vm_compute. reflexivity.
Defined.

(** ** Collision between the players *)

Section PlayerCollision.
Context {T : Type} `{Number T} `{Infinity T}.
Local Open Scope py_scope.

Lemma roll_back_velocity (player : Player.t T) (delta_t : T) :
  Player.velocity (Game.roll_back player delta_t) = Player.velocity player.
Proof. reflexivity. Qed.

(** C8: when the rectangles of the two players intersect,
    [__parse_player_collision] exchanges the two players' velocity
    components on each axis [collision_axes] flags ([is_collision_x],
    [is_collision_y]) and leaves the components of an axis that is not
    flagged as they were. *)
Theorem collision_exchanges_velocities
  (player1 player2 after1 after2 : Player.t T) (r1 r2 : Rect.t) :
  Player.get_rect player1 = Ok r1 ->
  Player.get_rect player2 = Ok r2 ->
  Rect.colliderect r1 r2 = true ->
  Game.parse_player_collision player1 player2 = Ok (after1, after2) ->
  exists delta_tx delta_ty : T,
    Game.collision_times (Rect.width r1) player1 player2
    = Ok (delta_tx, delta_ty)
    /\ (fst (Player.velocity after1), fst (Player.velocity after2))
       = (if fst (Game.collision_axes delta_tx delta_ty)
          then (fst (Player.velocity player2), fst (Player.velocity player1))
          else (fst (Player.velocity player1), fst (Player.velocity player2)))
    /\ (snd (Player.velocity after1), snd (Player.velocity after2))
       = (if snd (Game.collision_axes delta_tx delta_ty)
          then (snd (Player.velocity player2), snd (Player.velocity player1))
          else (snd (Player.velocity player1), snd (Player.velocity player2))).
Proof.
  intros E1 E2 Hit E. unfold Game.parse_player_collision in E.
  rewrite E1, E2 in E. simpl in E. rewrite Hit in E.
  bind_inv E. destruct q as [delta_tx delta_ty].
  exists delta_tx, delta_ty. split; [exact Eq |].
  destruct (Game.collision_axes delta_tx delta_ty) as [[|] [|]];
    simpl in E; ok_inv E; injection E as <- <-; split; reflexivity.
Qed.
End PlayerCollision.

(** The scenario of two players at the same place with velocities
    [(100, 0)] and [(-100, 0)]: only the x axis is flagged and the x
    components are exchanged. *)
Lemma collision_exchanges_velocities_witness :
  let player1 := Sample.player (Sample.vec 100 100) (Sample.vec 100 0)
                               (Sample.vec 0 0) (Sample.vec 200 200) in
  let player2 := Sample.player (Sample.vec 100 100) (Sample.vec (-100) 0)
                               (Sample.vec 0 0) (Sample.vec 200 200) in
  exists after1 after2 : Player.t Sample.num,
    Game.parse_player_collision player1 player2 = Ok (after1, after2)
    /\ Player.velocity after1 = Sample.vec (-100) 0
    /\ Player.velocity after2 = Sample.vec 100 0.
Proof.
  intros player1 player2.
  assert (E : exists after,
             Game.parse_player_collision player1 player2 = Ok after).
  { eexists. vm_compute. reflexivity. }
  destruct E as [[after1 after2] E]. exists after1, after2.
  split; [exact E |].
  assert (R1 : Player.get_rect player1 = Ok (Rect.mk 75 75 50 50)).
  { vm_compute. reflexivity. }
  assert (R2 : Player.get_rect player2 = Ok (Rect.mk 75 75 50 50)).
  { vm_compute. reflexivity. }
  destruct (collision_exchanges_velocities player1 player2 after1 after2
              _ _ R1 R2 eq_refl E)
    as (delta_tx & delta_ty & Et & Vx & Vy).
  vm_compute in Et. injection Et as <- <-.
  set (axes := Game.collision_axes _ _) in Vx, Vy.
  vm_compute in axes. subst axes.
  destruct (Player.velocity after1) as [a0 a1].
  destruct (Player.velocity after2) as [b0 b1].
  simpl fst in Vx, Vy. simpl snd in Vx, Vy.
  injection Vx as -> ->. injection Vy as -> ->.
  vm_compute. split; reflexivity.
Defined.

(** ** The bullet checks of [update_physics] *)

Section BulletChecks.
Context {T : Type} `{Number T}.
Local Open Scope py_scope.

Lemma reset_bullet_twice (b : Bullet.t T) :
  Bullet.reset_bullet (Bullet.reset_bullet b) = Bullet.reset_bullet b.
Proof. reflexivity. Qed.

(** C9: a bullet whose rectangle is fully outside the screen ([right < 0],
    [bottom < 0], [left > screen_width] or [top > screen_height]) comes out
    of the bullet checks reset: parked at [[-100, 100]], with velocity
    [[0, 0]] and [was_shot = False]; the checks return whenever the other
    player exists and has a rectangle. *)
Theorem bullet_outside_is_reset (self : Game.t T) (i : nat)
  (player other : Player.t T) (r r_other : Rect.t) :
  Bullet.get_rect (Player.bullet player) = Ok r ->
  py_index (Game.players self) (1 - Z.of_nat i) = Ok other ->
  Player.get_rect other = Ok r_other ->
  (Rect.right r < 0 \/ Rect.bottom r < 0
   \/ Rect.left r > Game.screen_width self
   \/ Rect.top r > Game.screen_height self)%Z ->
  exists player' : Player.t T,
    Game.bullet_collisions self i player = Ok player'
    /\ Player.bullet player'
       = {| Bullet.position := (of_int (-100), of_int 100);
            Bullet.velocity := (of_int 0, of_int 0);
            Bullet.was_shot := false |}.
Proof.
  intros Er Eo Ero Out.
  assert (O : Game.outside self r = true).
  { unfold Game.outside. rewrite !orb_true_iff.
    rewrite !Z.ltb_lt, !Z.gtb_gt. tauto. }
  unfold Game.bullet_collisions. rewrite Er. cbn [bind].
  rewrite O, Eo. cbn [bind]. rewrite Ero. cbn [bind].
  destruct (Rect.colliderect r r_other); eexists; split; reflexivity.
Qed.

(** The score and the bullet after the bullet checks, by whether the
    bullet's rectangle meets the other player's. *)
Lemma bullet_collisions_spec (self : Game.t T) (i : nat)
  (player other : Player.t T) (r r_other : Rect.t) :
  Bullet.get_rect (Player.bullet player) = Ok r ->
  py_index (Game.players self) (1 - Z.of_nat i) = Ok other ->
  Player.get_rect other = Ok r_other ->
  exists player' : Player.t T,
    Game.bullet_collisions self i player = Ok player'
    /\ (Rect.colliderect r r_other = true ->
        Player.score player' = (Player.score player + 1)%Z
        /\ Player.bullet player' = Bullet.reset_bullet (Player.bullet player))
    /\ (Rect.colliderect r r_other = false ->
        Player.score player' = Player.score player
        /\ Player.bullet player'
           = if Game.outside self r
             then Bullet.reset_bullet (Player.bullet player)
             else Player.bullet player).
Proof.
  intros Er Eo Ero.
  unfold Game.bullet_collisions. rewrite Er. cbn [bind].
  rewrite Eo. cbn [bind]. rewrite Ero. cbn [bind].
  destruct (Rect.colliderect r r_other); eexists;
    (split; [reflexivity |]); split; intros C; try discriminate C;
    destruct (Game.outside self r); split; reflexivity.
Qed.
End BulletChecks.

(** The scenario of a bullet at [(1700, 400)] flying right in the
    1600 x 800 game: its rectangle has [left = 1690 > 1600]. *)
Lemma bullet_outside_is_reset_witness :
  let shot := {| Bullet.position := Sample.vec 1700 400;
                 Bullet.velocity := Sample.vec 100 0;
                 Bullet.was_shot := true |} in
  let player :=
    Player.set_bullet
      (Sample.player (Sample.vec 100 100) (Sample.vec 0 0) (Sample.vec 0 0)
                     (Sample.vec 200 200)) shot in
  Bullet.get_rect shot = Ok (Rect.mk 1690 390 20 20)
  /\ exists player' : Player.t Sample.num,
       Game.bullet_collisions Sample.script_game 0 player = Ok player'
       /\ Player.bullet player'
          = {| Bullet.position := Sample.vec (-100) 100;
               Bullet.velocity := Sample.vec 0 0;
               Bullet.was_shot := false |}.
Proof.
  intros shot player.
  assert (R : Bullet.get_rect (Player.bullet player)
              = Ok (Rect.mk 1690 390 20 20)).
  { vm_compute. reflexivity. }
  split; [exact R |].
  assert (O : exists other,
             py_index (Game.players Sample.script_game) (1 - Z.of_nat 0)
             = Ok other).
  { eexists. vm_compute. reflexivity. }
  destruct O as [other O].
  assert (RO : Player.get_rect other = Ok (Rect.mk 1575 775 50 50)).
  { vm_compute in O. apply Ok_inj in O. subst other.
    vm_compute. reflexivity. }
  apply (bullet_outside_is_reset Sample.script_game 0 player other _ _ R O RO).
  right. right. left. vm_compute. reflexivity.
Defined.

(** C3, as stated, fails: with the second player added at [[-100, -100]],
    where the bullet of the first player is parked, the first tick gives
    the first player a point although nobody shoots and its bullet has
    [was_shot = False] before and after. *)
Lemma parked_bullet_scores :
  let g := Game.add_player (50, 50)
             (Game.add_player (50, 50) (Game.init None)
                (Some (Sample.vec 100 100)))
             (Some (Sample.vec (-100) (-100))) in
  exists g' : Game.t Sample.num,
    Game.update_physics Sample.idle (Sample.vec 0 0) g = Ok g'
    /\ map (fun p => Bullet.was_shot (Player.bullet p)) (Game.players g)
       = [false; false]
    /\ map (fun p => Bullet.was_shot (Player.bullet p)) (Game.players g')
       = [false; false]
    /\ map Player.score (Game.players g) = [0; 0]
    /\ map Player.score (Game.players g') = [1; 0].
Proof.
  intros g. eexists. split; [vm_compute; reflexivity |].
  vm_compute. repeat split.
Qed.

(** ** The list of players *)

Section Players.
Context {T : Type} `{Number T} `{Infinity T}.
Local Open Scope py_scope.

Lemma list_set_length {A : Type} (l : list A) (i : nat) (v : A) :
  length (list_set l i v) = length l.
Proof.
  revert i. induction l as [| a l IH]; intros [| i]; simpl; auto.
Qed.

Lemma store_players (self : Game.t T) (i : nat) (player : Player.t T) :
  length (Game.players (Game.store self i player))
  = length (Game.players self).
Proof. apply list_set_length. Qed.

Lemma step_player_players (decide_action : nat -> Game.t T -> Actions.t)
  (mouse : T * T) (self self' : Game.t T) (delta_t : T) (i : nat) :
  Game.step_player decide_action mouse self delta_t i = Ok self' ->
  length (Game.players self') = length (Game.players self).
Proof.
  unfold Game.step_player. intros E.
  bind_inv E. bind_inv E. bind_inv E. bind_inv E. bind_inv E. ok_inv E.
  rewrite !store_players. reflexivity.
Qed.

Lemma for_players_players (decide_action : nat -> Game.t T -> Actions.t)
  (mouse : T * T) (delta_t : T) (indices : list nat) :
  forall self self' : Game.t T,
    Game.for_players decide_action mouse self delta_t indices = Ok self' ->
    length (Game.players self') = length (Game.players self).
Proof.
  induction indices as [| i rest IH]; simpl; intros self self' E.
  - ok_inv E. reflexivity.
  - bind_inv E. rewrite (IH _ _ E).
    exact (step_player_players _ _ _ _ _ _ Eq).
Qed.

Lemma update_physics_players (decide_action : nat -> Game.t T -> Actions.t)
  (mouse : T * T) (self self' : Game.t T) :
  Game.update_physics decide_action mouse self = Ok self' ->
  length (Game.players self') = length (Game.players self).
Proof.
  unfold Game.update_physics. intros E.
  bind_inv E. bind_inv E.
  pose proof (for_players_players _ _ _ _ _ _ Eq0) as L.
  destruct (length (Game.players q0) =? 2)%nat.
  - bind_inv E. bind_inv E. bind_inv E. destruct q3 as [player1 player2].
    ok_inv E. rewrite !store_players. exact L.
  - ok_inv E. exact L.
Qed.

Lemma add_player_players (player_bmp : Z * Z) (self : Game.t T)
  (position : option (T * T)) :
  (length (Game.players self) <= 2)%nat ->
  (length (Game.players (Game.add_player player_bmp self position)) <= 2)%nat.
Proof.
  unfold Game.add_player. intros L.
  destruct (length (Game.players self) <? 2)%nat eqn:C; [| exact L].
  apply Nat.ltb_lt in C. simpl. rewrite length_app. simpl. lia.
Qed.

(** C10: [add_player] on a game that holds two players (or more) returns
    the game as it is; [update_physics] keeps the number of players; hence
    in every reachable game the list of players holds at most two
    players. *)
Theorem at_most_two_players (player_bmp : Z * Z) :
  (forall (g : Game.t T) (position : option (T * T)),
     (2 <= length (Game.players g))%nat ->
     Game.add_player player_bmp g position = g)
  /\ (forall (g g' : Game.t T)
             (decide_action : nat -> Game.t T -> Actions.t) (mouse : T * T),
        Game.update_physics decide_action mouse g = Ok g' ->
        length (Game.players g') = length (Game.players g))
  /\ (forall g : Game.t T,
        reachable player_bmp g -> (length (Game.players g) <= 2)%nat).
Proof.
  split; [| split].
  - intros g position L. unfold Game.add_player.
    destruct (length (Game.players g) <? 2)%nat eqn:C; [| reflexivity].
    apply Nat.ltb_lt in C. lia.
  - intros g g' decide mouse E. exact (update_physics_players _ _ _ _ E).
  - intros g R.
    induction R as [screen_sz | g position R IH | g g' decide mouse R IH E].
    + simpl. lia.
    + apply add_player_players. exact IH.
    + rewrite (update_physics_players _ _ _ _ E). exact IH.
Qed.
End Players.

(** The game of the script is reachable and holds two players; a third
    [add_player] changes nothing and a tick keeps the two players. *)
Lemma at_most_two_players_witness :
  reachable (50, 50) Sample.script_game
  /\ (length (Game.players Sample.script_game) <= 2)%nat
  /\ Game.add_player (50, 50) Sample.script_game (Some (Sample.vec 7 7))
     = Sample.script_game
  /\ exists g' : Game.t Sample.num,
       Game.update_physics Sample.idle (Sample.vec 0 0) Sample.script_game
       = Ok g'
       /\ length (Game.players g') = 2%nat.
Proof.
  assert (R : reachable (50, 50) Sample.script_game).
  { unfold Sample.script_game. cbv zeta.
    apply reach_add_player. apply reach_add_player. apply reach_init. }
  destruct (at_most_two_players (T := Sample.num) (50, 50))
    as (Full & Tick & Bound).
  split; [exact R |]. split; [exact (Bound _ R) |].
  split; [apply Full; simpl; lia |].
  assert (E : exists g' : Game.t Sample.num,
             Game.update_physics Sample.idle (Sample.vec 0 0)
               Sample.script_game = Ok g').
  { eexists. vm_compute. reflexivity. }
  destruct E as [g' E]. exists g'. split; [exact E |].
  rewrite (Tick _ _ _ _ E). reflexivity.
Defined.

(** ** The loop body of [update_physics] *)

Lemma py_index_nat {A : Type} (l : list A) (i : nat) (a : A) :
  py_index l (Z.of_nat i) = Ok a -> nth_error l i = Some a.
Proof.
  unfold py_index.
  destruct (Z.of_nat i <? 0) eqn:N; [apply Z.ltb_lt in N; lia |].
  rewrite N. simpl. rewrite Nat2Z.id.
  destruct (Z.of_nat (length l) <=? Z.of_nat i); [discriminate |].
  destruct (nth_error l i); [| discriminate].
  intros E. apply Ok_inj in E. subst. reflexivity.
Qed.

Lemma py_index_list_set {A : Type} (l : list A) (i : nat) (a v : A) :
  nth_error l i = Some a ->
  py_index (list_set l i v) (Z.of_nat i) = Ok v.
Proof.
  intros E. unfold py_index. rewrite list_set_length.
  assert (L : (i < length l)%nat).
  { apply nth_error_Some. rewrite E. discriminate. }
  destruct (Z.of_nat i <? 0) eqn:N; [apply Z.ltb_lt in N; lia |].
  rewrite N. simpl.
  destruct (Z.of_nat (length l) <=? Z.of_nat i) eqn:G;
    [apply Z.leb_le in G; lia |].
  rewrite Nat2Z.id. clear N G L.
  revert i E. induction l as [| b l IH]; intros [| i] E; simpl in *;
    try discriminate; auto.
Qed.

Lemma list_set_twice {A : Type} (l : list A) (i : nat) (u v : A) :
  list_set (list_set l i u) i v = list_set l i v.
Proof.
  revert i. induction l as [| a l IH]; intros [| i]; simpl; auto.
  rewrite IH. reflexivity.
Qed.

Lemma list_set_other {A : Type} (l : list A) (i j : nat) (v : A) :
  i <> j -> nth_error (list_set l i v) j = nth_error l j.
Proof.
  revert i j. induction l as [| a l IH]; intros [| i] [| j] N; simpl; auto.
  contradiction.
Qed.

Section ScoreFrame.
Context {T : Type} `{Number T}.
Local Open Scope py_scope.

Lemma update_keeps_score (self self' : Player.t T) (actions : Actions.t)
  (delta_t : T) (mouse : T * T) :
  Player.update self actions delta_t mouse = Ok self' ->
  Player.score self' = Player.score self.
Proof.
  intros E.
  destruct (update_blocks _ _ _ _ _ E)
    as (moved & thrusted & speed & limited & slowed & aimed & fired
        & Em & Et & Es & El & Ef & Ea & Eb & ->).
  unfold Player.update_position in Em.
  bind_inv Em. bind_inv Em. bind_inv Em. bind_inv Em. ok_inv Em.
  unfold Player.update_acceleration in Et.
  assert (St : Player.score thrusted = Player.score self).
  { destruct (lt (of_int 0) _) in Et.
    - bind_inv Et. bind_inv Et. ok_inv Et. reflexivity.
    - ok_inv Et. reflexivity. }
  unfold Player.limit_speed in El.
  assert (Sl : Player.score limited = Player.score thrusted).
  { destruct (lt _ speed) in El.
    - bind_inv El. ok_inv El. reflexivity.
    - ok_inv El. reflexivity. }
  unfold Player.friction, Player.threshold in Ef.
  assert (Sf : Player.score slowed = Player.score limited).
  { destruct (lt lit_0_1 speed) in Ef; destruct (lt speed (of_int 30)) in Ef.
    - bind_inv Ef. bind_inv Ef. ok_inv Ef. reflexivity.
    - bind_inv Ef. bind_inv Ef. ok_inv Ef. reflexivity.
    - ok_inv Ef. reflexivity.
    - ok_inv Ef. reflexivity. }
  unfold Player.update_crosshair in Ea.
  assert (Sa : Player.score aimed = Player.score slowed).
  { destruct (Actions.ch_mouse actions).
    - ok_inv Ea. reflexivity.
    - destruct (Player.crosshair slowed); [| discriminate].
      ok_inv Ea. reflexivity. }
  unfold Player.shoot in Eb.
  assert (Sb : Player.score fired = Player.score aimed).
  { destruct (Actions.shoot actions && _) in Eb.
    - bind_inv Eb. bind_inv Eb. bind_inv Eb. ok_inv Eb. reflexivity.
    - ok_inv Eb. reflexivity. }
  simpl. rewrite Sb, Sa, Sf, Sl, St. reflexivity.
Qed.

Lemma limit_crosshair_keeps_score (self : Game.t T)
  (player player' : Player.t T) :
  Game.limit_crosshair self player = Ok player' ->
  Player.score player' = Player.score player
  /\ Player.bullet player' = Player.bullet player.
Proof.
  unfold Game.limit_crosshair. intros E.
  bind_inv E. bind_inv E. bind_inv E. bind_inv E. ok_inv E. split; reflexivity.
Qed.

Lemma bounce_keeps_score (player : Player.t T) (vertical : bool) (c : T) :
  Player.score (Game.bounce player vertical c) = Player.score player
  /\ Player.bullet (Game.bounce player vertical c) = Player.bullet player.
Proof. destruct vertical; split; reflexivity. Qed.

Lemma wall_collisions_keeps_score (self : Game.t T)
  (player player' : Player.t T) :
  Game.wall_collisions self player = Ok player' ->
  Player.score player' = Player.score player
  /\ Player.bullet player' = Player.bullet player.
Proof.
  unfold Game.wall_collisions. intros E.
  bind_inv E. bind_inv E. bind_inv E. bind_inv E. bind_inv E.
  apply Ok_inj in E. rewrite <- E. clear E.
  assert (S0 : Player.score q0 = Player.score player
               /\ Player.bullet q0 = Player.bullet player).
  { destruct (Rect.left q <? 0)%Z;
      [bind_inv Eq0; ok_inv Eq0; apply bounce_keeps_score
      | ok_inv Eq0; split; reflexivity]. }
  assert (S1 : Player.score q1 = Player.score q0
               /\ Player.bullet q1 = Player.bullet q0).
  { destruct (Rect.top q <? 0)%Z;
      [bind_inv Eq1; ok_inv Eq1; apply bounce_keeps_score
      | ok_inv Eq1; split; reflexivity]. }
  assert (S2 : Player.score q2 = Player.score q1
               /\ Player.bullet q2 = Player.bullet q1).
  { destruct (Rect.right q >? _)%Z;
      [bind_inv Eq2; ok_inv Eq2; apply bounce_keeps_score
      | ok_inv Eq2; split; reflexivity]. }
  assert (S3 : Player.score q3 = Player.score q2
               /\ Player.bullet q3 = Player.bullet q2).
  { destruct (Rect.bottom q >? _)%Z;
      [bind_inv Eq3; ok_inv Eq3; apply bounce_keeps_score
      | ok_inv Eq3; split; reflexivity]. }
  destruct S0, S1, S2, S3. split; congruence.
Qed.
End ScoreFrame.

Section Tick.
Context {T : Type} `{Number T}.
Local Open Scope py_scope.

(** The body of the loop returns exactly when its blocks all do. *)
Lemma step_player_blocks (decide_action : nat -> Game.t T -> Actions.t)
  (mouse : T * T) (self self' : Game.t T) (delta_t : T) (i : nat) :
  Game.step_player decide_action mouse self delta_t i = Ok self' ->
  exists before updated aimed advanced after : Player.t T,
    py_index (Game.players self) (Z.of_nat i) = Ok before
    /\ Player.update before (decide_action i self) delta_t mouse = Ok updated
    /\ Game.limit_crosshair self updated = Ok aimed
    /\ Game.wall_collisions self aimed = Ok advanced
    /\ Game.bullet_collisions (Game.store self i advanced) i advanced
       = Ok after
    /\ self' = Game.store (Game.store self i advanced) i after.
Proof.
  unfold Game.step_player. intros E.
  bind_inv E. bind_inv E. bind_inv E. bind_inv E. bind_inv E.
  apply Ok_inj in E. symmetry in E.
  repeat eexists; eassumption.
Qed.

Lemma bullet_collisions_inv (self : Game.t T) (i : nat)
  (player player' : Player.t T) :
  Game.bullet_collisions self i player = Ok player' ->
  exists (r : Rect.t) (other : Player.t T) (r_other : Rect.t),
    Bullet.get_rect (Player.bullet player) = Ok r
    /\ py_index (Game.players self) (1 - Z.of_nat i) = Ok other
    /\ Player.get_rect other = Ok r_other.
Proof.
  unfold Game.bullet_collisions. intros E.
  bind_inv E. bind_inv E. bind_inv E.
  repeat eexists; eassumption.
Qed.

(** C3 (amended): in the loop body of a tick, the score of the player is
    one more after the body exactly when the rectangle of its bullet, shot
    or not, taken after [update] and the wall check, meets the rectangle of
    the other player, and is unchanged otherwise; on that hit the bullet is
    reset; the other players of the list are not touched. *)
Theorem score_counts_rectangle_hits
  (decide_action : nat -> Game.t T -> Actions.t) (mouse : T * T)
  (self self' : Game.t T) (delta_t : T) (i : nat) :
  Game.step_player decide_action mouse self delta_t i = Ok self' ->
  exists (before updated aimed advanced after other : Player.t T)
         (r r_other : Rect.t),
    py_index (Game.players self) (Z.of_nat i) = Ok before
    /\ Player.update before (decide_action i self) delta_t mouse = Ok updated
    /\ Game.limit_crosshair self updated = Ok aimed
    /\ Game.wall_collisions self aimed = Ok advanced
    /\ Bullet.get_rect (Player.bullet advanced) = Ok r
    /\ py_index (Game.players (Game.store self i advanced)) (1 - Z.of_nat i)
       = Ok other
    /\ Player.get_rect other = Ok r_other
    /\ py_index (Game.players self') (Z.of_nat i) = Ok after
    /\ (Player.score after = (Player.score before + 1)%Z
        <-> Rect.colliderect r r_other = true)
    /\ (Player.score after = Player.score before
        <-> Rect.colliderect r r_other = false)
    /\ (Rect.colliderect r r_other = true ->
        Player.bullet after
        = {| Bullet.position := (of_int (-100), of_int 100);
             Bullet.velocity := (of_int 0, of_int 0);
             Bullet.was_shot := false |})
    /\ (forall j : nat,
          j <> i ->
          nth_error (Game.players self') j = nth_error (Game.players self) j).
Proof.
  intros E.
  destruct (step_player_blocks _ _ _ _ _ _ E)
    as (before & updated & aimed & advanced & after
        & Eb & Eu & Ea & Ew & Ec & ->).
  destruct (bullet_collisions_inv _ _ _ _ Ec)
    as (r & other & r_other & Er & Eo & Ero).
  exists before, updated, aimed, advanced, after, other, r, r_other.
  destruct (bullet_collisions_spec _ _ _ _ _ _ Er Eo Ero)
    as (after' & Ec' & Hit & Miss).
  rewrite Ec in Ec'. apply Ok_inj in Ec'. subst after'.
  assert (S : Player.score advanced = Player.score before).
  { destruct (wall_collisions_keeps_score _ _ _ Ew) as [-> _].
    destruct (limit_crosshair_keeps_score _ _ _ Ea) as [-> _].
    exact (update_keeps_score _ _ _ _ _ Eu). }
  repeat match goal with |- _ /\ _ => split end; try assumption.
  - cbn [Game.store Game.players]. rewrite list_set_twice.
    apply py_index_list_set with (a := before).
    apply py_index_nat. exact Eb.
  - split.
    + intros S'. destruct (Rect.colliderect r r_other); [reflexivity |].
      destruct (Miss eq_refl) as [S'' _]. lia.
    + intros C. destruct (Hit C) as [S' _]. lia.
  - split.
    + intros S'. destruct (Rect.colliderect r r_other); [| reflexivity].
      destruct (Hit eq_refl) as [S'' _]. lia.
    + intros C. destruct (Miss C) as [S' _]. lia.
  - intros C. destruct (Hit C) as [_ B]. exact B.
  - intros j N. cbn [Game.store Game.players].
    rewrite !list_set_other by auto. reflexivity.
Qed.
End Tick.

(** The first player of the script's game in the first tick: its parked
    bullet does not meet the second player, at the far corner, and the
    score stays. *)
Lemma score_counts_rectangle_hits_witness :
  exists (self' : Game.t Sample.num) (after : Player.t Sample.num),
    Game.step_player Sample.idle (Sample.vec 0 0) Sample.script_game
      Sample.delta_t 0 = Ok self'
    /\ py_index (Game.players self') 0 = Ok after
    /\ Player.score after = 0%Z.
Proof.
  assert (E : exists self' : Game.t Sample.num,
             Game.step_player Sample.idle (Sample.vec 0 0) Sample.script_game
               Sample.delta_t 0 = Ok self').
  { eexists. vm_compute. reflexivity. }
  destruct E as [self' E].
  destruct (score_counts_rectangle_hits _ _ _ _ _ _ E)
    as (before & updated & aimed & advanced & after & other & r & r_other
        & Eb & Eu & Ea & Ew & Er & Eo & Ero & Ei & _ & Same & _).
  exists self', after. split; [exact E |]. split; [exact Ei |].
  vm_compute in Eb. apply Ok_inj in Eb. subst before.
  vm_compute in Eu. apply Ok_inj in Eu. subst updated.
  vm_compute in Ea. apply Ok_inj in Ea. subst aimed.
  vm_compute in Ew. apply Ok_inj in Ew. subst advanced.
  vm_compute in Er. apply Ok_inj in Er. subst r.
  vm_compute in Eo. apply Ok_inj in Eo. subst other.
  vm_compute in Ero. apply Ok_inj in Ero. subst r_other.
  apply Same. reflexivity.
Defined.

(** ** binary64 *)

Section Binary64.
Import PrimFloat SpecFloat FloatOps FloatAxioms.

(** [v - v] is [+0.0] or [nan]. *)
Lemma sub_self (v : float) :
  Prim2SF (PrimFloat.sub v v) = S754_zero false
  \/ Prim2SF (PrimFloat.sub v v) = S754_nan.
Proof.
  rewrite sub_spec. unfold SF64sub.
  destruct (Prim2SF v) as [s | s | | s m e]; simpl.
  - left. destruct s; reflexivity.
  - right. destruct s; reflexivity.
  - right. reflexivity.
  - left. rewrite Z.sub_diag. reflexivity.
Qed.

(** A coordinate that has an integer part is finite: [x - x] is [0.0]. *)
Lemma sub_self_finite (x : float) (z : Z) :
  F64.to_int x = Ok z -> PrimFloat.sub x x = PrimFloat.zero.
Proof.
  unfold F64.to_int. intros E.
  rewrite <- (SF2Prim_Prim2SF (PrimFloat.sub x x)).
  rewrite sub_spec. unfold SF64sub.
  destruct (Prim2SF x) as [s | s | | s m e]; try discriminate E; simpl.
  - destruct s; reflexivity.
  - rewrite Z.sub_diag. reflexivity.
Qed.

(** No relative speed: [abs(v - v) > 0] is false. *)
Lemma no_relative_speed (v : float) :
  lt (of_int 0) (absolute (PrimFloat.sub v v)) = false.
Proof.
  cbn [lt absolute of_int float_Number]. rewrite ltb_spec, abs_spec.
  destruct (sub_self v) as [-> | ->]; reflexivity.
Qed.

(** [x - v * inf] is infinite or [nan]: it has no integer part. *)
Lemma rolled_back_to_nowhere (x v : float) :
  F64.to_int (PrimFloat.sub x (PrimFloat.mul v PrimFloat.infinity))
  = Raise TypeError.
Proof.
  unfold F64.to_int. rewrite sub_spec, mul_spec. unfold SF64sub, SF64mul.
  change (Prim2SF infinity) with (S754_infinity false).
  destruct (Prim2SF v) as [sv | sv | | sv mv ev];
    destruct (Prim2SF x) as [sx | sx | | sx mx ex];
    try destruct sv; try destruct sx; reflexivity.
Qed.

(** The shoot block, for a player whose crosshair is on its position. *)
Lemma shoot_on_own_position (self : Player.t float)
  (actions : Actions.t) (r : Rect.t) :
  Actions.shoot actions = true ->
  Bullet.was_shot (Player.bullet self) = false ->
  Player.coords (Player.crosshair self) = Player.position self ->
  Player.get_rect self = Ok r ->
  Player.shoot self actions = Raise ZeroDivisionError.
Proof.
  intros S B C R.
  unfold Player.get_rect, Rect.set_center in R.
  bind_inv R. bind_inv R. clear R.
  cbn [to_int float_Number] in Eq, Eq0.
  unfold Player.shoot. rewrite S, B, C. cbn [andb negb].
  cbn [minus float_Number fst snd].
  rewrite (sub_self_finite _ _ Eq), (sub_self_finite _ _ Eq0).
  reflexivity.
Qed.

(** C1: [update] has no guard for a fire direction of zero magnitude.  For
    every player and actions with [shoot] set, whose bullet is not shot and
    whose crosshair, once the blocks before the shot have moved the player
    and the crosshair, is exactly on the (finite) position of the player,
    [bullet_speed] is [0.0] and [update] raises [ZeroDivisionError] at
    [SHOOTING_SPEED / bullet_speed]. *)
Theorem degenerate_fire_raises
  (self moved thrusted limited slowed aimed : Player.t float)
  (actions : Actions.t) (delta_t speed : float) (mouse : float * float)
  (r : Rect.t) :
  Player.update_position self delta_t = Ok moved ->
  Player.update_acceleration (Player.update_velocity moved delta_t) actions
  = Ok thrusted ->
  Player.magnitude (Player.velocity thrusted) = Ok speed ->
  Player.limit_speed thrusted speed = Ok limited ->
  Player.friction (Player.threshold limited speed) speed = Ok slowed ->
  Player.update_crosshair slowed actions mouse = Ok aimed ->
  Actions.shoot actions = true ->
  Bullet.was_shot (Player.bullet aimed) = false ->
  Player.coords (Player.crosshair aimed) = Player.position aimed ->
  Player.get_rect aimed = Ok r ->
  Player.update self actions delta_t mouse = Raise ZeroDivisionError.
Proof.
  intros Em Et Es El Ef Ea S B C R.
  unfold Player.update.
  rewrite Em. cbn [bind]. rewrite Et. cbn [bind]. rewrite Es. cbn [bind].
  rewrite El. cbn [bind]. rewrite Ef. cbn [bind]. rewrite Ea. cbn [bind].
  rewrite (shoot_on_own_position aimed actions r S B C R). reflexivity.
Qed.

(** C2: for every two players whose rectangles intersect and whose
    velocities are the same, [__parse_player_collision] divides by nothing
    and returns, but it does roll back: with [delta_t = min(inf, inf)] each
    position coordinate becomes [coordinate - velocity * inf], which is
    infinite or [nan], so that neither player has a rectangle any more. *)
Theorem equal_velocities_lose_positions
  (player1 player2 : Player.t float) (r1 r2 : Rect.t) :
  Player.get_rect player1 = Ok r1 ->
  Player.get_rect player2 = Ok r2 ->
  Rect.colliderect r1 r2 = true ->
  Player.velocity player1 = Player.velocity player2 ->
  exists after1 after2 : Player.t float,
    Game.parse_player_collision player1 player2 = Ok (after1, after2)
    /\ Player.position after1
       = (fst (Player.position player1) - fst (Player.velocity player1) * inf,
          snd (Player.position player1) - snd (Player.velocity player1) * inf)%py
    /\ Player.position after2
       = (fst (Player.position player2) - fst (Player.velocity player2) * inf,
          snd (Player.position player2) - snd (Player.velocity player2) * inf)%py
    /\ Player.get_rect after1 = Raise TypeError
    /\ Player.get_rect after2 = Raise TypeError.
Proof.
  intros E1 E2 Hit V.
  unfold Game.parse_player_collision. rewrite E1, E2. cbn [bind].
  rewrite Hit. unfold Game.collision_times, Game.time_since_contact.
  cbv zeta. rewrite V.
  cbn [minus float_Number]. rewrite !no_relative_speed. cbn [bind].
  change (Game.collision_axes inf inf) with (true, true).
  change (py_min (T := float) inf inf) with (inf (T := float)).
  do 2 eexists. split; [reflexivity |].
  cbn [fst snd Game.switch_velocities Game.roll_back
       Player.set_velocity Player.set_position Player.position
       Player.velocity].
  split; [rewrite ?V; reflexivity |]. split; [rewrite ?V; reflexivity |].
  unfold Player.get_rect, Rect.set_center.
  cbn [Player.position Player.img fst snd to_int float_Number minus times
       inf float_Infinity Game.roll_back Player.set_velocity
       Player.set_position].
  rewrite !rolled_back_to_nowhere. split; reflexivity.
Qed.
End Binary64.

(** The human player at rest at [[100, 100]] who clicks while the mouse is
    at [(100, 100)]. *)
Lemma degenerate_fire_raises_witness :
  Player.update
    (Sample.player (Sample.vec 100 100) (Sample.vec 0 0) (Sample.vec 0 0)
                   (Sample.vec 200 200))
    (Sample.pressing false true true) Sample.delta_t (Sample.vec 100 100)
  = Raise ZeroDivisionError.
Proof.
  eapply degenerate_fire_raises; try (vm_compute; reflexivity).
Defined.

(** Two players at rest at [[100, 100]] and [[120, 100]]. *)
Lemma equal_velocities_lose_positions_witness :
  let player1 := Sample.player (Sample.vec 100 100) (Sample.vec 0 0)
                               (Sample.vec 0 0) (Sample.vec 200 200) in
  let player2 := Sample.player (Sample.vec 120 100) (Sample.vec 0 0)
                               (Sample.vec 0 0) (Sample.vec 200 200) in
  exists after1 after2 : Player.t Sample.num,
    Game.parse_player_collision player1 player2 = Ok (after1, after2)
    /\ Player.position after1 = (PrimFloat.nan, PrimFloat.nan)
    /\ Player.position after2 = (PrimFloat.nan, PrimFloat.nan).
Proof.
  intros player1 player2.
  assert (R1 : Player.get_rect player1 = Ok (Rect.mk 75 75 50 50)).
  { vm_compute. reflexivity. }
  assert (R2 : Player.get_rect player2 = Ok (Rect.mk 95 75 50 50)).
  { vm_compute. reflexivity. }
  destruct (equal_velocities_lose_positions player1 player2 _ _ R1 R2
              eq_refl eq_refl) as (after1 & after2 & E & P1 & P2 & _).
  exists after1, after2. split; [exact E |].
  unfold Sample.num. rewrite P1, P2. split; vm_compute; reflexivity.
Defined.

(** ** Runs on binary64 *)

(** A player at rest at [[100, 100]] who shoots while the crosshair is at
    [(100, 100)] too, whether the crosshair is the list moved by keys or the
    tuple of the mouse: [update] raises [ZeroDivisionError]. *)
Lemma shooting_at_own_position_raises :
  Player.update
    (Sample.player (Sample.vec 100 100) (Sample.vec 0 0) (Sample.vec 0 0)
                   (Sample.vec 100 100))
    (Sample.pressing false true false) Sample.delta_t (Sample.vec 0 0)
  = Raise ZeroDivisionError
  /\ Player.update
       (Sample.player (Sample.vec 100 100) (Sample.vec 0 0) (Sample.vec 0 0)
                      (Sample.vec 200 200))
       (Sample.pressing false true true) Sample.delta_t (Sample.vec 100 100)
     = Raise ZeroDivisionError.
Proof. split; vm_compute; reflexivity. Qed.

(** Two players at rest whose rectangles intersect come out of
    [__parse_player_collision] at [(nan, nan)]; with equal velocities
    [(100, 0)] they come out at [(-inf, nan)].  The first tick of a game
    whose players were added at [[100, 100]] and [[120, 100]] ends in this
    way. *)
Lemma resting_overlap_loses_positions :
  Game.parse_player_collision
    (Sample.player (Sample.vec 100 100) (Sample.vec 0 0) (Sample.vec 0 0)
                   (Sample.vec 200 200))
    (Sample.player (Sample.vec 120 100) (Sample.vec 0 0) (Sample.vec 0 0)
                   (Sample.vec 200 200))
  = Ok (Sample.player (PrimFloat.nan, PrimFloat.nan) (Sample.vec 0 0)
                      (Sample.vec 0 0) (Sample.vec 200 200),
        Sample.player (PrimFloat.nan, PrimFloat.nan) (Sample.vec 0 0)
                      (Sample.vec 0 0) (Sample.vec 200 200))
  /\ Game.parse_player_collision
       (Sample.player (Sample.vec 100 100) (Sample.vec 100 0) (Sample.vec 0 0)
                      (Sample.vec 200 200))
       (Sample.player (Sample.vec 120 100) (Sample.vec 100 0) (Sample.vec 0 0)
                      (Sample.vec 200 200))
     = Ok (Sample.player (PrimFloat.neg_infinity, PrimFloat.nan)
                         (Sample.vec 100 0) (Sample.vec 0 0)
                         (Sample.vec 200 200),
           Sample.player (PrimFloat.neg_infinity, PrimFloat.nan)
                         (Sample.vec 100 0) (Sample.vec 0 0)
                         (Sample.vec 200 200))
  /\ exists g' : Game.t Sample.num,
       Game.update_physics Sample.idle (Sample.vec 0 0)
         (Game.add_player (50, 50)
            (Game.add_player (50, 50) (Game.init None)
               (Some (Sample.vec 100 100)))
            (Some (Sample.vec 120 100)))
       = Ok g'
       /\ map Player.position (Game.players g')
          = [(PrimFloat.nan, PrimFloat.nan); (PrimFloat.nan, PrimFloat.nan)].
Proof.
  split; [vm_compute; reflexivity |].
  split; [vm_compute; reflexivity |].
  eexists. split; vm_compute; reflexivity.
Qed.

(** C4: the friction block divides the velocity, already scaled down to
    [MAX_SPEED], by the [speed] measured before the scaling.  A player
    starting at rest who holds the right key has, after six ticks, the
    velocity 1466.7 and the acceleration [20000 - 3000 = 17000]; the seventh
    [update] integrates the velocity to 1750, scales it back to 1500 and
    subtracts the drag [1500 / 1750 * 3000], leaving an acceleration between
    17428 and 17429 where a drag of magnitude 3000 leaves 17000; the
    velocity is the scaled one, untouched by the friction. *)
Theorem drag_after_speed_limit_is_short :
  let rest := Sample.player (Sample.vec 100 100) (Sample.vec 0 0)
                            (Sample.vec 0 0) (Sample.vec 200 200) in
  let right := Sample.pressing true false false in
  exists before self' : Player.t Sample.num,
    Sample.hold 6 right rest = Ok before
    /\ Player.acceleration before = Sample.vec 17000 0
    /\ Player.update before right Sample.delta_t (Sample.vec 0 0) = Ok self'
    /\ PrimFloat.ltb (of_int 1499) (fst (Player.velocity self')) = true
    /\ PrimFloat.ltb (fst (Player.velocity self')) (of_int 1501) = true
    /\ PrimFloat.ltb (of_int 17428) (fst (Player.acceleration self')) = true
    /\ PrimFloat.ltb (fst (Player.acceleration self')) (of_int 17429) = true
    /\ snd (Player.acceleration self') = of_int 0.
Proof.
  intros rest right. do 2 eexists.
  split; [vm_compute; reflexivity |].
  split; [vm_compute; reflexivity |].
  split; [vm_compute; reflexivity |].
  repeat split; vm_compute; reflexivity.
Qed.


(** The conversion of a coordinate in [float_Number] truncates toward
    zero. *)
Lemma to_int_truncates :
  F64.to_int (PrimFloat.div (of_int 3403) (of_int 2)) = Ok 1701
  /\ F64.to_int (PrimFloat.div (of_int (-3)) (of_int 2)) = Ok (-1)
  /\ F64.to_int (PrimFloat.div (of_int (-1)) (of_int 2)) = Ok 0
  /\ F64.to_int PrimFloat.nan = Raise TypeError.
Proof. repeat split; vm_compute; reflexivity. Qed.

(** The wall check at a corner, on binary64: a 50 x 50 player at
    [(-5, 900)] on the 1600 x 800 screen is past the left and the bottom
    wall; it is put at [(25, 775)] and both velocity components are negated
    and damped. *)
Lemma corner_on_binary64 :
  Game.wall_collisions (Game.mk 1600 800 [])
    (Sample.player (Sample.vec (-5) 900) (Sample.vec (-100) 50)
                   (Sample.vec 0 0) (Sample.vec 200 200))
  = Ok (Sample.player (Sample.vec 25 775)
          (PrimFloat.mul (of_int 100) lit_0_8,
           PrimFloat.mul (of_int (-50)) lit_0_8)
          (Sample.vec 0 0) (Sample.vec 200 200)).
Proof. vm_compute. reflexivity. Qed.

(** The speed limit on binary64: a player arriving at 3000 along x leaves
    [update] at 1500 along x. *)
Lemma speed_limit_on_binary64 :
  exists self' : Player.t Sample.num,
    Player.update
      (Sample.player (Sample.vec 100 100) (Sample.vec 3000 0)
                     (Sample.vec 0 0) (Sample.vec 200 200))
      Actions.none Sample.delta_t (Sample.vec 0 0) = Ok self'
    /\ Player.velocity self' = Sample.vec 1500 0.
Proof. eexists. split; vm_compute; reflexivity. Qed.

(** The scenario of a shot from [(100, 100)] at the crosshair [(300, 100)]:
    the bullet leaves with velocity [(3000, 0)]. *)
Lemma shot_on_binary64 :
  exists self' : Player.t Sample.num,
    Player.update
      (Sample.player (Sample.vec 100 100) (Sample.vec 0 0) (Sample.vec 0 0)
                     (Sample.vec 300 100))
      (Sample.pressing false true false) Sample.delta_t (Sample.vec 0 0)
    = Ok self'
    /\ Bullet.velocity (Player.bullet self') = Sample.vec 3000 0
    /\ Bullet.was_shot (Player.bullet self') = true.
Proof. eexists. split; [| split]; vm_compute; reflexivity. Qed.

(** ** Runs on exact reals *)

Section MotionFrame.
Context {T : Type} `{Number T}.
Local Open Scope py_scope.

(** The velocity [update] leaves, from the integrated one. *)
Lemma update_velocity_spec (self self' : Player.t T) (actions : Actions.t)
  (delta_t : T) (mouse : T * T) :
  Player.update self actions delta_t mouse = Ok self' ->
  let integrated :=
    (fst (Player.velocity self) + fst (Player.acceleration self) * delta_t,
     snd (Player.velocity self) + snd (Player.acceleration self) * delta_t) in
  exists thrusted speed limited slowed,
    Player.velocity thrusted = integrated
    /\ (forall other : Player.t T,
          Player.update_acceleration other actions
          = Ok (Player.set_acceleration other (Player.acceleration thrusted)))
    /\ Player.magnitude integrated = Ok speed
    /\ Player.limit_speed thrusted speed = Ok limited
    /\ Player.velocity self' = Player.velocity (Player.threshold limited speed)
    /\ Player.friction (Player.threshold limited speed) speed = Ok slowed
    /\ Player.acceleration self' = Player.acceleration slowed.
Proof.
  intros E integrated.
  destruct (update_motion _ _ _ _ _ E)
    as (moved & thrusted & speed & limited & slowed
        & Em & Et & Es & El & Ef & Pos & Vel & Acc).
  destruct (update_position_spec _ _ _ Em) as (d & h0 & h1 & _ & _ & _ & Mv).
  destruct (update_acceleration_keeps _ _ _ Et) as [_ Vt].
  assert (Vi : Player.velocity thrusted = integrated).
  { rewrite Vt, Mv. reflexivity. }
  exists thrusted, speed, limited, slowed. rewrite <- Vi at 2.
  repeat split; try assumption.
  exact (update_acceleration_replaces _ _ _ Et).
Qed.
End MotionFrame.

Section ExactArithmetic.
Local Open Scope R_scope.

Lemma lt_true (x y : R) : lt x y = true <-> x < y.
Proof.
  cbn. unfold Exact.lt.
  destruct (Rlt_dec x y); split; auto; discriminate.
Qed.

Lemma lt_false (x y : R) : lt x y = false <-> y <= x.
Proof.
  cbn. unfold Exact.lt.
  destruct (Rlt_dec x y); split; auto; try discriminate; lra.
Qed.

Lemma div_Ok (x y : R) : y <> 0 -> div x y = Ok (x / y).
Proof.
  intros N. cbn. unfold Exact.div.
  destruct (Req_dec_T y 0); [contradiction | reflexivity].
Qed.

Lemma div_zero (x : R) : div x 0 = Raise ZeroDivisionError.
Proof.
  cbn. unfold Exact.div.
  destruct (Req_dec_T 0 0) as [_ | N]; [reflexivity |].
  contradiction N. reflexivity.
Qed.

Lemma magnitude_exact (v : R * R) :
  Player.magnitude v = Ok (sqrt (fst v * fst v + snd v * snd v)).
Proof. reflexivity. Qed.

(** A vector scaled by [m / s], [s] its length, has length [m]. *)
Lemma scaled_magnitude (x y s : R) :
  s = sqrt (x * x + y * y) -> 0 < s -> forall m : R, 0 <= m ->
  sqrt ((x * (m / s)) * (x * (m / s)) + (y * (m / s)) * (y * (m / s))) = m.
Proof.
  intros S P m M.
  assert (Q : x * x + y * y = s * s).
  { rewrite S. rewrite sqrt_sqrt; [reflexivity | nra]. }
  replace (x * (m / s) * (x * (m / s)) + y * (m / s) * (y * (m / s)))
    with (m * m).
  - apply sqrt_square. exact M.
  - transitivity ((x * x + y * y) * ((m / s) * (m / s))); [| ring].
    rewrite Q. field. lra.
Qed.

(** *** Truncation *)

Lemma trunc_floor (x : R) (z : Z) :
  0 <= x -> IZR z <= x < IZR z + 1 -> Exact.trunc x = z.
Proof.
  intros P [Lo Hi]. unfold Exact.trunc.
  destruct (Rle_dec 0 x) as [_ | N]; [| contradiction].
  symmetry. apply Int_part_spec. lra.
Qed.

Lemma trunc_int (z : Z) : Exact.trunc (IZR z) = z.
Proof.
  unfold Exact.trunc. destruct (Rle_dec 0 (IZR z)) as [P | N].
  - symmetry. apply Int_part_spec. lra.
  - rewrite <- opp_IZR.
    assert (E : (- z)%Z = Int_part (IZR (- z))) by (apply Int_part_spec; lra).
    rewrite <- E. lia.
Qed.



End ExactArithmetic.

Section ExactPlayer.
Local Open Scope R_scope.

Lemma update_position_returns (self : Player.t R) (delta_t : R) :
  exists moved : Player.t R,
    Player.update_position self delta_t = Ok moved
    /\ Player.crosshair moved = Player.crosshair self.
Proof.
  unfold Player.update_position. cbn [pow2 real_Number bind].
  rewrite !div_Ok by (cbn; lra). cbn [bind].
  eexists. split; reflexivity.
Qed.

Lemma update_acceleration_returns (self : Player.t R) (actions : Actions.t) :
  exists thrusted : Player.t R,
    Player.update_acceleration self actions = Ok thrusted
    /\ Player.crosshair thrusted = Player.crosshair self.
Proof.
  unfold Player.update_acceleration. cbv zeta.
  remember (pow_half _) as thrust_mag eqn:M. clear M.
  destruct (lt (of_int 0) thrust_mag) eqn:L.
  - apply lt_true in L. cbn in L.
    rewrite !div_Ok by lra. cbn [bind]. eexists. split; reflexivity.
  - eexists. split; reflexivity.
Qed.

Lemma limit_speed_returns (self : Player.t R) (speed : R) :
  exists limited : Player.t R,
    Player.limit_speed self speed = Ok limited
    /\ Player.crosshair limited = Player.crosshair self.
Proof.
  unfold Player.limit_speed.
  destruct (lt (of_int Player.MAX_SPEED) speed) eqn:L.
  - apply lt_true in L. unfold Player.MAX_SPEED in L.
    cbn [of_int real_Number] in L.
    rewrite div_Ok by lra. cbn [bind]. eexists. split; reflexivity.
  - eexists. split; reflexivity.
Qed.

Lemma threshold_crosshair (self : Player.t R) (speed : R) :
  Player.crosshair (Player.threshold self speed) = Player.crosshair self.
Proof.
  unfold Player.threshold. destruct (lt speed (of_int 30)); reflexivity.
Qed.

Lemma friction_returns (self : Player.t R) (speed : R) :
  exists slowed : Player.t R,
    Player.friction self speed = Ok slowed
    /\ Player.crosshair slowed = Player.crosshair self.
Proof.
  unfold Player.friction. cbv zeta.
  destruct (lt lit_0_1 speed) eqn:L.
  - apply lt_true in L. cbn [lit_0_1 real_Number] in L.
    rewrite !div_Ok by lra. cbn [bind]. eexists. split; reflexivity.
  - eexists. split; reflexivity.
Qed.

(** Over the reals [update] returns for every player who does not shoot and
    whose crosshair can be moved. *)
Lemma update_exact_returns (self : Player.t R) (actions : Actions.t)
  (delta_t : R) (mouse : R * R) :
  Actions.shoot actions = false ->
  Actions.ch_mouse actions = true
  \/ (exists c : R * R, Player.crosshair self = Player.AsList c) ->
  exists self' : Player.t R,
    Player.update self actions delta_t mouse = Ok self'.
Proof.
  intros Quiet Aim. unfold Player.update.
  destruct (update_position_returns self delta_t) as (moved & -> & Cm).
  cbn [bind].
  destruct (update_acceleration_returns
              (Player.update_velocity moved delta_t) actions)
    as (thrusted & -> & Ct).
  cbn [bind]. rewrite magnitude_exact. cbn [bind].
  set (speed := sqrt _).
  destruct (limit_speed_returns thrusted speed) as (limited & -> & Cl).
  cbn [bind].
  destruct (friction_returns (Player.threshold limited speed) speed)
    as (slowed & -> & Cs).
  cbn [bind].
  assert (C : Player.crosshair slowed = Player.crosshair self).
  { rewrite Cs, threshold_crosshair, Cl, Ct. exact Cm. }
  assert (A : exists aimed : Player.t R,
             Player.update_crosshair slowed actions mouse = Ok aimed).
  { unfold Player.update_crosshair.
    destruct Aim as [-> | [c Ec]]; [eexists; reflexivity |].
    rewrite C, Ec. destruct (Actions.ch_mouse actions); eexists; reflexivity. }
  destruct A as [aimed ->]. cbn [bind].
  unfold Player.shoot. rewrite Quiet. cbn [andb bind].
  eexists. reflexivity.
Qed.
(** C6: over exact reals, when the velocity integrated by [update] has a
    magnitude above [MAX_SPEED = 1500], the velocity [update] leaves has
    magnitude exactly [MAX_SPEED] and is the integrated one times a positive
    factor (same direction); when the magnitude is at least the stop
    threshold 30 and at most [MAX_SPEED], the velocity [update] leaves is
    the integrated one, not rescaled. *)
Theorem speed_is_clamped (self self' : Player.t R) (actions : Actions.t)
  (delta_t : R) (mouse : R * R) :
  Player.update self actions delta_t mouse = Ok self' ->
  let integrated :=
    (fst (Player.velocity self) + fst (Player.acceleration self) * delta_t,
     snd (Player.velocity self) + snd (Player.acceleration self) * delta_t)%py in
  exists speed : R,
    Player.magnitude integrated = Ok speed
    /\ (speed > IZR Player.MAX_SPEED ->
        Player.magnitude (Player.velocity self') = Ok (IZR Player.MAX_SPEED)
        /\ exists c : R, 0 < c
             /\ Player.velocity self' = (c * fst integrated, c * snd integrated))
    /\ (30 <= speed <= IZR Player.MAX_SPEED ->
        Player.velocity self' = integrated).
Proof.
  intros E integrated.
  destruct (update_velocity_spec _ _ _ _ _ E)
    as (thrusted & speed & limited & slowed & Vt & _ & Es & El & Vel & _).
  fold integrated in Vt, Es.
  exists speed. split; [exact Es |].
  rewrite magnitude_exact in Es. apply Ok_inj in Es.
  unfold Player.threshold in Vel. unfold Player.limit_speed in El.
  unfold Player.MAX_SPEED in *.
  split.
  - intros Fast.
    assert (L : lt (of_int 1500) speed = true) by (apply lt_true; exact Fast).
    assert (N : lt speed (of_int 30) = false) by (apply lt_false; cbn; lra).
    rewrite L in El. rewrite N in Vel.
    rewrite div_Ok in El by (cbn in Fast |- *; lra).
    cbn [bind] in El. apply Ok_inj in El. subst limited.
    cbn in Vel. rewrite Vt in Vel. rewrite Vel. split.
    + rewrite magnitude_exact. f_equal. cbn [fst snd].
      apply scaled_magnitude; [symmetry; exact Es | lra | lra].
    + exists (1500 / speed). split.
      * apply Rdiv_lt_0_compat; lra.
      * f_equal; apply Rmult_comm.
  - intros [Lo Hi].
    assert (L : lt (of_int 1500) speed = false) by (apply lt_false; exact Hi).
    assert (N : lt speed (of_int 30) = false) by (apply lt_false; exact Lo).
    rewrite L in El. rewrite N in Vel. apply Ok_inj in El. subst limited.
    rewrite Vel. exact Vt.
Qed.

(** A player arriving at 3000 along x leaves [update] at 1500. *)
Lemma speed_is_clamped_witness :
  exists self' : Player.t R,
    Player.update
      (Sample.exact_player (Sample.exact_vec 100 100) (Sample.exact_vec 3000 0)
                           (Sample.exact_vec 0 0) (Sample.exact_vec 200 200))
      Actions.none (1 / 60) (Sample.exact_vec 0 0) = Ok self'
    /\ Player.magnitude (Player.velocity self') = Ok (IZR Player.MAX_SPEED).
Proof.
  destruct (update_exact_returns
              (Sample.exact_player (Sample.exact_vec 100 100)
                 (Sample.exact_vec 3000 0) (Sample.exact_vec 0 0)
                 (Sample.exact_vec 200 200))
              Actions.none (1 / 60) (Sample.exact_vec 0 0) eq_refl
              (or_intror (ex_intro _ _ eq_refl))) as [self' E].
  exists self'. split; [exact E |].
  destruct (speed_is_clamped _ _ _ _ _ E) as (speed & Es & Fast & _).
  apply Fast. rewrite magnitude_exact in Es. apply Ok_inj in Es. subst speed.
  cbn [fst snd Player.velocity Player.acceleration Sample.exact_player
       Sample.exact_vec plus times real_Number].
  unfold Player.MAX_SPEED.
  replace ((3000 + 0 * (1 / 60)) * (3000 + 0 * (1 / 60))
           + (0 + 0 * (1 / 60)) * (0 + 0 * (1 / 60)))
    with (3000 * 3000) by ring.
  rewrite sqrt_square by lra. lra.
Defined.
End ExactPlayer.

(** ** The walls, whatever the release of pygame stores *)

Section StoredCoordinates.
Local Open Scope R_scope.

Lemma real_Number_truncates : Stored.number Stored.truncating = real_Number.
Proof. reflexivity. Qed.

Lemma trunc_mono (x y : R) : x <= y -> (Exact.trunc x <= Exact.trunc y)%Z.
Proof.
  intros L. unfold Exact.trunc.
  pose proof (base_Int_part x) as [Bx Cx].
  pose proof (base_Int_part y) as [By Cy].
  pose proof (base_Int_part (- x)) as [Bnx Cnx].
  pose proof (base_Int_part (- y)) as [Bny Cny].
  destruct (Rle_dec 0 x), (Rle_dec 0 y).
  - apply Z.lt_succ_r. apply lt_IZR. rewrite succ_IZR. lra.
  - lra.
  - assert (0 <= Int_part y)%Z.
    { apply Z.lt_succ_r. apply lt_IZR. rewrite succ_IZR. lra. }
    assert (0 <= Int_part (- x))%Z.
    { apply Z.lt_succ_r. apply lt_IZR. rewrite succ_IZR. lra. }
    lia.
  - assert (Int_part (- y) <= Int_part (- x))%Z.
    { apply Z.lt_succ_r. apply lt_IZR. rewrite succ_IZR. lra. }
    lia.
Qed.

Lemma truncating_regular : Stored.regular Stored.truncating.
Proof.
  unfold Stored.regular, Stored.truncating. split; [| split].
  - intros z _. rewrite trunc_int. reflexivity.
  - intros x _. eexists. reflexivity.
  - intros x y a b [_ L] Ea Eb. apply Ok_inj in Ea, Eb. subst a b.
    apply trunc_mono. exact L.
Qed.

Lemma round_floor (x : R) (z : Z) :
  0 <= x -> IZR z - 1 / 2 <= x < IZR z + 1 / 2 ->
  Stored.round_half_away x = z.
Proof.
  intros P [Lo Hi]. unfold Stored.round_half_away.
  destruct (Rle_dec 0 x) as [_ | N]; [| contradiction].
  symmetry. apply Int_part_spec. lra.
Qed.

Lemma round_mono (x y : R) :
  0 <= x -> x <= y ->
  (Stored.round_half_away x <= Stored.round_half_away y)%Z.
Proof.
  intros P L. unfold Stored.round_half_away.
  destruct (Rle_dec 0 x) as [_ | N]; [| contradiction].
  destruct (Rle_dec 0 y) as [_ | N]; [| lra].
  pose proof (base_Int_part (x + 1 / 2)) as [Bx Cx].
  pose proof (base_Int_part (y + 1 / 2)) as [By Cy].
  apply Z.lt_succ_r. apply lt_IZR. rewrite succ_IZR. lra.
Qed.

Lemma rounding_returns (x : R) :
  0 <= x <= IZR Stored.INT_MAX ->
  Stored.rounding x = Ok (Stored.round_half_away x).
Proof.
  intros [P B]. unfold Stored.rounding.
  destruct (Rle_dec (IZR Stored.INT_MIN) x) as [_ | N].
  - destruct (Rle_dec x (IZR Stored.INT_MAX)) as [_ | N];
      [reflexivity | contradiction].
  - contradiction N. unfold Stored.INT_MIN. lra.
Qed.

Lemma rounding_regular : Stored.regular Stored.rounding.
Proof.
  unfold Stored.regular. split; [| split].
  - intros z [P B]. apply IZR_le in P, B.
    rewrite rounding_returns by lra. f_equal.
    apply round_floor; lra.
  - intros x B. rewrite rounding_returns by exact B. eexists. reflexivity.
  - intros x y a b [P L] Ea Eb.
    unfold Stored.rounding in Ea, Eb.
    destruct (Rle_dec (IZR Stored.INT_MIN) x); [| discriminate].
    destruct (Rle_dec x (IZR Stored.INT_MAX)); [| discriminate].
    destruct (Rle_dec (IZR Stored.INT_MIN) y); [| discriminate].
    destruct (Rle_dec y (IZR Stored.INT_MAX)); [| discriminate].
    apply Ok_inj in Ea, Eb. subst a b. apply round_mono; assumption.
Qed.



End StoredCoordinates.

Section AnyRelease.
Local Open Scope R_scope.

End AnyRelease.

Section AnyReleaseRuns.
Local Open Scope R_scope.


(** With the rounding conversion a player of odd width does stick out:
    the 51 x 51 player of the run above is put at [x = 1574.5], which is
    stored as 1575, and its rectangle spans [1550 .. 1601] on the screen of
    width 1600.  With the truncating conversion the same player ends on the
    wall. *)
Lemma odd_player_sticks_out_when_rounded :
  let g : Game.t R := Game.mk 1600 800 [] in
  let player : Player.t R :=
    Player.mk (1590, 400) (90, 0) (0, 0) (Player.AsList (200, 200))
              (51, 51)%Z Bullet.init 0 in
  (exists player' : Player.t R,
     Game.wall_collisions (H := Stored.number Stored.rounding) g player
     = Ok player'
     /\ Player.get_rect (H := Stored.number Stored.rounding) player'
        = Ok (Rect.mk 1550 375 51 51)
     /\ (Rect.right (Rect.mk 1550 375 51 51) > Game.screen_width g)%Z)
  /\ (exists player' : Player.t R,
        Game.wall_collisions g player = Ok player'
        /\ Player.get_rect player' = Ok (Rect.mk 1549 375 51 51)).
Proof.
  intros g player.
  destruct rounding_regular as (Whole & _ & _).
  assert (D2 : Exact.div 51 2 = Ok (51 / 2)).
  { unfold Exact.div.
    destruct (Req_dec_T 2 0) as [N | _]; [lra | reflexivity]. }
  split.
  - eexists. split; [| split; [| reflexivity]].
    + unfold Game.wall_collisions, Player.get_rect, Rect.set_center.
      cbn [to_int Stored.number player Player.position Player.img fst snd
           Rect.of_size Rect.w Rect.h].
      rewrite (Whole 1590%Z), (Whole 400%Z) by (unfold Stored.INT_MAX; lia).
      cbn [bind Rect.left Rect.top Rect.right Rect.bottom Rect.width
           Rect.height Rect.x Rect.y Rect.w Rect.h Game.screen_width
           Game.screen_height g div of_int minus Stored.number].
      change (1590 - Z.shiftr 51 1 <? 0)%Z with false.
      change (400 - Z.shiftr 51 1 <? 0)%Z with false.
      change (1590 - Z.shiftr 51 1 + 51 >? 1600)%Z with true.
      change (400 - Z.shiftr 51 1 + 51 >? 800)%Z with false.
      rewrite D2. reflexivity.
    + unfold Player.get_rect, Rect.set_center.
      cbn [to_int Stored.number Game.bounce Player.set_position
           Player.set_velocity Player.position Player.img player fst snd
           Rect.of_size Rect.w Rect.h].
      rewrite rounding_returns by (unfold Stored.INT_MAX; lra).
      rewrite (Whole 400%Z) by (unfold Stored.INT_MAX; lia).
      rewrite (round_floor (1600 - 51 / 2) 1575) by lra.
      reflexivity.
  - eexists. split.
    + unfold Game.wall_collisions, Player.get_rect, Rect.set_center.
      cbn [to_int real_Number player Player.position Player.img fst snd
           Rect.of_size Rect.w Rect.h].
      rewrite (trunc_int 1590), (trunc_int 400).
      cbn [bind Rect.left Rect.top Rect.right Rect.bottom Rect.width
           Rect.height Rect.x Rect.y Rect.w Rect.h Game.screen_width
           Game.screen_height g div of_int minus real_Number].
      change (1590 - Z.shiftr 51 1 <? 0)%Z with false.
      change (400 - Z.shiftr 51 1 <? 0)%Z with false.
      change (1590 - Z.shiftr 51 1 + 51 >? 1600)%Z with true.
      change (400 - Z.shiftr 51 1 + 51 >? 800)%Z with false.
      rewrite D2. reflexivity.
    + unfold Player.get_rect, Rect.set_center.
      cbn [to_int real_Number Game.bounce Player.set_position
           Player.set_velocity Player.position Player.img player fst snd
           Rect.of_size Rect.w Rect.h].
      rewrite (trunc_int 400).
      rewrite (trunc_floor (1600 - 51 / 2) 1574) by lra.
      reflexivity.
Qed.
End AnyReleaseRuns.

(** ** The two slips of [update], over exact reals *)

Section ExactDefects.
Local Open Scope R_scope.

(** Over exact reals the shoot block raises for every player who shoots an
    unshot bullet with the crosshair on the own position. *)
Lemma shoot_on_own_position_exact (self : Player.t R) (actions : Actions.t) :
  Actions.shoot actions = true ->
  Bullet.was_shot (Player.bullet self) = false ->
  Player.coords (Player.crosshair self) = Player.position self ->
  Player.shoot self actions = Raise ZeroDivisionError.
Proof.
  intros S B C. unfold Player.shoot. rewrite S, B, C. cbn [andb negb].
  rewrite magnitude_exact. cbn [bind fst snd minus real_Number].
  rewrite !Rminus_diag, Rmult_0_l, Rplus_0_l, sqrt_0.
  rewrite div_zero. reflexivity.
Qed.

(** The drag the friction block subtracts, over exact reals: of magnitude
    3000 when the integrated speed is between 30 and [MAX_SPEED], of
    magnitude [3000 * (MAX_SPEED / speed)] when the speed was limited, and
    null below 30. *)
Lemma drag_magnitude_exact (self self' : Player.t R) (actions : Actions.t)
  (delta_t : R) (mouse : R * R) :
  Player.update self actions delta_t mouse = Ok self' ->
  let integrated :=
    (fst (Player.velocity self) + fst (Player.acceleration self) * delta_t,
     snd (Player.velocity self) + snd (Player.acceleration self) * delta_t)%py in
  exists (speed : R) (thrusted : Player.t R),
    Player.magnitude integrated = Ok speed
    /\ Player.update_acceleration self actions
       = Ok (Player.set_acceleration self (Player.acceleration thrusted))
    /\ let drag :=
         (fst (Player.acceleration thrusted) - fst (Player.acceleration self'),
          snd (Player.acceleration thrusted) - snd (Player.acceleration self')) in
       (speed > IZR Player.MAX_SPEED ->
        Player.magnitude drag = Ok (3000 * (IZR Player.MAX_SPEED / speed)))
       /\ (30 <= speed <= IZR Player.MAX_SPEED ->
           Player.magnitude drag = Ok 3000)
       /\ (speed < 30 -> drag = (0, 0)).
Proof.
  intros E integrated.
  destruct (update_velocity_spec _ _ _ _ _ E)
    as (thrusted & speed & limited & slowed
        & Vt & Rp & Es & El & Vel & Ef & Acc).
  fold integrated in Vt, Es.
  exists speed, thrusted. split; [exact Es |]. split; [apply Rp |].
  rewrite magnitude_exact in Es. apply Ok_inj in Es.
  destruct (limit_speed_keeps _ _ _ El) as [_ Al].
  unfold Player.threshold in Ef. unfold Player.limit_speed in El.
  unfold Player.friction in Ef. cbv zeta in Ef.
  unfold Player.MAX_SPEED in *. rewrite Acc. clear Acc Vel.
  destruct integrated as [i0 i1]. cbn [fst snd] in Es.
  destruct (Player.acceleration thrusted) as [a0 a1] eqn:At.
  split; [| split].
  - intros Fast.
    assert (L : lt (of_int 1500) speed = true) by (apply lt_true; exact Fast).
    assert (N : lt speed (of_int 30) = false) by (apply lt_false; cbn; lra).
    assert (D : lt lit_0_1 speed = true) by (apply lt_true; cbn; lra).
    rewrite L in El. rewrite N, D in Ef.
    rewrite div_Ok in El by lra. cbn [bind] in El. apply Ok_inj in El.
    subst limited.
    cbn [Player.set_velocity Player.velocity Player.acceleration] in Ef.
    rewrite Vt, At in Ef. cbn [fst snd] in Ef.
    rewrite !div_Ok in Ef by lra. cbn [bind] in Ef. apply Ok_inj in Ef.
    subst slowed. rewrite magnitude_exact. f_equal.
    cbn [Player.set_acceleration Player.acceleration fst snd minus times
         of_int real_Number].
    assert (M : 0 <= 3000 * (1500 / speed)).
    { apply Rmult_le_pos; [lra |]. apply Rlt_le, Rdiv_lt_0_compat; lra. }
    etransitivity;
      [| exact (scaled_magnitude i0 i1 speed (eq_sym Es) ltac:(lra) _ M)].
    f_equal. field. lra.
  - intros [Lo Hi].
    assert (L : lt (of_int 1500) speed = false) by (apply lt_false; exact Hi).
    assert (N : lt speed (of_int 30) = false) by (apply lt_false; exact Lo).
    assert (D : lt lit_0_1 speed = true) by (apply lt_true; cbn; lra).
    rewrite L in El. rewrite N, D in Ef. apply Ok_inj in El. subst limited.
    rewrite Vt, At in Ef. cbn [fst snd] in Ef.
    rewrite !div_Ok in Ef by lra. cbn [bind] in Ef. apply Ok_inj in Ef.
    subst slowed. rewrite magnitude_exact. f_equal.
    cbn [Player.set_acceleration Player.acceleration fst snd minus times
         of_int real_Number].
    etransitivity;
      [| exact (scaled_magnitude i0 i1 speed (eq_sym Es) ltac:(lra) 3000
                  ltac:(lra))].
    f_equal. field. lra.
  - intros Slow.
    assert (N : lt speed (of_int 30) = true) by (apply lt_true; exact Slow).
    rewrite N in Ef.
    cbn [Player.set_velocity Player.velocity Player.acceleration fst snd] in Ef.
    rewrite Al in Ef. cbn [fst snd] in Ef.
    destruct (lt lit_0_1 speed) eqn:D.
    + apply lt_true in D. cbn [lit_0_1 real_Number] in D.
      rewrite !div_Ok in Ef by lra. cbn [bind] in Ef. apply Ok_inj in Ef.
      subst slowed.
      cbn [Player.set_acceleration Player.acceleration fst snd minus times
           of_int real_Number].
      f_equal; field; lra.
    + apply Ok_inj in Ef. subst slowed.
      cbn [Player.set_velocity Player.acceleration]. rewrite Al.
      cbn [fst snd]. f_equal; ring.
Qed.
End ExactDefects.
(** * Further properties *)

(** ** What [update] leaves alone *)

Section UpdateFrame.
Context {T : Type} `{Number T}.
Local Open Scope py_scope.

(** The blocks of [update] before the crosshair block change neither the
    crosshair, nor the bullet, nor the image. *)
Lemma motion_frame (self moved thrusted limited slowed : Player.t T)
  (actions : Actions.t) (delta_t speed : T) :
  Player.update_position self delta_t = Ok moved ->
  Player.update_acceleration (Player.update_velocity moved delta_t) actions
  = Ok thrusted ->
  Player.limit_speed thrusted speed = Ok limited ->
  Player.friction (Player.threshold limited speed) speed = Ok slowed ->
  Player.crosshair slowed = Player.crosshair self
  /\ Player.bullet slowed = Player.bullet self
  /\ Player.img slowed = Player.img self.
Proof.
  intros Em Et El Ef.
  unfold Player.update_position in Em.
  bind_inv Em. bind_inv Em. bind_inv Em. bind_inv Em.
  apply Ok_inj in Em. subst moved.
  unfold Player.update_acceleration in Et.
  assert (Ft : Player.crosshair thrusted = Player.crosshair self
               /\ Player.bullet thrusted = Player.bullet self
               /\ Player.img thrusted = Player.img self).
  { destruct (lt (of_int 0) _) in Et.
    - bind_inv Et. bind_inv Et. apply Ok_inj in Et. subst thrusted.
      repeat split.
    - apply Ok_inj in Et. subst thrusted. repeat split. }
  unfold Player.limit_speed in El.
  assert (Fl : Player.crosshair limited = Player.crosshair thrusted
               /\ Player.bullet limited = Player.bullet thrusted
               /\ Player.img limited = Player.img thrusted).
  { destruct (lt _ speed) in El.
    - bind_inv El. apply Ok_inj in El. subst limited. repeat split.
    - apply Ok_inj in El. subst limited. repeat split. }
  unfold Player.friction, Player.threshold in Ef.
  assert (Ff : Player.crosshair slowed = Player.crosshair limited
               /\ Player.bullet slowed = Player.bullet limited
               /\ Player.img slowed = Player.img limited).
  { destruct (lt lit_0_1 speed) in Ef; destruct (lt speed (of_int 30)) in Ef.
    - bind_inv Ef. bind_inv Ef. apply Ok_inj in Ef. subst slowed.
      repeat split.
    - bind_inv Ef. bind_inv Ef. apply Ok_inj in Ef. subst slowed.
      repeat split.
    - apply Ok_inj in Ef. subst slowed. repeat split.
    - apply Ok_inj in Ef. subst slowed. repeat split. }
  destruct Ft as (C1 & B1 & I1), Fl as (C2 & B2 & I2), Ff as (C3 & B3 & I3).
  repeat split; congruence.
Qed.

Lemma update_crosshair_frame (self aimed : Player.t T) (actions : Actions.t)
  (mouse : T * T) :
  Player.update_crosshair self actions mouse = Ok aimed ->
  Player.bullet aimed = Player.bullet self
  /\ Player.img aimed = Player.img self
  /\ (Actions.ch_mouse actions = true ->
      Player.crosshair aimed = Player.AsTuple mouse)
  /\ (Actions.ch_mouse actions = false ->
      exists c c' : T * T,
        Player.crosshair self = Player.AsList c
        /\ Player.crosshair aimed = Player.AsList c').
Proof.
  unfold Player.update_crosshair. intros E.
  destruct (Actions.ch_mouse actions).
  - apply Ok_inj in E. subst aimed.
    repeat split; try reflexivity. discriminate.
  - destruct (Player.crosshair self) as [c | c] eqn:C; [| discriminate E].
    apply Ok_inj in E. subst aimed.
    repeat split; try reflexivity; try discriminate.
    intros _. eexists. eexists. split; reflexivity.
Qed.

Lemma shoot_frame (self fired : Player.t T) (actions : Actions.t) :
  Player.shoot self actions = Ok fired ->
  Player.crosshair fired = Player.crosshair self
  /\ Player.img fired = Player.img self
  /\ (Bullet.was_shot (Player.bullet fired) = true
      \/ Player.bullet fired = Player.bullet self)
  /\ (Bullet.was_shot (Player.bullet self) = true ->
      Player.bullet fired = Player.bullet self).
Proof.
  unfold Player.shoot. intros E.
  destruct (Actions.shoot actions); destruct (Bullet.was_shot (Player.bullet self));
    cbn [andb negb] in E.
  - apply Ok_inj in E. subst fired. repeat split; auto.
  - bind_inv E. bind_inv E. bind_inv E. apply Ok_inj in E. subst fired.
    repeat split; auto. discriminate.
  - apply Ok_inj in E. subst fired. repeat split; auto.
  - apply Ok_inj in E. subst fired. repeat split; auto.
Qed.

(** The bullet and the crosshair [update] leaves. *)
Lemma update_frame (self self' : Player.t T) (actions : Actions.t)
  (delta_t : T) (mouse : T * T) :
  Player.update self actions delta_t mouse = Ok self' ->
  exists slowed aimed fired : Player.t T,
    Player.crosshair slowed = Player.crosshair self
    /\ Player.update_crosshair slowed actions mouse = Ok aimed
    /\ Player.bullet aimed = Player.bullet self
    /\ Player.shoot aimed actions = Ok fired
    /\ Player.crosshair self' = Player.crosshair aimed
    /\ Player.img self' = Player.img self
    /\ Player.bullet self' = Bullet.update (Player.bullet fired) delta_t.
Proof.
  intros E.
  destruct (update_blocks _ _ _ _ _ E)
    as (moved & thrusted & speed & limited & slowed & aimed & fired
        & Em & Et & Es & El & Ef & Ea & Eb & ->).
  destruct (motion_frame _ _ _ _ _ _ _ _ Em Et El Ef) as (Cs & Bs & Is).
  destruct (update_crosshair_frame _ _ _ _ Ea) as (Ba & Ia & _).
  destruct (shoot_frame _ _ _ Eb) as (Cf & If & _).
  exists slowed, aimed, fired.
  repeat split; try assumption; cbn [Player.set_bullet Player.crosshair
                                     Player.img Player.bullet]; congruence.
Qed.

(** X1: with [ch_mouse] set, [update] ignores the keys [ch_up], [ch_down],
    [ch_left] and [ch_right]: two action dictionaries that agree on the
    other keys give the same result, and the crosshair of a returned player
    is the tuple of the mouse position. *)
Theorem mouse_overrides_crosshair_keys (self : Player.t T)
  (actions actions' : Actions.t) (delta_t : T) (mouse : T * T) :
  Actions.ch_mouse actions = true ->
  Actions.ch_mouse actions' = true ->
  Actions.up actions' = Actions.up actions ->
  Actions.down actions' = Actions.down actions ->
  Actions.left actions' = Actions.left actions ->
  Actions.right actions' = Actions.right actions ->
  Actions.shoot actions' = Actions.shoot actions ->
  Player.update self actions' delta_t mouse
  = Player.update self actions delta_t mouse
  /\ (forall self' : Player.t T,
        Player.update self actions delta_t mouse = Ok self' ->
        Player.crosshair self' = Player.AsTuple mouse).
Proof.
  intros M M' U D L R S. split.
  - destruct actions, actions'. cbn in *. subst. reflexivity.
  - intros self' E.
    destruct (update_frame _ _ _ _ _ E)
      as (slowed & aimed & fired & _ & Ea & _ & _ & C & _).
    destruct (update_crosshair_frame _ _ _ _ Ea) as (_ & _ & Tu & _).
    rewrite C. exact (Tu M).
Qed.

(** X2: once [update] has followed the mouse, the crosshair is a tuple,
    and an [update] of the returned player without [ch_mouse] never
    returns: moving the crosshair by the keys assigns to an item of the
    tuple. *)
Theorem keys_after_mouse_never_return (self self' : Player.t T)
  (actions : Actions.t) (delta_t : T) (mouse : T * T) :
  Player.update self actions delta_t mouse = Ok self' ->
  Actions.ch_mouse actions = true ->
  forall (actions' : Actions.t) (delta_t' : T) (mouse' : T * T)
         (self'' : Player.t T),
    Actions.ch_mouse actions' = false ->
    Player.update self' actions' delta_t' mouse' <> Ok self''.
Proof.
  intros E M actions' delta_t' mouse' self'' M' E'.
  destruct (update_frame _ _ _ _ _ E)
    as (slowed & aimed & fired & _ & Ea & _ & _ & C & _).
  destruct (update_crosshair_frame _ _ _ _ Ea) as (_ & _ & Tu & _).
  destruct (update_frame _ _ _ _ _ E')
    as (slowed' & aimed' & fired' & Cs' & Ea' & _).
  destruct (update_crosshair_frame _ _ _ _ Ea') as (_ & _ & _ & Li).
  destruct (Li M') as (c & c' & Cl & _).
  rewrite Cs', C, (Tu M) in Cl. discriminate Cl.
Qed.

(** X3: a bullet in flight is not fired again: whatever the actions, the
    bullet [update] leaves is the old one moved by [velocity * delta_t]. *)
Theorem bullet_in_flight_flies_on (self self' : Player.t T)
  (actions : Actions.t) (delta_t : T) (mouse : T * T) :
  Player.update self actions delta_t mouse = Ok self' ->
  Bullet.was_shot (Player.bullet self) = true ->
  Player.bullet self'
  = {| Bullet.position :=
         (fst (Bullet.position (Player.bullet self))
          + fst (Bullet.velocity (Player.bullet self)) * delta_t,
          snd (Bullet.position (Player.bullet self))
          + snd (Bullet.velocity (Player.bullet self)) * delta_t);
       Bullet.velocity := Bullet.velocity (Player.bullet self);
       Bullet.was_shot := true |}.
Proof.
  intros E S.
  destruct (update_frame _ _ _ _ _ E)
    as (slowed & aimed & fired & _ & _ & Ba & Eb & _ & _ & B).
  destruct (shoot_frame _ _ _ Eb) as (_ & _ & _ & Keep).
  rewrite <- Ba in S. rewrite B, (Keep S), Ba.
  rewrite Ba in S. unfold Bullet.update. rewrite S. reflexivity.
Qed.

(** The bullet [update] leaves is shot or the one it found. *)
Lemma update_bullet (self self' : Player.t T) (actions : Actions.t)
  (delta_t : T) (mouse : T * T) :
  Player.update self actions delta_t mouse = Ok self' ->
  Bullet.was_shot (Player.bullet self') = true
  \/ Player.bullet self' = Player.bullet self.
Proof.
  intros E.
  destruct (update_frame _ _ _ _ _ E)
    as (slowed & aimed & fired & _ & _ & Ba & Eb & _ & _ & B).
  destruct (shoot_frame _ _ _ Eb) as (_ & _ & [S | K] & _).
  - left. rewrite B. unfold Bullet.update. rewrite S. reflexivity.
  - rewrite B, K, Ba. unfold Bullet.update.
    destruct (Bullet.was_shot (Player.bullet self)) eqn:S.
    + left. reflexivity.
    + right. reflexivity.
Qed.
End UpdateFrame.

Lemma mouse_overrides_crosshair_keys_witness :
  let self := Sample.player (Sample.vec 100 100) (Sample.vec 0 0)
                (Sample.vec 0 0) (Sample.vec 200 200) in
  Player.update self
    (Actions.mk false false false true false true false true false true)
    Sample.delta_t (Sample.vec 300 400)
  = Player.update self (Sample.pressing true false true)
      Sample.delta_t (Sample.vec 300 400).
Proof.
  intros self.
  apply (mouse_overrides_crosshair_keys self
           (Sample.pressing true false true)
           (Actions.mk false false false true false true false true false
                       true)
           Sample.delta_t (Sample.vec 300 400));
    reflexivity.
Defined.

Lemma keys_after_mouse_never_return_witness :
  exists self' : Player.t Sample.num,
    Player.update
      (Sample.player (Sample.vec 100 100) (Sample.vec 0 0) (Sample.vec 0 0)
                     (Sample.vec 200 200))
      (Sample.pressing false false true) Sample.delta_t (Sample.vec 300 400)
    = Ok self'
    /\ Player.update self' Actions.none Sample.delta_t (Sample.vec 300 400)
       <> Ok self'.
Proof.
  assert (E : exists self' : Player.t Sample.num,
             Player.update
               (Sample.player (Sample.vec 100 100) (Sample.vec 0 0)
                              (Sample.vec 0 0) (Sample.vec 200 200))
               (Sample.pressing false false true) Sample.delta_t
               (Sample.vec 300 400) = Ok self').
  { eexists. vm_compute. reflexivity. }
  destruct E as [self' E]. exists self'. split; [exact E |].
  apply (keys_after_mouse_never_return _ _ _ _ _ E); reflexivity.
Defined.

Lemma bullet_in_flight_flies_on_witness :
  let self : Player.t Sample.num :=
    Player.mk (Sample.vec 100 100) (Sample.vec 0 0) (Sample.vec 0 0)
              (Player.AsList (Sample.vec 200 200)) (50, 50)
              (Bullet.mk (Sample.vec 400 300) (Sample.vec 3000 0) true) 0 in
  exists self' : Player.t Sample.num,
    Player.update self (Sample.pressing false true false) Sample.delta_t
      (Sample.vec 0 0) = Ok self'
    /\ Bullet.position (Player.bullet self') = Sample.vec 450 300
    /\ Bullet.velocity (Player.bullet self') = Sample.vec 3000 0.
Proof.
  intros self.
  assert (E : exists self' : Player.t Sample.num,
             Player.update self (Sample.pressing false true false)
               Sample.delta_t (Sample.vec 0 0) = Ok self').
  { eexists. vm_compute. reflexivity. }
  destruct E as [self' E]. exists self'. split; [exact E |].
  rewrite (bullet_in_flight_flies_on _ _ _ _ _ E eq_refl).
  split; vm_compute; reflexivity.
Defined.

(** ** A tick, player by player *)

Lemma py_index_In {A : Type} (l : list A) (i : Z) (a : A) :
  py_index l i = Ok a -> In a l.
Proof.
  unfold py_index. intros E.
  destruct (_ || _); [discriminate E |].
  destruct (nth_error l _) eqn:N; [| discriminate E].
  apply Ok_inj in E. subst. exact (nth_error_In _ _ N).
Qed.

Lemma Forall_list_set {A : Type} (P : A -> Prop) (l : list A) (i : nat)
  (v : A) :
  Forall P l -> P v -> Forall P (list_set l i v).
Proof.
  intros F Pv. revert i.
  induction F as [| a l Pa F IH]; intros [| i]; simpl; auto.
Qed.

Lemma nth_error_list_set {A : Type} (l : list A) (i : nat) (a v : A) :
  nth_error l i = Some a -> nth_error (list_set l i v) i = Some v.
Proof.
  revert i. induction l as [| b l IH]; intros [| i] E; simpl in *;
    try discriminate; auto.
Qed.

Section TickFrame.
Context {T : Type} `{Number T}.
Local Open Scope py_scope.

Lemma bullet_collisions_frame (self : Game.t T) (i : nat)
  (player player' : Player.t T) :
  Game.bullet_collisions self i player = Ok player' ->
  (Player.score player' = Player.score player
   \/ Player.score player' = (Player.score player + 1)%Z)
  /\ (Player.bullet player' = Player.bullet player
      \/ Player.bullet player' = Bullet.reset_bullet (Player.bullet player)).
Proof.
  intros E.
  destruct (bullet_collisions_inv _ _ _ _ E)
    as (r & other & r_other & Er & Eo & Ero).
  destruct (bullet_collisions_spec _ _ _ _ _ _ Er Eo Ero)
    as (after & E' & Hit & Miss).
  rewrite E in E'. apply Ok_inj in E'. subst after.
  destruct (Rect.colliderect r r_other).
  - destruct (Hit eq_refl) as [S B]. split; [right | right]; assumption.
  - destruct (Miss eq_refl) as [S B]. split; [left; exact S |].
    destruct (Game.outside self r); [right | left]; exact B.
Qed.

(** What the body of the loop does to the list of players: the player at
    index [i] is replaced, by a player with the same score or one more,
    whose bullet is shot, untouched or reset. *)
Lemma step_player_summary (decide_action : nat -> Game.t T -> Actions.t)
  (mouse : T * T) (self self' : Game.t T) (delta_t : T) (i : nat) :
  Game.step_player decide_action mouse self delta_t i = Ok self' ->
  exists before after : Player.t T,
    nth_error (Game.players self) i = Some before
    /\ Game.players self' = list_set (Game.players self) i after
    /\ Game.screen_width self' = Game.screen_width self
    /\ Game.screen_height self' = Game.screen_height self
    /\ (Player.score after = Player.score before
        \/ Player.score after = (Player.score before + 1)%Z)
    /\ (parked_unless_shot before -> parked_unless_shot after).
Proof.
  intros E.
  destruct (step_player_blocks _ _ _ _ _ _ E)
    as (before & updated & aimed & advanced & after
        & Eb & Eu & Ea & Ew & Ec & ->).
  exists before, after.
  destruct (wall_collisions_keeps_score _ _ _ Ew) as [Sw Bw].
  destruct (limit_crosshair_keeps_score _ _ _ Ea) as [Sa Ba].
  pose proof (update_keeps_score _ _ _ _ _ Eu) as Su.
  destruct (bullet_collisions_frame _ _ _ _ Ec) as [Sc Bc].
  split; [apply py_index_nat; exact Eb |].
  split; [cbn [Game.store Game.players]; apply list_set_twice |].
  split; [reflexivity |]. split; [reflexivity |].
  split; [rewrite <- Su, <- Sa, <- Sw; exact Sc |].
  intros P.
  assert (Pa : parked_unless_shot advanced).
  { unfold parked_unless_shot. rewrite Bw, Ba.
    destruct (update_bullet _ _ _ _ _ Eu) as [S | K].
    - rewrite S. discriminate.
    - rewrite K. exact P. }
  unfold parked_unless_shot. destruct Bc as [-> | ->].
  - exact Pa.
  - intros _. right. reflexivity.
Qed.

(** The loop over the players, on the scores: a player whose index is in
    the list once has its score kept or raised by one, the others are left
    as they are. *)
Lemma for_players_scores (decide_action : nat -> Game.t T -> Actions.t)
  (mouse : T * T) (delta_t : T) (indices : list nat) :
  NoDup indices ->
  forall self self' : Game.t T,
    Game.for_players decide_action mouse self delta_t indices = Ok self' ->
    forall (j : nat) (p : Player.t T),
      nth_error (Game.players self) j = Some p ->
      exists p' : Player.t T,
        nth_error (Game.players self') j = Some p'
        /\ (Player.score p <= Player.score p' <= Player.score p + 1)%Z
        /\ (~ In j indices -> p' = p).
Proof.
  induction 1 as [| i rest Ni N IH]; simpl; intros self self' E j p Ej.
  - apply Ok_inj in E. subst self'. exists p.
    split; [exact Ej |]. split; [lia | reflexivity].
  - bind_inv E.
    destruct (step_player_summary _ _ _ _ _ _ Eq)
      as (before & after & Eb & Ep & _ & _ & Sc & _).
    destruct (Nat.eq_dec j i) as [-> | D].
    + assert (Ea : nth_error (Game.players q) i = Some after).
      { rewrite Ep. exact (nth_error_list_set _ _ _ _ Eb). }
      destruct (IH _ _ E _ _ Ea) as (p' & Ep' & _ & Same).
      rewrite (Same Ni) in Ep'. exists after.
      rewrite Ej in Eb. injection Eb as <-.
      split; [exact Ep' |]. split; [lia |]. intros C. contradiction C.
      left. reflexivity.
    + assert (Ea : nth_error (Game.players q) j = Some p).
      { rewrite Ep, list_set_other by auto. exact Ej. }
      destruct (IH _ _ E _ _ Ea) as (p' & Ep' & Bd & Same).
      exists p'. split; [exact Ep' |]. split; [exact Bd |].
      intros C. apply Same. intros I. apply C. right. exact I.
Qed.

Lemma for_players_invariant (decide_action : nat -> Game.t T -> Actions.t)
  (mouse : T * T) (delta_t : T) (indices : list nat) :
  forall self self' : Game.t T,
    Game.for_players decide_action mouse self delta_t indices = Ok self' ->
    (Forall parked_unless_shot (Game.players self) ->
     Forall parked_unless_shot (Game.players self'))
    /\ Game.screen_width self' = Game.screen_width self
    /\ Game.screen_height self' = Game.screen_height self.
Proof.
  induction indices as [| i rest IH]; simpl; intros self self' E.
  - apply Ok_inj in E. subst self'. auto.
  - bind_inv E.
    destruct (step_player_summary _ _ _ _ _ _ Eq)
      as (before & after & Eb & Ep & W & Hh & _ & P).
    destruct (IH _ _ E) as (F & W' & Hh').
    split; [| split; congruence].
    intros F0. apply F. rewrite Ep. apply Forall_list_set; [exact F0 |].
    apply P. rewrite Forall_forall in F0. apply F0.
    exact (nth_error_In _ _ Eb).
Qed.
End TickFrame.

Section TickCollision.
Context {T : Type} `{Number T} `{Infinity T}.
Local Open Scope py_scope.

(** [__parse_player_collision] touches positions and velocities only. *)
Lemma parse_player_collision_frame
  (player1 player2 after1 after2 : Player.t T) :
  Game.parse_player_collision player1 player2 = Ok (after1, after2) ->
  Player.score after1 = Player.score player1
  /\ Player.score after2 = Player.score player2
  /\ Player.bullet after1 = Player.bullet player1
  /\ Player.bullet after2 = Player.bullet player2
  /\ Player.crosshair after1 = Player.crosshair player1
  /\ Player.crosshair after2 = Player.crosshair player2
  /\ Player.acceleration after1 = Player.acceleration player1
  /\ Player.acceleration after2 = Player.acceleration player2.
Proof.
  unfold Game.parse_player_collision. intros E.
  bind_inv E. bind_inv E. bind_inv E.
  destruct (Rect.colliderect q q0).
  - bind_inv E. destruct q2 as [delta_tx delta_ty].
    destruct (Game.collision_axes delta_tx delta_ty) as [[|] [|]];
      cbn in E; apply Ok_inj in E; injection E as <- <-;
      repeat split.
  - apply Ok_inj in E. injection E as <- <-. repeat split.
Qed.

(** What a tick does to the list of players. *)
Lemma update_physics_summary (decide_action : nat -> Game.t T -> Actions.t)
  (mouse : T * T) (self self' : Game.t T) :
  Game.update_physics decide_action mouse self = Ok self' ->
  Game.screen_width self' = Game.screen_width self
  /\ Game.screen_height self' = Game.screen_height self
  /\ (Forall parked_unless_shot (Game.players self) ->
      Forall parked_unless_shot (Game.players self'))
  /\ (forall (j : nat) (p : Player.t T),
        nth_error (Game.players self) j = Some p ->
        exists p' : Player.t T,
          nth_error (Game.players self') j = Some p'
          /\ (Player.score p <= Player.score p' <= Player.score p + 1)%Z).
Proof.
  unfold Game.update_physics. intros E.
  bind_inv E. bind_inv E.
  destruct (for_players_invariant _ _ _ _ _ _ Eq0) as (F & W & Hh).
  pose proof (for_players_scores _ _ _ _ (seq_NoDup _ _) _ _ Eq0) as Sc.
  destruct (length (Game.players q0) =? 2)%nat eqn:L.
  - bind_inv E. bind_inv E. bind_inv E. destruct q3 as [after1 after2].
    apply Ok_inj in E. subst self'.
    destruct (parse_player_collision_frame _ _ _ _ Eq3)
      as (S1 & S2 & B1 & B2 & _).
    apply (py_index_nat _ 0%nat) in Eq1. apply (py_index_nat _ 1%nat) in Eq2.
    cbn [Game.store Game.players Game.screen_width Game.screen_height].
    split; [exact W |]. split; [exact Hh |]. split.
    + intros F0. specialize (F F0). rewrite Forall_forall in F.
      apply Forall_list_set; [apply Forall_list_set |].
      * rewrite Forall_forall. exact F.
      * unfold parked_unless_shot. rewrite B1.
        exact (F _ (nth_error_In _ _ Eq1)).
      * unfold parked_unless_shot. rewrite B2.
        exact (F _ (nth_error_In _ _ Eq2)).
    + intros j p Ej. destruct (Sc j p Ej) as (p' & Ep' & Bd & _).
      destruct j as [| [| j]].
      * exists after1. rewrite list_set_other by discriminate.
        rewrite (nth_error_list_set _ _ _ _ Eq1).
        rewrite Ep' in Eq1. injection Eq1 as <-.
        split; [reflexivity | lia].
      * exists after2.
        assert (E1 : nth_error (list_set (Game.players q0) 0 after1) 1
                     = Some q2).
        { rewrite list_set_other by discriminate. exact Eq2. }
        rewrite (nth_error_list_set _ _ _ _ E1).
        rewrite Ep' in Eq2. injection Eq2 as <-.
        split; [reflexivity | lia].
      * exists p'. rewrite !list_set_other by discriminate.
        split; [exact Ep' | exact Bd].
  - apply Ok_inj in E. subst self'.
    split; [exact W |]. split; [exact Hh |]. split; [exact F |].
    intros j p Ej. destruct (Sc j p Ej) as (p' & Ep' & Bd & _).
    exists p'. split; assumption.
Qed.

(** X4: in one tick the score of every player stays or goes up by exactly
    one, never down and never by more; the players keep their places in
    the list and the screen its size. *)
Theorem tick_scores_at_most_one
  (decide_action : nat -> Game.t T -> Actions.t) (mouse : T * T)
  (self self' : Game.t T) :
  Game.update_physics decide_action mouse self = Ok self' ->
  Game.screen_width self' = Game.screen_width self
  /\ Game.screen_height self' = Game.screen_height self
  /\ length (Game.players self') = length (Game.players self)
  /\ (forall (j : nat) (p : Player.t T),
        nth_error (Game.players self) j = Some p ->
        exists p' : Player.t T,
          nth_error (Game.players self') j = Some p'
          /\ (Player.score p' = Player.score p
              \/ Player.score p' = Player.score p + 1)%Z).
Proof.
  intros E.
  destruct (update_physics_summary _ _ _ _ E) as (W & Hh & _ & Sc).
  split; [exact W |]. split; [exact Hh |].
  split; [exact (update_physics_players _ _ _ _ E) |].
  intros j p Ej. destruct (Sc j p Ej) as (p' & Ep' & Bd).
  exists p'. split; [exact Ep' | lia].
Qed.

(** X5: in every reachable game a bullet that is not shot is parked: it is
    the bullet of [__init__], at [[-100, -100]], or the bullet of
    [reset_bullet], at [[-100, 100]], with velocity [[0, 0]]; and no score
    is negative. *)
Theorem unshot_bullets_are_parked (player_bmp : Z * Z) (g : Game.t T) :
  reachable player_bmp g ->
  Forall
    (fun player : Player.t T =>
       (0 <= Player.score player)%Z
       /\ (Bullet.was_shot (Player.bullet player) = false ->
           Bullet.velocity (Player.bullet player) = (of_int 0, of_int 0)
           /\ (Bullet.position (Player.bullet player)
               = (of_int (-100), of_int (-100))
               \/ Bullet.position (Player.bullet player)
                  = (of_int (-100), of_int 100))))
    (Game.players g).
Proof.
  intros R.
  assert (I : Forall (fun p => (0 <= Player.score p)%Z
                               /\ parked_unless_shot p) (Game.players g)).
  { induction R as [screen_sz | g position R IH | g g' decide mouse R IH E].
    - constructor.
    - unfold Game.add_player.
      destruct (length (Game.players g) <? 2)%nat; [| exact IH].
      cbn [Game.players]. apply Forall_app. split; [exact IH |].
      constructor; [| constructor]. split; [cbn; lia |].
      intros _. left. reflexivity.
    - destruct (update_physics_summary _ _ _ _ E) as (_ & _ & F & Sc).
      assert (F' : Forall parked_unless_shot (Game.players g')).
      { apply F. eapply Forall_impl; [| exact IH]. intros p [_ P]. exact P. }
      rewrite Forall_forall in F', IH. rewrite Forall_forall.
      intros p' Ip'. split; [| exact (F' _ Ip')].
      destruct (In_nth_error _ _ Ip') as [j Ej].
      assert (Lj : (j < length (Game.players g))%nat).
      { rewrite <- (update_physics_players _ _ _ _ E).
        apply nth_error_Some. rewrite Ej. discriminate. }
      destruct (nth_error (Game.players g) j) as [p |] eqn:Ep;
        [| apply nth_error_None in Ep; lia].
      destruct (Sc j p Ep) as (p'' & Ep'' & Bd).
      rewrite Ej in Ep''. injection Ep'' as <-.
      destruct (IH p (nth_error_In _ _ Ep)) as [Pos _]. lia. }
  eapply Forall_impl; [| exact I].
  intros p [Pos P]. split; [exact Pos |]. intros S.
  destruct (P S) as [-> | ->]; cbn; auto.
Qed.

(** X6: a game with exactly one player cannot tick: [update_physics] looks
    for the other player at [players[1]] and never returns. *)
Theorem one_player_cannot_tick
  (decide_action : nat -> Game.t T -> Actions.t) (mouse : T * T)
  (self self' : Game.t T) :
  length (Game.players self) = 1%nat ->
  Game.update_physics decide_action mouse self <> Ok self'.
Proof.
  intros L E. unfold Game.update_physics in E.
  bind_inv E. bind_inv E. rewrite L in Eq0. cbn [seq Game.for_players] in Eq0.
  bind_inv Eq0.
  destruct (step_player_blocks _ _ _ _ _ _ Eq1)
    as (before & updated & aimed & advanced & after
        & Eb & Eu & Ea & Ew & Ec & _).
  destruct (bullet_collisions_inv _ _ _ _ Ec) as (r & other & ro & _ & Eo & _).
  unfold py_index in Eo. cbn [Game.store Game.players] in Eo.
  rewrite list_set_length, L in Eo. cbn in Eo. discriminate Eo.
Qed.
End TickCollision.

Lemma tick_scores_at_most_one_witness :
  exists (g' : Game.t Sample.num) (p' : Player.t Sample.num),
    Game.update_physics Sample.idle (Sample.vec 0 0) Sample.script_game
    = Ok g'
    /\ nth_error (Game.players g') 1 = Some p'
    /\ (Player.score p' = 0 \/ Player.score p' = 0 + 1)%Z.
Proof.
  assert (E : exists g' : Game.t Sample.num,
             Game.update_physics Sample.idle (Sample.vec 0 0)
               Sample.script_game = Ok g').
  { eexists. vm_compute. reflexivity. }
  destruct E as [g' E].
  destruct (tick_scores_at_most_one _ _ _ _ E) as (_ & _ & _ & Scores).
  destruct (Scores 1%nat
              (Player.init (Some (Sample.vec 1600 800)) (50, 50)) eq_refl)
    as (p' & Ep & Sp).
  exists g', p'. split; [exact E |]. split; [exact Ep | exact Sp].
Defined.

Lemma unshot_bullets_are_parked_witness :
  reachable (50, 50) Sample.script_game
  /\ Forall (fun player : Player.t Sample.num => (0 <= Player.score player)%Z)
       (Game.players Sample.script_game).
Proof.
  assert (R : reachable (50, 50) Sample.script_game).
  { unfold Sample.script_game. cbv zeta.
    apply reach_add_player. apply reach_add_player. apply reach_init. }
  split; [exact R |].
  apply (Forall_impl _ (fun player H => proj1 H)
           (unshot_bullets_are_parked (50, 50) Sample.script_game R)).
Defined.

Lemma one_player_cannot_tick_witness :
  let g : Game.t Sample.num :=
    Game.add_player (50, 50) (Game.init None) (Some (Sample.vec 100 100)) in
  length (Game.players g) = 1%nat
  /\ Game.update_physics Sample.idle (Sample.vec 0 0) g <> Ok g.
Proof.
  intros g. split; [reflexivity |].
  apply (one_player_cannot_tick Sample.idle (Sample.vec 0 0) g g).
  reflexivity.
Defined.

(** ** The loop of the script *)

Section ScriptLoop.
Context {T : Type} `{Number T} `{Infinity T}.
Local Open Scope py_scope.

Lemma two_players_after_tick
  (decide_action : nat -> Game.t T -> Actions.t) (mouse : T * T)
  (self self' : Game.t T) (p0 p1 : Player.t T) :
  Game.players self = [p0; p1] ->
  Game.update_physics decide_action mouse self = Ok self' ->
  exists q0 q1 : Player.t T,
    Game.players self' = [q0; q1]
    /\ (Player.score p0 <= Player.score q0 <= Player.score p0 + 1)%Z
    /\ (Player.score p1 <= Player.score q1 <= Player.score p1 + 1)%Z.
Proof.
  intros P E.
  destruct (update_physics_summary _ _ _ _ E) as (_ & _ & _ & Sc).
  pose proof (update_physics_players _ _ _ _ E) as L. rewrite P in L, Sc.
  destruct (Sc 0%nat p0 eq_refl) as (q0 & E0 & B0).
  destruct (Sc 1%nat p1 eq_refl) as (q1 & E1 & B1).
  destruct (Game.players self') as [| a [| b [| c l]]]; try discriminate L.
  cbn in E0, E1. injection E0 as ->. injection E1 as ->.
  exists q0, q1. auto.
Qed.

(** X7: the loop of the script, started on two players whose scores do not
    exceed [max_score], never lets a score pass [max_score] and never
    lowers one; it ends as game over exactly when a score is [max_score],
    so the winner stands at exactly 10. *)
Theorem loop_stops_at_max_score (turns : list Script.turn)
  (key_pressed : Events.dict) (game : Game.t T) (p0 p1 : Player.t T)
  (e : Script.ending) :
  Game.players game = [p0; p1] ->
  (Player.score p0 <= Script.max_score)%Z ->
  (Player.score p1 <= Script.max_score)%Z ->
  Script.main_loop turns key_pressed game = Ok e ->
  exists q0 q1 : Player.t T,
    Game.players (Script.final e) = [q0; q1]
    /\ (Player.score p0 <= Player.score q0 <= Script.max_score)%Z
    /\ (Player.score p1 <= Player.score q1 <= Script.max_score)%Z
    /\ ((exists k g, e = Script.GameOver k g)
        <-> (Player.score q0 = Script.max_score
             \/ Player.score q1 = Script.max_score)).
Proof.
  assert (I0 : forall a b : Player.t T, py_index [a; b] 0 = Ok a)
    by reflexivity.
  assert (I1 : forall a b : Player.t T, py_index [a; b] 1 = Ok b)
    by reflexivity.
  assert (Over : forall k g, exists k' g',
             Script.GameOver k g = Script.GameOver (T := T) k' g')
    by eauto.
  revert key_pressed game p0 p1.
  induction turns as [| t rest IH]; intros key_pressed game p0 p1 P B0 B1 E;
    cbn [Script.main_loop] in E; rewrite P, I0 in E; cbn [bind] in E;
    (destruct (Player.score p0 <? Script.max_score)%Z eqn:C0;
     [rewrite I1 in E; cbn [bind] in E;
      destruct (Player.score p1 <? Script.max_score)%Z eqn:C1 |]);
    rewrite ?Z.ltb_lt, ?Z.ltb_ge in *.
  - apply Ok_inj in E. subst e. exists p0, p1. cbn [Script.final].
    split; [exact P |]. split; [lia |]. split; [lia |].
    split; [intros (k & g & D); discriminate D | lia].
  - apply Ok_inj in E. subst e. exists p0, p1. cbn [Script.final].
    split; [exact P |]. split; [lia |]. split; [lia |].
    split; [lia | intros _; apply Over].
  - apply Ok_inj in E. subst e. exists p0, p1. cbn [Script.final].
    split; [exact P |]. split; [lia |]. split; [lia |].
    split; [lia | intros _; apply Over].
  - destruct (Events.handle_events key_pressed (Script.events t))
      as [key_pressed' |].
    + bind_inv E. bind_inv E.
      destruct (two_players_after_tick _ _ _ _ _ _ P Eq)
        as (a0 & a1 & P' & S0 & S1).
      destruct (IH _ _ _ _ P' ltac:(lia) ltac:(lia) E)
        as (r0 & r1 & Pf & R0 & R1 & Ov).
      exists r0, r1. split; [exact Pf |].
      split; [lia |]. split; [lia | exact Ov].
    + apply Ok_inj in E. subst e. exists p0, p1. cbn [Script.final].
      split; [exact P |]. split; [lia |]. split; [lia |].
      split; [intros (k & g & D); discriminate D | lia].
  - apply Ok_inj in E. subst e. exists p0, p1. cbn [Script.final].
    split; [exact P |]. split; [lia |]. split; [lia |].
    split; [lia | intros _; apply Over].
  - apply Ok_inj in E. subst e. exists p0, p1. cbn [Script.final].
    split; [exact P |]. split; [lia |]. split; [lia |].
    split; [lia | intros _; apply Over].
Qed.
End ScriptLoop.

Lemma loop_stops_at_max_score_witness :
  let turns : list (Script.turn (T := Sample.num)) :=
    [ {| Script.events := [Events.KEYDOWN Events.K_UP];
         Script.decide_action := fun _ => Sample.idle;
         Script.mouse := Sample.vec 0 0 |} ] in
  exists (e : Script.ending) (q0 q1 : Player.t Sample.num),
    Script.main_loop turns Events.init Sample.script_game = Ok e
    /\ Game.players (Script.final e) = [q0; q1]
    /\ (0 <= Player.score q0 <= Script.max_score)%Z
    /\ (0 <= Player.score q1 <= Script.max_score)%Z.
Proof.
  intros turns.
  assert (E : exists e : Script.ending,
             Script.main_loop turns Events.init Sample.script_game = Ok e).
  { eexists. vm_compute. reflexivity. }
  destruct E as [e E].
  assert (P : Game.players Sample.script_game
              = [Player.init (Some (Sample.vec 100 100)) (50, 50);
                 Player.init (Some (Sample.vec 1600 800)) (50, 50)]).
  { reflexivity. }
  assert (S0 : (0 <= Script.max_score)%Z) by (unfold Script.max_score; lia).
  destruct (loop_stops_at_max_score turns Events.init Sample.script_game
              _ _ e P S0 S0 E)
    as (q0 & q1 & Pf & B0 & B1 & _).
  exists e, q0, q1. split; [exact E |]. split; [exact Pf |].
  split; [exact B0 | exact B1].
Defined.

(** ** Events and the human binding *)

Section KeyPressed.
Import Events.

Lemma get_set_same (d : dict) (k : name) (v : bool) :
  get (set d k v) k = Some v.
Proof.
  induction d as [| [k' v'] d IH]; simpl.
  - destruct (name_eq_dec k k); [reflexivity | contradiction].
  - destruct (name_eq_dec k k') as [-> | N]; simpl.
    + destruct (name_eq_dec k' k'); [reflexivity | contradiction].
    + destruct (name_eq_dec k k'); [contradiction | exact IH].
Qed.

Lemma get_set_other (d : dict) (k k' : name) (v : bool) :
  k' <> k -> get (set d k v) k' = get d k'.
Proof.
  intros N. induction d as [| [k0 v0] d IH]; simpl.
  - destruct (name_eq_dec k' k); [contradiction | reflexivity].
  - destruct (name_eq_dec k k0) as [-> | N0]; simpl.
    + destruct (name_eq_dec k' k0); [contradiction | reflexivity].
    + destruct (name_eq_dec k' k0); [reflexivity | exact IH].
Qed.

Lemma mem_In (d : dict) (k : name) : mem d k = true <-> In k (keys d).
Proof.
  unfold mem. induction d as [| [k' v'] d IH]; simpl.
  - split; [discriminate | contradiction].
  - destruct (name_eq_dec k k') as [-> | N].
    + split; auto.
    + rewrite IH. split; [auto | intros [E | I]; [congruence | exact I]].
Qed.

Lemma keys_set (d : dict) (k : name) (v : bool) :
  In k (keys d) -> keys (set d k v) = keys d.
Proof.
  induction d as [| [k' v'] d IH]; simpl; intros I; [contradiction |].
  destruct (name_eq_dec k k') as [-> | N]; simpl; [reflexivity |].
  f_equal. apply IH. destruct I as [E | I]; [congruence | exact I].
Qed.

(** An event adds no key to a dictionary that has ['mouse_click']. *)
Lemma handle_event_keys (key_pressed key_pressed' : dict) (e : event) :
  In mouse_click (keys key_pressed) ->
  handle_event key_pressed e = Continue key_pressed' ->
  keys key_pressed' = keys key_pressed.
Proof.
  intros M E. destruct e; simpl in E; try discriminate E;
    injection E as <-; try reflexivity.
  - destruct (mem key_pressed (Key key)) eqn:I; [| reflexivity].
    apply keys_set, mem_In, I.
  - destruct (mem key_pressed (Key key)) eqn:I; [| reflexivity].
    apply keys_set, mem_In, I.
  - destruct (button =? 1)%Z; [apply keys_set, M | reflexivity].
  - destruct (button =? 1)%Z; [apply keys_set, M | reflexivity].
Qed.

Lemma handle_events_keys (events : list event) :
  forall key_pressed key_pressed' : dict,
    In mouse_click (keys key_pressed) ->
    handle_events key_pressed events = Continue key_pressed' ->
    keys key_pressed' = keys key_pressed.
Proof.
  induction events as [| e rest IH]; simpl; intros kp kp' M E.
  - injection E as <-. reflexivity.
  - destruct (handle_event kp e) as [kp1 |] eqn:E1; [| discriminate E].
    pose proof (handle_event_keys _ _ _ M E1) as K1.
    rewrite (IH kp1 kp' ltac:(rewrite K1; exact M) E). exact K1.
Qed.

Lemma handle_events_app (events events' : list event) :
  forall key_pressed : dict,
    handle_events key_pressed (events ++ events')
    = match handle_events key_pressed events with
      | Continue key_pressed' => handle_events key_pressed' events'
      | SystemExit => SystemExit
      end.
Proof.
  induction events as [| e rest IH]; simpl; intros kp; [reflexivity |].
  destruct (handle_event kp e); [apply IH | reflexivity].
Qed.

(** An event that is neither a press nor a release of [k] leaves the entry
    of [Key k] as it is. *)
Lemma handle_event_other_key (key_pressed key_pressed' : dict) (e : event)
  (k : pygame_key) :
  e <> KEYDOWN k -> e <> KEYUP k ->
  handle_event key_pressed e = Continue key_pressed' ->
  get key_pressed' (Key k) = get key_pressed (Key k).
Proof.
  intros D U E. destruct e; simpl in E; try discriminate E;
    injection E as <-; try reflexivity.
  - destruct (mem key_pressed (Key key)); [| reflexivity].
    apply get_set_other. congruence.
  - destruct (mem key_pressed (Key key)); [| reflexivity].
    apply get_set_other. congruence.
  - destruct (button =? 1)%Z; [apply get_set_other; discriminate |].
    reflexivity.
  - destruct (button =? 1)%Z; [apply get_set_other; discriminate |].
    reflexivity.
Qed.

Lemma handle_events_other_key (events : list event) (k : pygame_key) :
  (forall e : event, In e events -> e <> KEYDOWN k /\ e <> KEYUP k) ->
  forall key_pressed key_pressed' : dict,
    handle_events key_pressed events = Continue key_pressed' ->
    get key_pressed' (Key k) = get key_pressed (Key k).
Proof.
  induction events as [| e rest IH]; simpl; intros Q kp kp' E.
  - injection E as <-. reflexivity.
  - destruct (handle_event kp e) as [kp1 |] eqn:E1; [| discriminate E].
    rewrite (IH (fun e' I => Q e' (or_intror I)) _ _ E).
    destruct (Q e (or_introl eq_refl)) as [D U].
    exact (handle_event_other_key _ _ _ _ D U E1).
Qed.

(** X8: [handle_events] exits exactly when the queue holds a [QUIT]; when
    it does not, it returns a dictionary with the same keys, in the same
    order, as the one it was given (['mouse_click'] being one of them): no
    event adds a key. *)
Theorem handle_events_quits_or_keeps_keys (key_pressed : dict)
  (events : list event) :
  (handle_events key_pressed events = SystemExit <-> In QUIT events)
  /\ (In mouse_click (keys key_pressed) ->
      forall key_pressed' : dict,
        handle_events key_pressed events = Continue key_pressed' ->
        keys key_pressed' = keys key_pressed).
Proof.
  split.
  - revert key_pressed.
    induction events as [| e rest IH]; simpl; intros kp.
    + split; [discriminate | contradiction].
    + destruct e; simpl; rewrite ?IH;
        try (split; [auto | intros [D | I]; [discriminate D | exact I]]).
      split; auto.
  - intros M kp' E. exact (handle_events_keys _ _ _ M E).
Qed.

(** X9: the last event on a key wins.  For a key of the dictionary, after
    a queue in which a press of the key is followed by no other press or
    release of it the entry is [True], after a release followed by none it
    is [False], and a queue without press or release of it leaves the entry
    as it was. *)
Theorem last_key_event_wins (key_pressed key_pressed' : dict)
  (k : pygame_key) (before after : list event) :
  mem key_pressed (Key k) = true ->
  In mouse_click (keys key_pressed) ->
  (forall e : event, In e after -> e <> KEYDOWN k /\ e <> KEYUP k) ->
  (handle_events key_pressed (before ++ KEYDOWN k :: after)
   = Continue key_pressed' ->
   get key_pressed' (Key k) = Some true)
  /\ (handle_events key_pressed (before ++ KEYUP k :: after)
      = Continue key_pressed' ->
      get key_pressed' (Key k) = Some false)
  /\ (handle_events key_pressed after = Continue key_pressed' ->
      get key_pressed' (Key k) = get key_pressed (Key k)).
Proof.
  intros I M Q.
  assert (Step : forall (v : bool) (e : event),
             (forall kp, handle_event kp e
                         = Continue (if mem kp (Key k)
                                     then set kp (Key k) v else kp)) ->
             handle_events key_pressed (before ++ e :: after)
             = Continue key_pressed' ->
             get key_pressed' (Key k) = Some v).
  { intros v e He E. rewrite handle_events_app in E.
    destruct (handle_events key_pressed before) as [kp1 |] eqn:E1;
      [| discriminate E].
    simpl in E. rewrite He in E.
    pose proof (handle_events_keys _ _ _ M E1) as K1.
    assert (I1 : mem kp1 (Key k) = true).
    { apply mem_In. rewrite K1. apply mem_In. exact I. }
    rewrite I1 in E.
    rewrite (handle_events_other_key _ _ Q _ _ E).
    apply get_set_same. }
  split; [apply Step; reflexivity |].
  split; [apply Step; reflexivity |].
  exact (handle_events_other_key _ _ Q _ _).
Qed.

(** X10: the human binding never raises [KeyError] on a dictionary with the
    keys of [Game.__init__]; it always sets [ch_mouse], and it reads the
    four arrow keys and ['mouse_click'] only: the keys w, a, s, d and space,
    any other key and any mouse button but the first change nothing in the
    actions it returns. *)
Theorem human_binding_reads_arrows_and_click (key_pressed : dict) :
  keys key_pressed = keys init ->
  (exists actions : Actions.t,
     Binding.create_human_player_binding key_pressed = Some actions
     /\ Actions.ch_mouse actions = true
     /\ Some (Actions.up actions) = get key_pressed (Key K_UP)
     /\ Some (Actions.down actions) = get key_pressed (Key K_DOWN)
     /\ Some (Actions.left actions) = get key_pressed (Key K_LEFT)
     /\ Some (Actions.right actions) = get key_pressed (Key K_RIGHT)
     /\ Some (Actions.shoot actions) = get key_pressed mouse_click)
  /\ (forall (e : event) (key_pressed' : dict),
        (forall k, In k [K_UP; K_DOWN; K_LEFT; K_RIGHT] ->
                   e <> KEYDOWN k /\ e <> KEYUP k) ->
        e <> MOUSEBUTTONDOWN 1 -> e <> MOUSEBUTTONUP 1 ->
        handle_event key_pressed e = Continue key_pressed' ->
        Binding.create_human_player_binding key_pressed'
        = Binding.create_human_player_binding key_pressed).
Proof.
  intros K.
  assert (Has : forall n, In n (keys init) ->
                          exists v, get key_pressed n = Some v).
  { intros n I. rewrite <- K in I. apply mem_In in I. unfold mem in I.
    destruct (get key_pressed n) as [v |]; [eauto | discriminate I]. }
  split.
  - destruct (Has (Key K_UP)) as [u Eu]; [cbn; tauto |].
    destruct (Has (Key K_DOWN)) as [d Ed]; [cbn; tauto |].
    destruct (Has (Key K_LEFT)) as [l El]; [cbn; tauto |].
    destruct (Has (Key K_RIGHT)) as [r Er]; [cbn; tauto |].
    destruct (Has mouse_click) as [s Es]; [cbn; tauto |].
    unfold Binding.create_human_player_binding.
    rewrite Eu, Ed, El, Er, Es. eexists. repeat split.
  - intros e kp' Arrows Down Up E.
    assert (G : forall k, In k [K_UP; K_DOWN; K_LEFT; K_RIGHT] ->
                          get kp' (Key k) = get key_pressed (Key k)).
    { intros k I. destruct (Arrows k I) as [D U].
      exact (handle_event_other_key _ _ _ _ D U E). }
    assert (C : get kp' mouse_click = get key_pressed mouse_click).
    { destruct e; simpl in E; try discriminate E; injection E as <-;
        try reflexivity.
      - destruct (mem key_pressed (Key key)); [| reflexivity].
        apply get_set_other. discriminate.
      - destruct (mem key_pressed (Key key)); [| reflexivity].
        apply get_set_other. discriminate.
      - destruct (Z.eqb_spec button 1) as [-> | N]; [| reflexivity].
        contradiction Down. reflexivity.
      - destruct (Z.eqb_spec button 1) as [-> | N]; [| reflexivity].
        contradiction Up. reflexivity. }
    unfold Binding.create_human_player_binding.
    rewrite !G, C by (cbn; tauto). reflexivity.
Qed.
End KeyPressed.

Lemma last_key_event_wins_witness :
  exists key_pressed' : Events.dict,
    Events.handle_events Events.init
      ([Events.KEYUP Events.K_UP; Events.MOUSEBUTTONDOWN 1]
       ++ Events.KEYDOWN Events.K_UP
          :: [Events.KEYDOWN Events.K_w; Events.KEYUP (Events.K_other 27)])
    = Events.Continue key_pressed'
    /\ Events.get key_pressed' (Events.Key Events.K_UP) = Some true.
Proof.
  eexists. split; [vm_compute; reflexivity |].
  apply (last_key_event_wins Events.init _ Events.K_UP
           [Events.KEYUP Events.K_UP; Events.MOUSEBUTTONDOWN 1]
           [Events.KEYDOWN Events.K_w; Events.KEYUP (Events.K_other 27)]).
  - reflexivity.
  - vm_compute. tauto.
  - intros e [<- | [<- | []]]; split; discriminate.
  - vm_compute. reflexivity.
Defined.

Lemma human_binding_reads_arrows_and_click_witness :
  exists actions : Actions.t,
    Binding.create_human_player_binding Events.init = Some actions
    /\ Actions.ch_mouse actions = true
    /\ Some (Actions.shoot actions)
       = Events.get Events.init Events.mouse_click.
Proof.
  destruct (human_binding_reads_arrows_and_click Events.init eq_refl)
    as ((actions & E & M & _ & _ & _ & _ & S) & _).
  exists actions. split; [exact E |]. split; [exact M | exact S].
Defined.

(** ** The random and the AI binding *)

Section RandomBindings.
Context {T : Type} `{Number T}.
Local Open Scope py_scope.

(** X11: a random or AI binding whose draws never fall below [prob_action]
    (as with [prob_action = 0]) repeats itself.  Called on the state a new
    function has, or on a state in which no movement, shoot or crosshair key
    is set, the random binding sets no key at all and leaves such a state
    again; the AI binding sets no movement key, not [shoot] and not
    [ch_mouse], and keeps what it returns as its state: the player it
    steers never moves and never shoots. *)
Theorem quiet_bindings_stay_quiet (prob_action : T)
  (old_actions : option Actions.t) (rand : nat -> T) :
  (forall k : nat, (rand k <? prob_action) = false) ->
  old_actions = None
  \/ (exists ch_mouse : bool,
        old_actions
        = Some (Actions.mk false false false false false
                           false false false false ch_mouse)) ->
  Binding.create_random_player_binding prob_action old_actions rand
  = (Actions.none, Some Actions.none)
  /\ (forall (game_instance : Game.t T) (actions : Actions.t)
             (new_actions : option Actions.t),
        Binding.create_simple_ai_binding prob_action old_actions rand
          game_instance = Ok (actions, new_actions) ->
        new_actions = Some actions
        /\ Actions.up actions = false /\ Actions.down actions = false
        /\ Actions.left actions = false /\ Actions.right actions = false
        /\ Actions.shoot actions = false
        /\ Actions.ch_mouse actions = false).
Proof.
  intros Q O.
  assert (F : forall k b, Binding.flip prob_action (rand k) b = b).
  { intros k b. unfold Binding.flip. rewrite Q. reflexivity. }
  assert (Old : exists m, Binding.old_or_false old_actions
                          = Actions.mk false false false false false
                                       false false false false m).
  { destruct O as [-> | [m ->]]; eexists; reflexivity. }
  destruct Old as [m Old]. split.
  - unfold Binding.create_random_player_binding. rewrite Old.
    cbn. rewrite !F. reflexivity.
  - intros g actions new_actions E.
    unfold Binding.create_simple_ai_binding in E. rewrite Old in E.
    cbn in E. rewrite !F in E.
    bind_inv E. bind_inv E. apply Ok_inj in E. injection E as <- <-.
    repeat split.
Qed.
End RandomBindings.

Section AiCrosshair.
Local Open Scope R_scope.

(** One axis of the crosshair under the AI binding: it steps by 30 toward
    the target. *)
Lemma ai_axis (c t : R) :
  let step := IZR (30 * (int_of_bool (lt c t) - int_of_bool (lt t c))) in
  (30 <= Rabs (c - t) -> Rabs (c + step - t) = Rabs (c - t) - 30)
  /\ (Rabs (c - t) <= 30 -> Rabs (c + step - t) <= 30).
Proof.
  cbn [lt real_Number]. unfold Exact.lt.
  destruct (Rlt_dec c t) as [A | A]; destruct (Rlt_dec t c) as [B | B];
    cbn [int_of_bool]; try lra.
  - change (IZR (30 * (1 - 0))) with 30. unfold Rabs.
    split; intros Hd;
      destruct (Rcase_abs (c - t)); destruct (Rcase_abs (c + 30 - t)); lra.
  - change (IZR (30 * (0 - 1))) with (-30). unfold Rabs.
    split; intros Hd;
      destruct (Rcase_abs (c - t)); destruct (Rcase_abs (c + -30 - t)); lra.
  - change (IZR (30 * (0 - 0))) with 0. unfold Rabs.
    split; intros Hd;
      destruct (Rcase_abs (c - t)); destruct (Rcase_abs (c + 0 - t)); lra.
Qed.

(** X12: over exact reals, the AI binding makes the second player's
    crosshair close in on the first player: on each axis, the crosshair
    block of [update] brings a crosshair at least 30 away from the first
    player's position exactly 30 nearer, and keeps a crosshair within 30
    within 30. *)
Theorem ai_crosshair_closes_in (prob_action : R)
  (old_actions new_actions : option Actions.t) (rand : nat -> R)
  (game_instance : Game.t R) (target me : Player.t R) (c mouse : R * R)
  (actions : Actions.t) :
  Game.players game_instance = [target; me] ->
  Player.crosshair me = Player.AsList c ->
  Binding.create_simple_ai_binding prob_action old_actions rand game_instance
  = Ok (actions, new_actions) ->
  exists c' : R * R,
    Player.update_crosshair me actions mouse
    = Ok (Player.set_crosshair me (Player.AsList c'))
    /\ (30 <= Rabs (fst c - fst (Player.position target)) ->
        Rabs (fst c' - fst (Player.position target))
        = Rabs (fst c - fst (Player.position target)) - 30)
    /\ (Rabs (fst c - fst (Player.position target)) <= 30 ->
        Rabs (fst c' - fst (Player.position target)) <= 30)
    /\ (30 <= Rabs (snd c - snd (Player.position target)) ->
        Rabs (snd c' - snd (Player.position target))
        = Rabs (snd c - snd (Player.position target)) - 30)
    /\ (Rabs (snd c - snd (Player.position target)) <= 30 ->
        Rabs (snd c' - snd (Player.position target)) <= 30).
Proof.
  intros P C E.
  unfold Binding.create_simple_ai_binding in E. rewrite P in E.
  change (py_index [target; me] 0) with (Ok target) in E.
  change (py_index [target; me] 1) with (Ok me) in E.
  cbn [bind] in E. apply Ok_inj in E. injection E as <- <-.
  rewrite C. cbn [Player.coords].
  unfold Player.update_crosshair.
  cbn [Actions.ch_mouse Actions.ch_left Actions.ch_right Actions.ch_up
       Actions.ch_down].
  rewrite C. eexists. split; [reflexivity |].
  cbn [fst snd plus of_int real_Number].
  destruct (ai_axis (fst c) (fst (Player.position target))) as [X1 X2].
  destruct (ai_axis (snd c) (snd (Player.position target))) as [Y1 Y2].
  cbn zeta in X1, X2, Y1, Y2. auto.
Qed.
End AiCrosshair.

Lemma quiet_bindings_stay_quiet_witness :
  Binding.create_random_player_binding (of_int 0) None
    (fun _ : nat => Sample.delta_t)
  = (Actions.none, Some Actions.none).
Proof.
  apply (quiet_bindings_stay_quiet (T := Sample.num) (of_int 0) None
           (fun _ : nat => Sample.delta_t)).
  - intros k. vm_compute. reflexivity.
  - left. reflexivity.
Defined.

Lemma ai_crosshair_closes_in_witness :
  let target := Sample.exact_player (Sample.exact_vec 100 100)
                  (Sample.exact_vec 0 0) (Sample.exact_vec 0 0)
                  (Sample.exact_vec 200 200) in
  let me := Sample.exact_player (Sample.exact_vec 1600 800)
              (Sample.exact_vec 0 0) (Sample.exact_vec 0 0)
              (Sample.exact_vec 200 200) in
  let actions :=
    Actions.mk false false false false false true false true false false in
  Binding.create_simple_ai_binding 0%R None (fun _ : nat => 1%R)
    (Game.mk 1600 800 [target; me]) = Ok (actions, Some actions)
  /\ exists c' : R * R,
       Player.update_crosshair me actions (0%R, 0%R)
       = Ok (Player.set_crosshair me (Player.AsList c'))
       /\ Rabs (fst c' - 100) = 70%R.
Proof.
  intros target me actions.
  assert (F : lt 1%R 0%R = false) by (apply lt_false; lra).
  assert (L : lt 100%R 200%R = true) by (apply lt_true; lra).
  assert (G : lt 200%R 100%R = false) by (apply lt_false; lra).
  assert (E : Binding.create_simple_ai_binding 0%R None (fun _ : nat => 1%R)
                (Game.mk 1600 800 [target; me]) = Ok (actions, Some actions)).
  { unfold Binding.create_simple_ai_binding, Binding.flip. cbv zeta.
    rewrite F.
    change (py_index (Game.players (Game.mk 1600 800 [target; me])) 0)
      with (Ok target).
    change (py_index (Game.players (Game.mk 1600 800 [target; me])) 1)
      with (Ok me).
    cbn [bind].
    change (fst (Player.position target)) with 100%R.
    change (snd (Player.position target)) with 100%R.
    change (fst (Player.coords (Player.crosshair me))) with 200%R.
    change (snd (Player.coords (Player.crosshair me))) with 200%R.
    rewrite L, G. reflexivity. }
  split; [exact E |].
  destruct (ai_crosshair_closes_in 0%R None (Some actions) (fun _ : nat => 1%R)
              (Game.mk 1600 800 [target; me]) target me
              (Sample.exact_vec 200 200) (0%R, 0%R) actions
              eq_refl eq_refl E)
    as (c' & Eu & Near & _).
  exists c'. split; [exact Eu |].
  change (fst (Sample.exact_vec 200 200)) with 200%R in Near.
  change (fst (Player.position target)) with 100%R in Near.
  replace (200 - 100)%R with 100%R in Near by lra.
  rewrite (Rabs_right 100) in Near by lra.
  rewrite Near; lra.
Defined.

(** ** Motion over exact reals *)

Section ExactMotion.
Local Open Scope R_scope.

(** The velocity [update] leaves, from the integrated one, by cases on the
    integrated speed. *)
Lemma velocity_after_update (self self' : Player.t R) (actions : Actions.t)
  (delta_t : R) (mouse : R * R) :
  Player.update self actions delta_t mouse = Ok self' ->
  let integrated :=
    (fst (Player.velocity self) + fst (Player.acceleration self) * delta_t,
     snd (Player.velocity self) + snd (Player.acceleration self) * delta_t) in
  let speed := sqrt (fst integrated * fst integrated
                     + snd integrated * snd integrated) in
  (1500 < speed ->
   Player.velocity self'
   = (fst integrated * (1500 / speed), snd integrated * (1500 / speed)))
  /\ (30 <= speed <= 1500 -> Player.velocity self' = integrated)
  /\ (speed < 30 -> Player.velocity self' = (0, 0)).
Proof.
  intros E integrated speed.
  destruct (update_velocity_spec _ _ _ _ _ E)
    as (thrusted & speed' & limited & slowed & Vt & _ & Es & El & Vel & _).
  fold integrated in Vt, Es.
  rewrite magnitude_exact in Es. apply Ok_inj in Es.
  change (speed = speed') in Es. rewrite <- Es in El, Vel. clear Es speed'.
  unfold Player.threshold in Vel. unfold Player.limit_speed in El.
  unfold Player.MAX_SPEED in El.
  split; [| split].
  - intros Fast.
    assert (L : lt (of_int 1500) speed = true) by (apply lt_true; exact Fast).
    assert (N : lt speed (of_int 30) = false) by (apply lt_false; cbn; lra).
    rewrite L in El. rewrite N in Vel.
    rewrite div_Ok in El by lra. cbn [bind] in El. apply Ok_inj in El.
    subst limited. rewrite Vel. cbn [Player.set_velocity Player.velocity].
    rewrite Vt. reflexivity.
  - intros [Lo Hi].
    assert (L : lt (of_int 1500) speed = false) by (apply lt_false; exact Hi).
    assert (N : lt speed (of_int 30) = false) by (apply lt_false; exact Lo).
    rewrite L in El. rewrite N in Vel. apply Ok_inj in El. subst limited.
    rewrite Vel. exact Vt.
  - intros Slow.
    assert (N : lt speed (of_int 30) = true) by (apply lt_true; exact Slow).
    rewrite N in Vel. rewrite Vel. reflexivity.
Qed.

(** X13: over exact reals, whatever the state [update] starts from, the
    player it returns is no faster than [MAX_SPEED]; and when the integrated
    speed is below 30 the player is stopped, with velocity [(0, 0)]. *)
Theorem update_bounds_speed (self self' : Player.t R) (actions : Actions.t)
  (delta_t : R) (mouse : R * R) :
  Player.update self actions delta_t mouse = Ok self' ->
  (exists speed' : R,
     Player.magnitude (Player.velocity self') = Ok speed'
     /\ 0 <= speed' <= IZR Player.MAX_SPEED)
  /\ (forall speed : R,
        Player.magnitude
          (fst (Player.velocity self)
           + fst (Player.acceleration self) * delta_t,
           snd (Player.velocity self)
           + snd (Player.acceleration self) * delta_t)%py = Ok speed ->
        speed < 30 -> Player.velocity self' = (0, 0)).
Proof.
  intros E.
  destruct (velocity_after_update _ _ _ _ _ E) as (Fast & Mid & Slow).
  cbv zeta in Fast, Mid, Slow.
  set (i0 := fst (Player.velocity self)
             + fst (Player.acceleration self) * delta_t) in *.
  set (i1 := snd (Player.velocity self)
             + snd (Player.acceleration self) * delta_t) in *.
  cbn [fst snd] in Fast, Mid, Slow.
  split.
  - rewrite magnitude_exact. eexists. split; [reflexivity |].
    unfold Player.MAX_SPEED.
    destruct (Rlt_dec 1500 (sqrt (i0 * i0 + i1 * i1))) as [F | F].
    + rewrite (Fast F). cbn [fst snd].
      rewrite (scaled_magnitude i0 i1 _ eq_refl) by lra. lra.
    + destruct (Rlt_dec (sqrt (i0 * i0 + i1 * i1)) 30) as [S | S].
      * rewrite (Slow S). cbn [fst snd].
        replace (0 * 0 + 0 * 0) with 0 by ring. rewrite sqrt_0. lra.
      * rewrite Mid by lra. cbn [fst snd]. split; [apply sqrt_pos | lra].
  - intros speed Es S. rewrite magnitude_exact in Es. apply Ok_inj in Es.
    cbn [fst snd plus times real_Number] in Es. fold i0 i1 in Es.
    apply Slow. rewrite Es. exact S.
Qed.

(** X14: over exact reals, a player at rest on whom no movement key is
    pressed stays at rest: [update] leaves its position where it was, its
    velocity and its acceleration at [(0, 0)]. *)
Theorem rest_stays_at_rest (self self' : Player.t R) (actions : Actions.t)
  (delta_t : R) (mouse : R * R) :
  Player.velocity self = (0, 0) ->
  Player.acceleration self = (0, 0) ->
  Actions.up actions = false -> Actions.down actions = false ->
  Actions.left actions = false -> Actions.right actions = false ->
  Player.update self actions delta_t mouse = Ok self' ->
  Player.position self' = Player.position self
  /\ Player.velocity self' = (0, 0)
  /\ Player.acceleration self' = (0, 0).
Proof.
  intros V A U D L R E.
  destruct (velocity_after_update _ _ _ _ _ E) as (_ & _ & Slow).
  destruct (update_motion _ _ _ _ _ E)
    as (moved & thrusted & speed & limited & slowed
        & Em & Et & Es & El & Ef & Pos & Vel & Acc).
  destruct (update_position_spec _ _ _ Em) as (d & h0 & h1 & Ed & E0 & E1 & Mv).
  destruct (update_acceleration_keeps _ _ _ Et) as [_ Vt].
  destruct (limit_speed_keeps _ _ _ El) as [_ Al].
  rewrite V, A in *. cbn [fst snd] in *.
  assert (Z0 : sqrt ((0 + 0 * delta_t) * (0 + 0 * delta_t)
                     + (0 + 0 * delta_t) * (0 + 0 * delta_t)) = 0).
  { replace ((0 + 0 * delta_t) * (0 + 0 * delta_t)
             + (0 + 0 * delta_t) * (0 + 0 * delta_t)) with 0 by ring.
    apply sqrt_0. }
  split; [| split].
  - rewrite Pos, Mv. cbn [Player.set_position Player.position].
    cbn [pow2 real_Number] in Ed. apply Ok_inj in Ed. subst d.
    rewrite div_Ok in E0, E1 by (cbn; lra).
    apply Ok_inj in E0, E1. subst h0 h1.
    destruct (Player.position self) as [x y].
    cbn [fst snd plus times of_int real_Number]. f_equal; field.
  - apply Slow. rewrite Z0. lra.
  - rewrite Acc.
    assert (Sp : speed = 0).
    { rewrite Vt, Mv, magnitude_exact in Es.
      cbn [Player.update_velocity Player.set_velocity Player.set_position
           Player.velocity Player.acceleration fst snd plus times
           real_Number] in Es.
      rewrite V, A in Es. cbn [fst snd] in Es.
      rewrite Z0 in Es. apply Ok_inj in Es. auto. }
    subst speed.
    unfold Player.friction in Ef.
    assert (Dr : lt lit_0_1 0 = false) by (apply lt_false; cbn; lra).
    rewrite Dr in Ef. apply Ok_inj in Ef. subst slowed.
    destruct (threshold_keeps limited 0) as [_ ->]. rewrite Al.
    unfold Player.update_acceleration in Et. rewrite U, D, L, R in Et.
    change (int_of_bool false - int_of_bool false)%Z with 0%Z in Et.
    cbv zeta in Et. cbn [fst snd] in Et.
    change (0 ^ 2 + 0 ^ 2)%Z with 0%Z in Et.
    assert (Th : lt (of_int 0) (pow_half (of_int 0)) = false).
    { apply lt_false. cbn. rewrite sqrt_0. lra. }
    rewrite Th in Et. apply Ok_inj in Et. subst thrusted. reflexivity.
Qed.
End ExactMotion.

Lemma update_bounds_speed_witness :
  exists (self' : Player.t R) (speed' : R),
    Player.update
      (Sample.exact_player (Sample.exact_vec 100 100)
                           (Sample.exact_vec 2000 (-900))
                           (Sample.exact_vec 20000 0)
                           (Sample.exact_vec 200 200))
      Actions.none (1 / 60)%R (Sample.exact_vec 0 0) = Ok self'
    /\ Player.magnitude (Player.velocity self') = Ok speed'
    /\ (0 <= speed' <= IZR Player.MAX_SPEED)%R.
Proof.
  destruct (update_exact_returns
              (Sample.exact_player (Sample.exact_vec 100 100)
                 (Sample.exact_vec 2000 (-900)) (Sample.exact_vec 20000 0)
                 (Sample.exact_vec 200 200))
              Actions.none (1 / 60)%R (Sample.exact_vec 0 0) eq_refl
              (or_intror (ex_intro _ _ eq_refl))) as [self' E].
  destruct (update_bounds_speed _ _ _ _ _ E) as ((speed' & Es & B) & _).
  exists self', speed'. split; [exact E |]. split; [exact Es | exact B].
Defined.

Lemma rest_stays_at_rest_witness :
  let self := Sample.exact_player (Sample.exact_vec 100 100)
                (Sample.exact_vec 0 0) (Sample.exact_vec 0 0)
                (Sample.exact_vec 200 200) in
  exists self' : Player.t R,
    Player.update self
      (Actions.mk false false false false false true false false true false)
      (1 / 60)%R (Sample.exact_vec 0 0) = Ok self'
    /\ Player.position self' = Sample.exact_vec 100 100
    /\ Player.velocity self' = (0%R, 0%R).
Proof.
  intros self.
  destruct (update_exact_returns self
              (Actions.mk false false false false false true false false
                          true false)
              (1 / 60)%R (Sample.exact_vec 0 0) eq_refl
              (or_intror (ex_intro _ _ eq_refl))) as [self' E].
  destruct (rest_stays_at_rest self self'
              (Actions.mk false false false false false true false false
                          true false)
              (1 / 60)%R (Sample.exact_vec 0 0)
              eq_refl eq_refl eq_refl eq_refl eq_refl eq_refl E)
    as (P & V & _).
  exists self'. split; [exact E |]. split; [exact P | exact V].
Defined.

Section ExactAim.
Local Open Scope R_scope.

(** X15: over exact reals, a player that shoots while its bullet is parked
    and its crosshair is away from its position gets its bullet in flight
    from its own position, flying toward the crosshair (the offset to the
    crosshair times a positive factor) at exactly [SHOOTING_SPEED]. *)
Theorem shot_flies_at_shooting_speed (self : Player.t R)
  (actions : Actions.t) :
  Actions.shoot actions = true ->
  Bullet.was_shot (Player.bullet self) = false ->
  Player.coords (Player.crosshair self) <> Player.position self ->
  exists (self' : Player.t R) (c : R),
    Player.shoot self actions = Ok self'
    /\ 0 < c
    /\ Bullet.was_shot (Player.bullet self') = true
    /\ Bullet.position (Player.bullet self') = Player.position self
    /\ Bullet.velocity (Player.bullet self')
       = ((fst (Player.coords (Player.crosshair self))
           - fst (Player.position self)) * c,
          (snd (Player.coords (Player.crosshair self))
           - snd (Player.position self)) * c)
    /\ Player.magnitude (Bullet.velocity (Player.bullet self'))
       = Ok (IZR Player.SHOOTING_SPEED).
Proof.
  intros S W Away.
  unfold Player.shoot. rewrite S, W. cbn [andb negb]. cbv zeta.
  destruct (Player.coords (Player.crosshair self)) as [cx cy].
  destruct (Player.position self) as [px py] eqn:P.
  cbn [fst snd minus real_Number].
  rewrite magnitude_exact. cbn [bind fst snd].
  remember (sqrt ((cx - px) * (cx - px) + (cy - py) * (cy - py)))
    as dist eqn:Ed.
  assert (D : 0 < dist).
  { rewrite Ed. apply sqrt_lt_R0.
    pose proof (Rle_0_sqr (cx - px)) as Sx.
    pose proof (Rle_0_sqr (cy - py)) as Sy.
    unfold Rsqr in Sx, Sy.
    destruct (Req_dec cx px) as [X | X].
    - destruct (Req_dec cy py) as [Y | Y].
      + contradiction Away. rewrite X, Y. reflexivity.
      + assert (Q : 0 < Rsqr (cy - py)) by (apply Rsqr_pos_lt; lra).
        unfold Rsqr in Q. lra.
    - assert (Q : 0 < Rsqr (cx - px)) by (apply Rsqr_pos_lt; lra).
      unfold Rsqr in Q. lra. }
  rewrite !div_Ok by lra. cbn [bind].
  unfold Player.SHOOTING_SPEED. cbn [of_int times real_Number].
  eexists. exists (3000 / dist).
  split; [reflexivity |].
  cbn [Player.set_bullet Player.bullet Bullet.was_shot Bullet.position
       Bullet.velocity].
  split; [apply Rdiv_lt_0_compat; lra |].
  split; [reflexivity |]. split; [reflexivity |]. split; [reflexivity |].
  rewrite magnitude_exact. cbn [fst snd]. f_equal.
  apply (scaled_magnitude (cx - px) (cy - py) dist Ed D 3000). lra.
Qed.

(** X16: over exact reals, [update_acceleration] always returns; pressing
    neither or both keys of each axis leaves no thrust, and any other
    choice of keys, one axis or both, gives a thrust of magnitude exactly
    20000. *)
Theorem thrust_has_fixed_magnitude (self : Player.t R)
  (actions : Actions.t) :
  exists thrusted : Player.t R,
    Player.update_acceleration self actions = Ok thrusted
    /\ (Actions.right actions = Actions.left actions ->
        Actions.down actions = Actions.up actions ->
        Player.acceleration thrusted = (0, 0))
    /\ (Actions.right actions <> Actions.left actions
        \/ Actions.down actions <> Actions.up actions ->
        Player.magnitude (Player.acceleration thrusted) = Ok 20000).
Proof.
  unfold Player.update_acceleration.
  assert (S0 : lt (of_int 0) (pow_half (of_int 0)) = false).
  { apply lt_false. cbn. rewrite sqrt_0. lra. }
  assert (P1 : 0 < sqrt 1) by (rewrite sqrt_1; lra).
  assert (P2 : 0 < sqrt 2) by (apply sqrt_lt_R0; lra).
  assert (S1 : lt (of_int 0) (pow_half (of_int 1)) = true).
  { apply lt_true. exact P1. }
  assert (S2 : lt (of_int 0) (pow_half (of_int 2)) = true).
  { apply lt_true. exact P2. }
  assert (M : forall x y : Z,
             0 < sqrt (IZR (x ^ 2 + y ^ 2)) ->
             sqrt (IZR (20000 * x) / sqrt (IZR (x ^ 2 + y ^ 2))
                   * (IZR (20000 * x) / sqrt (IZR (x ^ 2 + y ^ 2)))
                   + IZR (20000 * y) / sqrt (IZR (x ^ 2 + y ^ 2))
                     * (IZR (20000 * y) / sqrt (IZR (x ^ 2 + y ^ 2))))
             = 20000).
  { intros x y P.
    etransitivity;
      [| apply (scaled_magnitude (IZR x) (IZR y)
                  (sqrt (IZR (x ^ 2 + y ^ 2))));
         [f_equal; rewrite <- !mult_IZR, <- plus_IZR; f_equal; ring
         | exact P | lra]].
    f_equal. rewrite !mult_IZR. field. lra. }
  destruct (Actions.right actions), (Actions.left actions),
    (Actions.down actions), (Actions.up actions);
    cbn [int_of_bool]; cbv zeta; cbn [fst snd];
    match goal with
    | |- context [pow_half (of_int ?z)] =>
        let v := eval vm_compute in z in change z with v
    end;
    rewrite ?S0, ?S1, ?S2;
    try (rewrite !div_Ok by (cbn; lra); cbn [bind]);
    eexists; (split; [reflexivity |]);
    cbn [Player.set_acceleration Player.acceleration];
    (split;
     [intros; try discriminate; try reflexivity
     | intros [N | N]; try (contradiction N; reflexivity);
       rewrite magnitude_exact; cbn [fst snd of_int pow_half real_Number];
       f_equal]).
  all: try (apply (M 1%Z 1%Z); exact P2).
  all: try (apply (M 1%Z (-1)%Z); exact P2).
  all: try (apply (M (-1)%Z 1%Z); exact P2).
  all: try (apply (M (-1)%Z (-1)%Z); exact P2).
  all: try (apply (M 1%Z 0%Z); exact P1).
  all: try (apply (M (-1)%Z 0%Z); exact P1).
  all: try (apply (M 0%Z 1%Z); exact P1).
  all: try (apply (M 0%Z (-1)%Z); exact P1).
Qed.
End ExactAim.

Lemma shot_flies_at_shooting_speed_witness :
  let self := Sample.exact_player (Sample.exact_vec 100 100)
                (Sample.exact_vec 0 0) (Sample.exact_vec 0 0)
                (Sample.exact_vec 400 500) in
  exists self' : Player.t R,
    Player.shoot self (Sample.pressing false true false) = Ok self'
    /\ Bullet.was_shot (Player.bullet self') = true
    /\ Player.magnitude (Bullet.velocity (Player.bullet self'))
       = Ok (IZR Player.SHOOTING_SPEED).
Proof.
  intros self.
  assert (Away : Player.coords (Player.crosshair self)
                 <> Player.position self).
  { intros Q. injection Q as Q _. apply eq_IZR in Q. discriminate Q. }
  destruct (shot_flies_at_shooting_speed self
              (Sample.pressing false true false) eq_refl eq_refl Away)
    as (self' & c & E & _ & S & _ & _ & M).
  exists self'. split; [exact E |]. split; [exact S | exact M].
Defined.

Section ExactBounds.
Local Open Scope R_scope.

Lemma clamp_cases (w c : R) :
  0 <= w ->
  Rmax 0 (Rmin w c) = if lt c 0 then 0 else if lt w c then w else c.
Proof.
  intros W. unfold Rmax, Rmin.
  destruct (lt c 0) eqn:A; [apply lt_true in A | apply lt_false in A].
  - destruct (Rle_dec w c); destruct (Rle_dec 0 _); lra.
  - destruct (lt w c) eqn:B; [apply lt_true in B | apply lt_false in B];
      destruct (Rle_dec w c); destruct (Rle_dec 0 _); lra.
Qed.

(** X17: over exact reals, on a screen of non-negative size,
    [# Limit crosshair position] clamps each coordinate of a list crosshair
    to the screen, [max 0 (min size c)], and touches nothing else of the
    player; a tuple crosshair, which the mouse leaves, passes unchanged when
    it is on the screen and raises [TypeError] when it is not. *)
Theorem crosshair_is_clamped_to_screen (self : Game.t R)
  (player : Player.t R) (c : R * R) :
  (0 <= Game.screen_width self)%Z -> (0 <= Game.screen_height self)%Z ->
  let on_screen :=
    0 <= fst c <= IZR (Game.screen_width self)
    /\ 0 <= snd c <= IZR (Game.screen_height self) in
  (Player.crosshair player = Player.AsList c ->
   Game.limit_crosshair self player
   = Ok (Player.set_crosshair player
           (Player.AsList
              (Rmax 0 (Rmin (IZR (Game.screen_width self)) (fst c)),
               Rmax 0 (Rmin (IZR (Game.screen_height self)) (snd c))))))
  /\ (Player.crosshair player = Player.AsTuple c -> on_screen ->
      Game.limit_crosshair self player = Ok player)
  /\ (Player.crosshair player = Player.AsTuple c -> ~ on_screen ->
      Game.limit_crosshair self player = Raise TypeError).
Proof.
  intros W H on_screen. subst on_screen.
  apply IZR_le in W, H.
  destruct c as [c0 c1]. cbn [fst snd].
  unfold Game.limit_crosshair. cbv zeta.
  assert (Z0 : lt 0 0 = false) by (apply lt_false; lra).
  assert (WW : forall w : R, lt w w = false) by (intros; apply lt_false; lra).
  assert (W0 : lt (IZR (Game.screen_width self)) 0 = false)
    by (apply lt_false; lra).
  assert (H0 : lt (IZR (Game.screen_height self)) 0 = false)
    by (apply lt_false; lra).
  split; [| split].
  - intros ->. cbn [Player.coords fst snd of_int real_Number].
    rewrite !clamp_cases by assumption.
    destruct (lt c0 0) eqn:A0;
      cbn [Game.crosshair_setitem bind Player.coords fst snd];
      rewrite ?W0;
      destruct (lt (IZR (Game.screen_width self)) c0) eqn:A1;
      cbn [Game.crosshair_setitem bind Player.coords fst snd];
      destruct (lt c1 0) eqn:B0;
      cbn [Game.crosshair_setitem bind Player.coords fst snd];
      rewrite ?H0;
      destruct (lt (IZR (Game.screen_height self)) c1) eqn:B1;
      cbn [Game.crosshair_setitem bind Player.coords fst snd];
      reflexivity.
  - intros C ((A0 & A1) & B0 & B1). rewrite C.
    cbn [Player.coords fst snd of_int real_Number].
    apply lt_false in A0, A1, B0, B1.
    rewrite A0. cbn [bind Player.coords fst snd]. rewrite A1.
    cbn [bind Player.coords fst snd]. rewrite B0.
    cbn [bind Player.coords fst snd]. rewrite B1.
    cbn [bind]. rewrite <- C. destruct player; reflexivity.
  - intros -> Off. cbn [Player.coords fst snd of_int real_Number].
    destruct (lt c0 0) eqn:A0; [reflexivity |].
    cbn [bind Player.coords fst snd].
    destruct (lt (IZR (Game.screen_width self)) c0) eqn:A1;
      [reflexivity |].
    cbn [bind Player.coords fst snd].
    destruct (lt c1 0) eqn:B0; [reflexivity |].
    cbn [bind Player.coords fst snd].
    destruct (lt (IZR (Game.screen_height self)) c1) eqn:B1;
      [reflexivity |].
    apply lt_false in A0, A1, B0, B1. contradiction Off. lra.
Qed.

Lemma bounce_slows (player : Player.t R) (vertical : bool) (center : R) :
  Rabs (fst (Player.velocity (Game.bounce player vertical center)))
  <= Rabs (fst (Player.velocity player))
  /\ Rabs (snd (Player.velocity (Game.bounce player vertical center)))
     <= Rabs (snd (Player.velocity player))
  /\ (vertical = false ->
      fst (Player.velocity (Game.bounce player vertical center))
      = - (8 / 10) * fst (Player.velocity player))
  /\ (vertical = true ->
      snd (Player.velocity (Game.bounce player vertical center))
      = - (8 / 10) * snd (Player.velocity player)).
Proof.
  unfold Game.bounce. cbv zeta.
  destruct (Player.velocity player) as [vx vy].
  destruct vertical;
    cbn [Player.set_velocity Player.velocity fst snd negate times lit_0_8
         real_Number];
    (split; [| split; [| split]]); try discriminate; try lra;
    intros; try lra;
    unfold Rabs; repeat (destruct (Rcase_abs _)); lra.
Qed.

(** X18: over exact reals, [# Check collisions with walls] never speeds a
    player up: neither component of the velocity grows in absolute value,
    whichever walls are hit and however often. *)
Theorem walls_never_speed_up (self : Game.t R) (player player' : Player.t R) :
  Game.wall_collisions self player = Ok player' ->
  Rabs (fst (Player.velocity player')) <= Rabs (fst (Player.velocity player))
  /\ Rabs (snd (Player.velocity player'))
     <= Rabs (snd (Player.velocity player)).
Proof.
  unfold Game.wall_collisions. intros E.
  bind_inv E. bind_inv E. bind_inv E. bind_inv E. bind_inv E.
  apply Ok_inj in E. subst player'.
  assert (Step : forall (cond : bool) (vertical : bool) (c : result R)
                        (f : R -> R) (a b : Player.t R),
             (if cond then bind c (fun x => Ok (Game.bounce a vertical (f x)))
              else Ok a) = Ok b ->
             Rabs (fst (Player.velocity b)) <= Rabs (fst (Player.velocity a))
             /\ Rabs (snd (Player.velocity b))
                <= Rabs (snd (Player.velocity a))).
  { intros cond vertical c f a b Eb. destruct cond.
    - apply bind_Ok in Eb. destruct Eb as (x & _ & Eb).
      apply Ok_inj in Eb. subst b.
      destruct (bounce_slows a vertical (f x)) as (Bx & By & _).
      split; assumption.
    - apply Ok_inj in Eb. subst b. split; apply Rle_refl. }
  apply (Step _ false _ (fun x => x)) in Eq0.
  apply (Step _ true _ (fun x => x)) in Eq1.
  apply (Step _ false _ (fun x => IZR (Game.screen_width self) - x)) in Eq2.
  apply (Step _ true _ (fun x => IZR (Game.screen_height self) - x)) in Eq3.
  lra.
Qed.
End ExactBounds.

Lemma crosshair_is_clamped_to_screen_witness :
  let g : Game.t R := Game.mk 1600 800 [] in
  let player := Sample.exact_player (Sample.exact_vec 100 100)
                  (Sample.exact_vec 0 0) (Sample.exact_vec 0 0)
                  (Sample.exact_vec (-30) 900) in
  Game.limit_crosshair g player
  = Ok (Player.set_crosshair player
          (Player.AsList (Rmax 0 (Rmin 1600 (-30)), Rmax 0 (Rmin 800 900)))).
Proof.
  intros g player.
  assert (W : (0 <= Game.screen_width g)%Z) by (cbn; lia).
  assert (H : (0 <= Game.screen_height g)%Z) by (cbn; lia).
  apply (crosshair_is_clamped_to_screen g player
           (Sample.exact_vec (-30) 900) W H).
  reflexivity.
Defined.

Lemma walls_never_speed_up_witness :
  let g : Game.t R := Game.mk 1600 800 [] in
  let player := Sample.exact_player (Sample.exact_vec (-5) 100)
                  (Sample.exact_vec (-90) 40) (Sample.exact_vec 0 0)
                  (Sample.exact_vec 200 200) in
  let bounced := Game.bounce player false (50 / 2)%R in
  Game.wall_collisions g player = Ok bounced
  /\ (Rabs (fst (Player.velocity bounced)) <= Rabs (IZR (-90)))%R.
Proof.
  intros g player bounced.
  assert (E : Game.wall_collisions g player = Ok bounced).
  { unfold Game.wall_collisions, Player.get_rect, Rect.set_center.
    cbn [bind to_int real_Number player Sample.exact_player Sample.exact_vec
         Player.position Player.img fst snd Rect.of_size Rect.w Rect.h].
    rewrite !trunc_int.
    cbn [bind Rect.left Rect.top Rect.right Rect.bottom Rect.width
         Rect.height Rect.x Rect.y Rect.w Rect.h Game.screen_width
         Game.screen_height g].
    change (-5 - Z.shiftr 50 1 <? 0)%Z with true.
    change (100 - Z.shiftr 50 1 <? 0)%Z with false.
    change (1600 <? -5 - Z.shiftr 50 1 + 50)%Z with false.
    change (800 <? 100 - Z.shiftr 50 1 + 50)%Z with false.
    rewrite div_Ok by (cbn; lra). reflexivity. }
  split; [exact E |].
  apply (walls_never_speed_up g player bounced E).
Defined.
